(** * Claw Dashboard: gateway client, CLI output parsing and session hierarchy

    A shallow embedding of the parts of the dashboard that carry logic:

    - [GatewayClient.ts]: the reconnect back-off, the connection state
      machine with its heartbeat and reconnect timers, [gatewayStatus] and
      [listSessions];
    - the main-process IPC handlers ([gateway:status], [agents:list],
      [sessions:list], [agent:run]) with the text listing parser;
    - [SessionContext.tsx]: the parent/child session mapping;
    - the event emitter of the client, [sendMessage] and [spawnSession],
      the [gateway:logs] and [agent:spawn] handlers;
    - [MissionControl.tsx]: the grouping of sessions by agent and the
      record of a spawn;
    - [OpenClawWebSocket.ts]: the push socket client with its
      reconnection.

    JavaScript strings are modelled as the UTF-8 bytes of their text,
    objects used as maps as finite maps or association lists, and the
    asynchronous methods of the client as the atomic pieces between two
    [await]s, run by an explicit event loop. *)

From Stdlib Require Import ZArith QArith Qround String Ascii List Bool Lia.
From Stdlib Require Import DecimalString Lqa.
From stdpp Require Import gmap strings.
Import ListNotations.

#[local] Set Warnings "-register-all".
Local Open Scope Z_scope.

(** ** Reconnect back-off ([GatewayClient.getBackoffDelay]) *)

Module Backoff.

(** [Math.round]: the nearest integer, ties towards plus infinity. *)
Definition Math_round (x : Q) : Z := Qfloor (x + (1 # 2))%Q.

(** [Math.min] on numbers. *)
Definition Math_min (x y : Q) : Q := if Qle_bool x y then x else y.

Section Rounding.

(** JavaScript numbers are IEEE-754 doubles: the result of every arithmetic
    operation is the exact value rounded to a double.  The rounding is kept
    abstract as [fl]; what is used of it is stated where it is needed. *)
Variable fl : Q -> Q.

Definition baseDelay : Q := inject_Z 1000.
Definition maxDelay : Q := inject_Z 16000.

(** [Math.pow(2, attempt)] for a non-negative integer attempt count. *)
Definition Math_pow2 (attempt : nat) : Q := inject_Z (2 ^ Z.of_nat attempt).

(**
<<
  const exponential = baseDelay * Math.pow(2, attempt);
  const delay = Math.min(exponential, maxDelay);
  const jitter = delay * 0.25 * (Math.random() * 2 - 1);
  return Math.round(delay + jitter);
>>
    [random] is the value drawn by [Math.random()]. *)
Definition getBackoffDelay (attempt : nat) (random : Q) : Z :=
  let exponential := fl (baseDelay * Math_pow2 attempt)%Q in
  let delay := Math_min exponential maxDelay in
  let jitter :=
    fl (fl (delay * (1 # 4)) * fl (fl (random * inject_Z 2) - inject_Z 1))%Q in
  Math_round (fl (delay + jitter)%Q).

End Rounding.

(** What the bounds below use of IEEE-754 rounding to nearest: it is
    monotone, and it leaves alone every number [m / 2^e] whose numerator
    fits the 53 bits of a double's significand. *)
Definition rounding (fl : Q -> Q) : Prop :=
  (forall x y : Q, (x <= y)%Q -> (fl x <= fl y)%Q) /\
  (forall (m : Z) (e : nat), Z.abs m <= 2 ^ 53 -> (e <= 1022)%nat ->
     (fl (inject_Z m / inject_Z (2 ^ Z.of_nat e)) == inject_Z m / inject_Z (2 ^ Z.of_nat e))%Q).

(** Exact arithmetic: the rounding that never rounds. *)
Definition exact (x : Q) : Q := x.

End Backoff.

(** ** JavaScript strings and values *)

Module Js.

Local Open Scope string_scope.

(** A string is the UTF-8 encoding of the text.  White space as
    [String.prototype.trim] and the regular expression class [\s] see it:
    the WhiteSpace and LineTerminator code points of ECMAScript.  Those of
    one byte: TAB, LF, VT, FF, CR, SP. *)
Definition isWhiteSpace (c : ascii) : bool :=
  let n := nat_of_ascii c in
  Nat.eqb n 32 || (Nat.leb 9 n && Nat.leb n 13).

(** The one of two bytes: U+00A0 (C2 A0). *)
Definition isWhiteSpace2 (a b : ascii) : bool :=
  Nat.eqb (nat_of_ascii a) 194 && Nat.eqb (nat_of_ascii b) 160.

(** Those of three bytes: U+1680 (E1 9A 80), U+2000 to U+200A
    (E2 80 80 to E2 80 8A), U+2028 and U+2029 (E2 80 A8, E2 80 A9), U+202F
    (E2 80 AF), U+205F (E2 81 9F), U+3000 (E3 80 80) and U+FEFF
    (EF BB BF). *)
Definition isWhiteSpace3 (a b c : ascii) : bool :=
  let x := nat_of_ascii a in
  let y := nat_of_ascii b in
  let z := nat_of_ascii c in
  (Nat.eqb x 225 && Nat.eqb y 154 && Nat.eqb z 128) ||
  (Nat.eqb x 226 && Nat.eqb y 128 &&
     ((Nat.leb 128 z && Nat.leb z 138) || Nat.eqb z 168 || Nat.eqb z 169 || Nat.eqb z 175)) ||
  (Nat.eqb x 226 && Nat.eqb y 129 && Nat.eqb z 159) ||
  (Nat.eqb x 227 && Nat.eqb y 128 && Nat.eqb z 128) ||
  (Nat.eqb x 239 && Nat.eqb y 187 && Nat.eqb z 191).

(** Line terminators, the characters the regular expression [.] refuses:
    LF and CR, and in three bytes U+2028 and U+2029. *)
Definition isLineTerminator (c : ascii) : bool :=
  let n := nat_of_ascii c in Nat.eqb n 10 || Nat.eqb n 13.

Definition isLineTerminator3 (a b c : ascii) : bool :=
  Nat.eqb (nat_of_ascii a) 226 && Nat.eqb (nat_of_ascii b) 128 &&
  (Nat.eqb (nat_of_ascii c) 168 || Nat.eqb (nat_of_ascii c) 169).

(** [s.trimStart()]: the white space characters at the start are dropped,
    whatever their length in bytes. *)
Fixpoint trimStart (s : string) : string :=
  match s with
  | EmptyString => EmptyString
  | String a t =>
      if isWhiteSpace a then trimStart t
      else
        match t with
        | String b t2 =>
            if isWhiteSpace2 a b then trimStart t2
            else
              match t2 with
              | String c t3 => if isWhiteSpace3 a b c then trimStart t3 else s
              | EmptyString => s
              end
        | EmptyString => s
        end
  end.

(** Is the text white space throughout? *)
Definition blank (s : string) : bool :=
  match trimStart s with
  | EmptyString => true
  | String _ _ => false
  end.

(** [s.trimEnd()]: the text up to the point from which only white space
    follows. *)
Fixpoint trimEnd (s : string) : string :=
  match s with
  | EmptyString => EmptyString
  | String c s' => if blank s then EmptyString else String c (trimEnd s')
  end.

(** [s.trim()] *)
Definition trim (s : string) : string := trimEnd (trimStart s).

(** [s.startsWith(prefix)] *)
Fixpoint startsWith (s prefix : string) : bool :=
  match prefix, s with
  | EmptyString, _ => true
  | String a p, String b t => Ascii.eqb a b && startsWith t p
  | String _ _, EmptyString => false
  end.

(** [s.substring(n)]: the string without its first [n] characters. *)
Fixpoint substring (n : nat) (s : string) : string :=
  match n, s with
  | O, _ => s
  | S m, String _ t => substring m t
  | S _, EmptyString => EmptyString
  end.

(** [s.includes(needle)] *)
Fixpoint includes (s needle : string) : bool :=
  startsWith s needle ||
  match s with
  | String _ t => includes t needle
  | EmptyString => false
  end.

(** [s.split('\n')]: never empty, a trailing newline gives a last empty
    piece. *)
Fixpoint split_newline (s : string) : list string :=
  match s with
  | EmptyString => [EmptyString]
  | String c t =>
      if Ascii.eqb c "010" then EmptyString :: split_newline t
      else match split_newline t with
           | l :: ls => String c l :: ls
           | [] => [String c EmptyString]
           end
  end.

(** Does the text begin with a line terminator? *)
Definition startsLineTerminator (s : string) : bool :=
  match s with
  | String a t =>
      isLineTerminator a ||
      match t with
      | String b (String c _) => isLineTerminator3 a b c
      | _ => false
      end
  | EmptyString => false
  end.

Fixpoint noLineTerminator (s : string) : bool :=
  match s with
  | EmptyString => true
  | String c t => negb (startsLineTerminator s) && noLineTerminator t
  end.

(** Does [/\s*\(default\).*$/] match with the match starting at the first
    character of [s]?  The greedy [\s*] takes the whole run of white space
    (the next character must be an opening parenthesis), and [.*$] needs the
    rest of the input free of line terminators. *)
Definition defaultSuffixAt (s : string) : bool :=
  let t := trimStart s in
  startsWith t "(default)" && noLineTerminator (substring 9 t).

(** [s.replace(/\s*\(default\).*$/, '')]: the leftmost match is cut. *)
Fixpoint replaceDefaultSuffix (s : string) : string :=
  match s with
  | EmptyString => EmptyString
  | String c t =>
      if defaultSuffixAt s then EmptyString else String c (replaceDefaultSuffix t)
  end.

(** Values that cross the IPC bridge: JSON data, and [undefined] for the
    properties an object literal leaves out.  A number is kept as the
    decimal it was written as, [mantissa * 10 ^ exponent]. *)
Inductive Value : Type :=
  | VUndefined
  | VNull
  | VBool (b : bool)
  | VNum (mantissa exponent : Z)
  | VStr (s : string)
  | VArr (items : list Value)
  | VObj (fields : list (string * Value)).

(** Truthiness, as [if (v)], [!v] and [v || w] test it. *)
Definition truthy (v : Value) : bool :=
  match v with
  | VUndefined | VNull => false
  | VBool b => b
  | VNum m _ => negb (Z.eqb m 0)
  | VStr s => negb (String.eqb s "")
  | VArr _ | VObj _ => true
  end.

(** [a || b] *)
Definition or_else (a b : Value) : Value := if truthy a then a else b.

Fixpoint lookupField (k : string) (fields : list (string * Value)) : option Value :=
  match fields with
  | [] => None
  | (k', v) :: rest => if String.eqb k k' then Some v else lookupField k rest
  end.

(** [v.k] for a property name that no prototype defines ([key], [sessions],
    [error], ...): the own property of an object, [undefined] elsewhere.
    Reading a property of [null] or [undefined] throws; the callers below
    guard against it where the source can meet it. *)
Definition member (k : string) (v : Value) : Value :=
  match v with
  | VObj fields => match lookupField k fields with Some x => x | None => VUndefined end
  | _ => VUndefined
  end.

(** Writing a property: an existing key keeps its place, a new one goes
    last. *)
Fixpoint setField (k : string) (v : Value) (fields : list (string * Value))
  : list (string * Value) :=
  match fields with
  | [] => [(k, v)]
  | (k', v') :: rest =>
      if String.eqb k k' then (k, v) :: rest else (k', v') :: setField k v rest
  end.

Definition indexKey (i : nat) : string := NilEmpty.string_of_uint (Nat.to_uint i).

Fixpoint indexed {A} (f : A -> Value) (i : nat) (l : list A) : list (string * Value) :=
  match l with
  | [] => []
  | x :: rest => (indexKey i, f x) :: indexed f (S i) rest
  end.

(** The own enumerable properties that an object spread copies. *)
Definition spread (v : Value) : list (string * Value) :=
  match v with
  | VObj fields => fields
  | VArr items => indexed (fun x => x) 0 items
  | VStr s => indexed (fun c => VStr (String c EmptyString)) 0 (list_ascii_of_string s)
  | _ => []
  end.

(** What a call can end in: a value, or an exception with its message. *)
Inductive Outcome (A : Type) : Type :=
  | Returns (a : A)
  | Throws (message : string).
Arguments Returns {A} a.
Arguments Throws {A} message.

End Js.

(** ** A reference JSON reader

    [JSON.parse] is a built-in; the handlers below take it as a parameter.
    This reader follows the JSON grammar (RFC 8259) and serves to run the
    handlers on concrete documents. *)

Module Json.

Import Js.
Local Open Scope string_scope.
Local Open Scope char_scope.

Definition isJsonSpace (c : ascii) : bool :=
  let n := nat_of_ascii c in
  Nat.eqb n 32 || Nat.eqb n 9 || Nat.eqb n 10 || Nat.eqb n 13.

Fixpoint skip (s : string) : string :=
  match s with
  | String c t => if isJsonSpace c then skip t else s
  | EmptyString => EmptyString
  end.

Definition isDigit (c : ascii) : bool :=
  let n := nat_of_ascii c in Nat.leb 48 n && Nat.leb n 57.

Definition digitVal (c : ascii) : Z := Z.of_nat (nat_of_ascii c) - 48.

(** A maximal run of decimal digits: its value on top of [acc], how many
    digits were read, and the rest of the input. *)
Fixpoint digits (s : string) (acc : Z) (count : nat) : Z * nat * string :=
  match s with
  | String c t =>
      if isDigit c then digits t (10 * acc + digitVal c) (S count) else (acc, count, s)
  | EmptyString => (acc, count, s)
  end.

Definition hexVal (c : ascii) : option nat :=
  let n := nat_of_ascii c in
  if Nat.leb 48 n && Nat.leb n 57 then Some (n - 48)%nat
  else if Nat.leb 65 n && Nat.leb n 70 then Some (n - 55)%nat
  else if Nat.leb 97 n && Nat.leb n 102 then Some (n - 87)%nat
  else None.

(** UTF-8 bytes of a code point of the basic plane. *)
Definition utf8 (n : nat) : string :=
  if Nat.ltb n 128 then String (ascii_of_nat n) EmptyString
  else if Nat.ltb n 2048 then
    String (ascii_of_nat (192 + n / 64)) (String (ascii_of_nat (128 + n mod 64)) EmptyString)
  else
    String (ascii_of_nat (224 + n / 4096))
      (String (ascii_of_nat (128 + (n / 64) mod 64))
         (String (ascii_of_nat (128 + n mod 64)) EmptyString)).

(** The character an escape letter stands for. *)
Definition escaped (e : ascii) : option ascii :=
  if Ascii.eqb e "034" then Some "034"
  else if Ascii.eqb e "\" then Some "\"
  else if Ascii.eqb e "/" then Some "/"
  else if Ascii.eqb e "b" then Some "008"
  else if Ascii.eqb e "f" then Some "012"
  else if Ascii.eqb e "n" then Some "010"
  else if Ascii.eqb e "r" then Some "013"
  else if Ascii.eqb e "t" then Some "009"
  else None.

(** The characters of a string literal after its opening quote, and the
    input after its closing quote. *)
Fixpoint chars (s : string) : option (string * string) :=
  let cons (x : string) (r : option (string * string)) :=
    match r with
    | Some (y, rest) => Some ((x ++ y)%string, rest)
    | None => None
    end in
  match s with
  | EmptyString => None
  | String c t =>
      if Ascii.eqb c "034" then Some (EmptyString, t)
      else if Ascii.eqb c "\" then
        match t with
        | String e t1 =>
            if Ascii.eqb e "u" then
              match t1 with
              | String a (String b (String c' (String d t5))) =>
                  match hexVal a, hexVal b, hexVal c', hexVal d with
                  | Some h3, Some h2, Some h1, Some h0 =>
                      cons (utf8 (((h3 * 16 + h2) * 16 + h1) * 16 + h0)) (chars t5)
                  | _, _, _, _ => None
                  end
              | _ => None
              end
            else match escaped e with
                 | Some x => cons (String x EmptyString) (chars t1)
                 | None => None
                 end
        | EmptyString => None
        end
      else if Nat.ltb (nat_of_ascii c) 32 then None
      else cons (String c EmptyString) (chars t)
  end.

(** A number literal: [-? int frac? exp?], no leading zeros. *)
Definition number (s : string) : option (Value * string) :=
  let '(sign, s1) :=
    match s with
    | String c t => if Ascii.eqb c "-" then (-1, t) else (1, s)
    | EmptyString => (1, s)
    end in
  let int :=
    match s1 with
    | String c t =>
        if Ascii.eqb c "0" then Some (0, t)
        else if isDigit c then let '(v, _, r) := digits s1 0 0 in Some (v, r)
        else None
    | EmptyString => None
    end in
  match int with
  | None => None
  | Some (i, s2) =>
      let frac :=
        match s2 with
        | String c t =>
            if Ascii.eqb c "." then
              let '(v, k, r) := digits t i 0 in
              match k with O => None | S _ => Some (v, - Z.of_nat k, r) end
            else Some (i, 0, s2)
        | EmptyString => Some (i, 0, s2)
        end in
      match frac with
      | None => None
      | Some (m, e, s3) =>
          match s3 with
          | String c t =>
              if Ascii.eqb c "e" || Ascii.eqb c "E" then
                let '(esign, t1) :=
                  match t with
                  | String c1 t2 =>
                      if Ascii.eqb c1 "-" then (-1, t2)
                      else if Ascii.eqb c1 "+" then (1, t2) else (1, t)
                  | EmptyString => (1, t)
                  end in
                let '(v, k, r) := digits t1 0 0 in
                match k with
                | O => None
                | S _ => Some (VNum (sign * m) (e + esign * v), r)
                end
              else Some (VNum (sign * m) e, s3)
          | EmptyString => Some (VNum (sign * m) e, s3)
          end
      end
  end.

(** A literal name ([true], [false], [null]) at the head of the input. *)
Definition literal (name : string) (v : Value) (s : string) : option (Value * string) :=
  if Js.startsWith s name then Some (v, Js.substring (String.length name) s) else None.

Fixpoint value (fuel : nat) (s : string) : option (Value * string) :=
  match fuel with
  | O => None
  | S f =>
      match skip s with
      | EmptyString => None
      | String c t =>
          if Ascii.eqb c "{" then
            match skip t with
            | String c1 r => if Ascii.eqb c1 "}" then Some (VObj [], r) else members f t []
            | EmptyString => None
            end
          else if Ascii.eqb c "[" then
            match skip t with
            | String c1 r => if Ascii.eqb c1 "]" then Some (VArr [], r) else elements f t []
            | EmptyString => None
            end
          else if Ascii.eqb c "034" then
            match chars t with
            | Some (x, r) => Some (VStr x, r)
            | None => None
            end
          else if Ascii.eqb c "t" then literal "true" (VBool true) (String c t)
          else if Ascii.eqb c "f" then literal "false" (VBool false) (String c t)
          else if Ascii.eqb c "n" then literal "null" VNull (String c t)
          else number (String c t)
      end
  end
with elements (fuel : nat) (s : string) (acc : list Value) : option (Value * string) :=
  match fuel with
  | O => None
  | S f =>
      match value f s with
      | None => None
      | Some (v, r) =>
          match skip r with
          | String c r1 =>
              if Ascii.eqb c "," then elements f r1 (acc ++ [v])
              else if Ascii.eqb c "]" then Some (VArr (acc ++ [v]), r1)
              else None
          | EmptyString => None
          end
      end
  end
with members (fuel : nat) (s : string) (acc : list (string * Value))
  : option (Value * string) :=
  match fuel with
  | O => None
  | S f =>
      match skip s with
      | String q t =>
          if Ascii.eqb q "034" then
            match chars t with
            | None => None
            | Some (k, r) =>
                match skip r with
                | String c r1 =>
                    if Ascii.eqb c ":" then
                      match value f r1 with
                      | None => None
                      | Some (v, r2) =>
                          match skip r2 with
                          | String c2 r3 =>
                              if Ascii.eqb c2 "," then members f r3 (setField k v acc)
                              else if Ascii.eqb c2 "}" then Some (VObj (setField k v acc), r3)
                              else None
                          | EmptyString => None
                          end
                      end
                    else None
                | EmptyString => None
                end
            end
          else None
      | EmptyString => None
      end
  end.

(** The whole text must be one value, white space around it allowed. *)
Definition parse (text : string) : Outcome Value :=
  match value (2 * String.length text + 2) text with
  | Some (v, r) =>
      match skip r with
      | EmptyString => Returns v
      | String _ _ => Throws "Unexpected non-whitespace character after JSON"
      end
  | None => Throws "Unexpected token in JSON"
  end.

(** A string in double quotes, for writing documents down. *)
Definition quoted (s : string) : string := (String "034" s ++ String "034" EmptyString)%string.

End Json.

(** ** The main process: running the CLI and the IPC handlers *)

Module Main.

Import Js.
Local Open Scope string_scope.

(** What the callback of [execFile] receives: an error with its message, or
    the standard output of the child. *)
Inductive ChildResult : Type :=
  | ChildError (message : string)
  | ChildExit (out : string).

(** The object [execOpenClaw] resolves to: [{ error }] or [{ stdout }]. *)
Record ExecRes : Type := { error : option string; stdout : option string }.

(**
<<
  if (error) resolve({ error: error.message });
  else resolve({ stdout: stdout?.toString() || '' });
>> *)
Definition execOpenClaw (child : ChildResult) : ExecRes :=
  match child with
  | ChildError message => {| error := Some message; stdout := None |}
  | ChildExit out => {| error := None; stdout := Some out |}
  end.

(** Truthiness of an optional string property. *)
Definition present (p : option string) : bool :=
  match p with
  | Some s => negb (String.eqb s "")
  | None => false
  end.

(** The property as a value, [undefined] when it is missing. *)
Definition prop (p : option string) : Value :=
  match p with
  | Some s => VStr s
  | None => VUndefined
  end.

(** [p || fallback] on an optional string property. *)
Definition or_text (p : option string) (fallback : string) : string :=
  match p with
  | Some s => if String.eqb s "" then fallback else s
  | None => fallback
  end.

(** [ipcMain.handle('gateway:status')], from the result of
    [openclaw gateway status]. *)
Definition gateway_status (child : ChildResult) : Value :=
  let res := execOpenClaw child in
  if present (error res) then
    VObj [("running", VBool false); ("output", prop (error res))]
  else
    VObj [("running", VBool true); ("output", prop (stdout res))].

(** The record opened by a marker line ["- name"] or ["- name (default)"]. *)
Definition openAgent (trimmed : string) : list (string * Value) :=
  let nameWithDefault := trim (substring 2 trimmed) in
  let isDefault := includes nameWithDefault "(default)" in
  let name := trim (replaceDefaultSuffix nameWithDefault) in
  [("id", VStr name); ("name", VStr name); ("isDefault", VBool isDefault);
   ("workspace", VStr ""); ("model", VStr "")].

(** A marker line opens a record: [trimmed.startsWith('- ')]. *)
Definition isMarker (line : string) : bool := startsWith (trim line) "- ".

(** The two [else if] branches that fill the current agent; any other line
    leaves it as it is. *)
Definition readField (trimmed : string) (a : list (string * Value)) : list (string * Value) :=
  if startsWith trimmed "Workspace:" then
    setField "workspace" (VStr (trim (substring 10 trimmed))) a
  else if startsWith trimmed "Model:" then
    setField "model" (VStr (trim (substring 6 trimmed))) a
  else a.

(** The variables of the parsing loop: [agents] and [currentAgent]. *)
Definition Listing : Type := (list Value * option (list (string * Value)))%type.

(** [if (currentAgent) agents.push(currentAgent)] *)
Definition pushCurrent (st : Listing) : list Value :=
  match snd st with
  | Some a => (fst st ++ [VObj a])%list
  | None => fst st
  end.

(** One turn of [for (const line of lines)]. *)
Definition parseLine (st : Listing) (line : string) : Listing :=
  let trimmed := trim line in
  if startsWith trimmed "- " then (pushCurrent st, Some (openAgent trimmed))
  else
    match snd st with
    | Some a => (fst st, Some (readField trimmed a))
    | None => st
    end.

(** The loop over the lines, then the push of the last agent. *)
Definition parseLines (lines : list string) : list Value :=
  pushCurrent (fold_left parseLine lines ([], None)).

Definition parseAgents (text : string) : list Value := parseLines (split_newline text).

(** [ipcMain.handle('agents:list')], from the result of
    [openclaw agents list].  Nothing in the [try] block can throw. *)
Definition agents_list (child : ChildResult) : Value :=
  let res := execOpenClaw child in
  if present (error res) then
    VObj [("success", VBool false); ("error", prop (error res))]
  else
    VObj [("success", VBool true); ("agents", VArr (parseAgents (or_text (stdout res) "")))].

Section Handlers.

(** [JSON.parse]: the parsed value, or a [SyntaxError] with its message. *)
Variable JSON_parse : string -> Outcome Value.

(** [ipcMain.handle('sessions:list')], from the result of
    [openclaw sessions --json]. *)
Definition sessions_list (child : ChildResult) : Value :=
  let res := execOpenClaw child in
  if present (error res) then
    VObj [("success", VBool false); ("error", prop (error res))]
  else
    match JSON_parse (or_text (stdout res) "{}") with
    | Returns sessions => VObj [("success", VBool true); ("sessions", sessions)]
    | Throws message =>
        VObj [("success", VBool false); ("error", VStr message); ("raw", prop (stdout res))]
    end.

(** [ipcMain.handle('agent:run')], from its argument and the result of
    [openclaw agent --message ... --json]. *)
Definition agent_run (args : Value) (child : ChildResult) : Value :=
  let message := member "message" (or_else args (VObj [])) in
  if negb (truthy message) then
    VObj [("success", VBool false); ("error", VStr "Message is required")]
  else
    let res := execOpenClaw child in
    if present (error res) then
      VObj [("success", VBool false); ("error", prop (error res))]
    else
      match JSON_parse (or_text (stdout res) "{}") with
      | Returns result => VObj [("success", VBool true); ("result", result)]
      | Throws _ => VObj [("success", VBool true); ("result", prop (stdout res))]
      end.

End Handlers.

End Main.

(** ** The session hierarchy ([SessionContext.tsx]) *)

Module SessionContext.

(** An entry of [SessionMapping]; a missing [parentId] or [label] is
    [None]. *)
Record Entry : Type := {
  parentId : option string;
  childIds : list string;
  label : option string
}.

(** [if (label)] *)
Definition given (l : option string) : bool :=
  match l with
  | Some s => negb (String.eqb s "")
  | None => false
  end.

(** The mapping is an object literal.  An id that names a property every
    object inherits from [Object.prototype] is not a key like the others:
    read before an entry was stored under it, [mapping[id]] is a built-in
    function, or the prototype itself.  The other ids are the ordinary
    ones. *)
Definition ordinary (id : string) : bool :=
  negb (existsb (String.eqb id)
          ["constructor"; "__proto__"; "hasOwnProperty"; "isPrototypeOf";
           "propertyIsEnumerable"; "toLocaleString"; "toString"; "valueOf";
           "__defineGetter__"; "__defineSetter__"; "__lookupGetter__";
           "__lookupSetter__"]%string).

(** The state update of [addSpawn] for ordinary ids: the new mapping from
    the previous one.  The entries of [prev] are objects shared with the
    copy; the mapping below is what both read as after the call. *)
Definition addSpawn (parent child : string) (lbl : option string)
    (prev : gmap string Entry) : gmap string Entry :=
  let updated := prev in
  let updated :=
    match updated !! parent with
    | None => <[parent := {| parentId := None; childIds := []; label := None |}]> updated
    | Some _ => updated
    end in
  let updated :=
    match updated !! child with
    | None =>
        <[child := {| parentId := Some parent; childIds := []; label := lbl |}]> updated
    | Some e =>
        <[child := {| parentId := Some parent; childIds := childIds e;
                      label := if given lbl then lbl else label e |}]> updated
    end in
  match updated !! parent with
  | Some e =>
      if bool_decide (child ∈ childIds e) then updated
      else <[parent := {| parentId := parentId e; childIds := (childIds e ++ [child])%list;
                          label := label e |}]> updated
  | None => updated
  end.

(** [mapping[sessionId]?.childIds || []] *)
Definition getChildren (mapping : gmap string Entry) (sessionId : string) : list string :=
  match mapping !! sessionId with
  | Some e => childIds e
  | None => []
  end.

(** [mapping[sessionId]?.parentId] *)
Definition getParent (mapping : gmap string Entry) (sessionId : string) : option string :=
  match mapping !! sessionId with
  | Some e => parentId e
  | None => None
  end.

(** [setMapping({})] *)
Definition clearMapping : gmap string Entry := ∅.

(** How often [x] occurs in a child list. *)
Definition occurrences (x : string) (l : list string) : nat :=
  length (filter (λ y, y = x) l).

End SessionContext.

(** ** The gateway client ([GatewayClient.ts]): request methods *)

Module Client.

Import Js.
Local Open Scope string_scope.

(** The message of [new Error(v)]; the handlers put strings into [error],
    other values do not occur there. *)
Definition messageOf (v : Value) : string :=
  match v with
  | VStr s => s
  | VBool true => "true"
  | _ => ""
  end.

(** [gatewayStatus], from the reply of [window.ipc.invoke('gateway:status')]:
<<
  if (res.error) return { running: false, error: res.error };
  return { running: res.running || false, output: res.output };
>> *)
Definition gatewayStatus (res : Value) : Value :=
  if truthy (member "error" res) then
    VObj [("running", VBool false); ("error", member "error" res)]
  else
    VObj [("running", or_else (member "running" res) (VBool false));
          ("output", member "output" res)].


(** [listAgents], from the reply of [agents:list]. *)
Definition listAgents (res : Value) : Outcome Value :=
  if negb (truthy (member "success" res)) then
    Throws (messageOf (or_else (member "error" res) (VStr "Failed to list agents")))
  else Returns (or_else (member "agents" res) (VArr [])).

(** The function mapped over the sessions:
<<
  (s: any) => ({ ...s, sessionKey: s.key || s.sessionKey, key: s.key || s.sessionKey })
>>
    Reading [s.key] of [null] is a [TypeError]. *)
Definition normalizeSession (s : Value) : Outcome Value :=
  match s with
  | VNull | VUndefined => Throws "Cannot read properties of null (reading 'key')"
  | _ =>
      let k := or_else (member "key" s) (member "sessionKey" s) in
      Returns (VObj (setField "key" k (setField "sessionKey" k (spread s))))
  end.

(** [Array.prototype.map] with a callback that may throw. *)
Fixpoint mapOutcome (f : Value -> Outcome Value) (l : list Value) : Outcome (list Value) :=
  match l with
  | [] => Returns []
  | x :: rest =>
      match f x with
      | Throws m => Throws m
      | Returns y =>
          match mapOutcome f rest with
          | Throws m => Throws m
          | Returns ys => Returns (y :: ys)
          end
      end
  end.

(** [res.sessions?.sessions] *)
Definition innerSessions (res : Value) : Value :=
  match member "sessions" res with
  | VNull | VUndefined => VUndefined
  | s => member "sessions" s
  end.

(** [listSessions], from the reply of [sessions:list].  Only an array has
    [map]. *)
Definition listSessions (res : Value) : Outcome (list Value) :=
  if negb (truthy (member "success" res)) then
    Throws (messageOf (or_else (member "error" res) (VStr "Failed to list sessions")))
  else
    match or_else (or_else (innerSessions res) (member "sessions" res)) (VArr []) with
    | VArr items => mapOutcome normalizeSession items
    | _ => Throws "(intermediate value).map is not a function"
    end.

End Client.

(** ** The gateway client: connection state machine

    The client runs on one event loop.  A method runs without interruption
    up to an [await]; what follows the [await] runs as a later step, once the
    awaited call has settled.  The runtime below holds the client object, the
    timers the event loop keeps for it, the calls suspended at an [await],
    and the events emitted so far. *)

Module Connection.

Import Js.
Local Open Scope string_scope.

Inductive ConnectionState : Type :=
  | connecting | connected | reconnecting | disconnecting | disconnected | error.

(** What [emit] is called with: the event name and its argument. *)
Inductive Emitted : Type :=
  | EvConnecting
  | EvConnected
  | EvDisconnecting
  | EvDisconnected
  | EvReconnecting (attempt : nat) (delay : Z) (maxAttempts : nat)
  | EvError (message : string).

(** Timer handles: the positive integers [setTimeout] and [setInterval]
    return, never reused. *)
Definition TimerId : Type := positive.

(** The private fields of the class. *)
Record GatewayClient : Type := {
  state : ConnectionState;
  lastError : option string;
  lastDisconnectTime : option nat;
  reconnectAttempts : nat;
  reconnectTimer : option TimerId;
  heartbeatTimer : option TimerId;
  isManualDisconnect : bool
}.

(** [private maxReconnectAttempts: number = 5], never assigned again. *)
Definition maxReconnectAttempts : nat := 5.

Record Runtime : Type := {
  client : GatewayClient;
  (** pending [setTimeout] callbacks with their delay; each calls
      [connect()] *)
  timeouts : list (TimerId * Z);
  (** live [setInterval] callbacks, the heartbeat every 10000 ms *)
  intervals : list TimerId;
  nextTimer : TimerId;
  (** calls of [connect()] suspended at [await this.gatewayStatus()] *)
  connectsInFlight : nat;
  (** heartbeat callbacks suspended at [await this.gatewayStatus()] *)
  probesInFlight : nat;
  (** the events emitted, oldest first *)
  emitted : list Emitted
}.

(** What the environment answers during a step: whether [window.ipc] is
    defined, the draw of [Math.random()], and the clock of [new Date()]. *)
Record Oracle : Type := { ipc : bool; random : Q; now : nat }.

(** *** Field updates *)

Definition update (f : GatewayClient -> GatewayClient) (rt : Runtime) : Runtime :=
  {| client := f (client rt); timeouts := timeouts rt; intervals := intervals rt;
     nextTimer := nextTimer rt; connectsInFlight := connectsInFlight rt;
     probesInFlight := probesInFlight rt; emitted := emitted rt |}.

Definition set_state (s : ConnectionState) (c : GatewayClient) : GatewayClient :=
  {| state := s; lastError := lastError c; lastDisconnectTime := lastDisconnectTime c;
     reconnectAttempts := reconnectAttempts c; reconnectTimer := reconnectTimer c;
     heartbeatTimer := heartbeatTimer c; isManualDisconnect := isManualDisconnect c |}.

Definition set_lastError (e : option string) (c : GatewayClient) : GatewayClient :=
  {| state := state c; lastError := e; lastDisconnectTime := lastDisconnectTime c;
     reconnectAttempts := reconnectAttempts c; reconnectTimer := reconnectTimer c;
     heartbeatTimer := heartbeatTimer c; isManualDisconnect := isManualDisconnect c |}.

Definition set_lastDisconnectTime (t : option nat) (c : GatewayClient) : GatewayClient :=
  {| state := state c; lastError := lastError c; lastDisconnectTime := t;
     reconnectAttempts := reconnectAttempts c; reconnectTimer := reconnectTimer c;
     heartbeatTimer := heartbeatTimer c; isManualDisconnect := isManualDisconnect c |}.

Definition set_reconnectAttempts (n : nat) (c : GatewayClient) : GatewayClient :=
  {| state := state c; lastError := lastError c; lastDisconnectTime := lastDisconnectTime c;
     reconnectAttempts := n; reconnectTimer := reconnectTimer c;
     heartbeatTimer := heartbeatTimer c; isManualDisconnect := isManualDisconnect c |}.

Definition set_reconnectTimer (t : option TimerId) (c : GatewayClient) : GatewayClient :=
  {| state := state c; lastError := lastError c; lastDisconnectTime := lastDisconnectTime c;
     reconnectAttempts := reconnectAttempts c; reconnectTimer := t;
     heartbeatTimer := heartbeatTimer c; isManualDisconnect := isManualDisconnect c |}.

Definition set_heartbeatTimer (t : option TimerId) (c : GatewayClient) : GatewayClient :=
  {| state := state c; lastError := lastError c; lastDisconnectTime := lastDisconnectTime c;
     reconnectAttempts := reconnectAttempts c; reconnectTimer := reconnectTimer c;
     heartbeatTimer := t; isManualDisconnect := isManualDisconnect c |}.

Definition set_isManualDisconnect (b : bool) (c : GatewayClient) : GatewayClient :=
  {| state := state c; lastError := lastError c; lastDisconnectTime := lastDisconnectTime c;
     reconnectAttempts := reconnectAttempts c; reconnectTimer := reconnectTimer c;
     heartbeatTimer := heartbeatTimer c; isManualDisconnect := b |}.

(** *** The event loop's side *)

(** [this.emit(event, ...args)]: the listeners only read the client (they
    refresh the diagnostics display), so an emission is recorded and nothing
    else changes. *)
Definition emit (e : Emitted) (rt : Runtime) : Runtime :=
  {| client := client rt; timeouts := timeouts rt; intervals := intervals rt;
     nextTimer := nextTimer rt; connectsInFlight := connectsInFlight rt;
     probesInFlight := probesInFlight rt; emitted := (emitted rt ++ [e])%list |}.

Definition setTimeout (delay : Z) (rt : Runtime) : TimerId * Runtime :=
  (nextTimer rt,
   {| client := client rt; timeouts := (timeouts rt ++ [(nextTimer rt, delay)])%list;
      intervals := intervals rt; nextTimer := Pos.succ (nextTimer rt);
      connectsInFlight := connectsInFlight rt; probesInFlight := probesInFlight rt;
      emitted := emitted rt |}).

Definition withoutTimeout (id : TimerId) (l : list (TimerId * Z)) : list (TimerId * Z) :=
  List.filter (fun p => negb (Pos.eqb (fst p) id)) l.

Definition withoutInterval (id : TimerId) (l : list TimerId) : list TimerId :=
  List.filter (fun t => negb (Pos.eqb t id)) l.

Definition clearTimeout (id : TimerId) (rt : Runtime) : Runtime :=
  {| client := client rt; timeouts := withoutTimeout id (timeouts rt);
     intervals := intervals rt; nextTimer := nextTimer rt;
     connectsInFlight := connectsInFlight rt; probesInFlight := probesInFlight rt;
     emitted := emitted rt |}.

Definition setInterval (rt : Runtime) : TimerId * Runtime :=
  (nextTimer rt,
   {| client := client rt; timeouts := timeouts rt;
      intervals := (intervals rt ++ [nextTimer rt])%list; nextTimer := Pos.succ (nextTimer rt);
      connectsInFlight := connectsInFlight rt; probesInFlight := probesInFlight rt;
      emitted := emitted rt |}).

Definition clearInterval (id : TimerId) (rt : Runtime) : Runtime :=
  {| client := client rt; timeouts := timeouts rt;
     intervals := withoutInterval id (intervals rt); nextTimer := nextTimer rt;
     connectsInFlight := connectsInFlight rt; probesInFlight := probesInFlight rt;
     emitted := emitted rt |}.

Definition set_connectsInFlight (n : nat) (rt : Runtime) : Runtime :=
  {| client := client rt; timeouts := timeouts rt; intervals := intervals rt;
     nextTimer := nextTimer rt; connectsInFlight := n;
     probesInFlight := probesInFlight rt; emitted := emitted rt |}.

Definition set_probesInFlight (n : nat) (rt : Runtime) : Runtime :=
  {| client := client rt; timeouts := timeouts rt; intervals := intervals rt;
     nextTimer := nextTimer rt; connectsInFlight := connectsInFlight rt;
     probesInFlight := n; emitted := emitted rt |}.

Definition hasTimeout (id : TimerId) (rt : Runtime) : bool :=
  existsb (fun p => Pos.eqb (fst p) id) (timeouts rt).

Definition hasInterval (id : TimerId) (rt : Runtime) : bool :=
  existsb (fun t => Pos.eqb t id) (intervals rt).

(** *** The methods of the class *)

Section Methods.

(** [this.getBackoffDelay(attempt)], with the draw of [Math.random()] as its
    second argument: [Backoff.getBackoffDelay fl] for the rounding [fl] of
    the platform. *)
Variable getBackoffDelay : nat -> Q -> Z.

(** [stopHeartbeat] *)
Definition stopHeartbeat (rt : Runtime) : Runtime :=
  match heartbeatTimer (client rt) with
  | Some id => update (set_heartbeatTimer None) (clearInterval id rt)
  | None => rt
  end.

(** [startHeartbeat]: the callback of the interval is [heartbeat_await]
    below, after its [await]. *)
Definition startHeartbeat (rt : Runtime) : Runtime :=
  let rt := stopHeartbeat rt in
  let '(id, rt) := setInterval rt in
  update (set_heartbeatTimer (Some id)) rt.

(** [attemptReconnect]; the callback of the timeout is [connect]. *)
Definition attemptReconnect (o : Oracle) (rt : Runtime) : Runtime :=
  if isManualDisconnect (client rt) then rt
  else if Nat.leb maxReconnectAttempts (reconnectAttempts (client rt)) then
    emit (EvError "Max reconnect attempts (5) reached") (update (set_state disconnected) rt)
  else
    let delay := getBackoffDelay (reconnectAttempts (client rt)) (random o) in
    let rt := update (set_reconnectAttempts (S (reconnectAttempts (client rt)))) rt in
    let rt := update (set_state reconnecting) rt in
    let rt := emit (EvReconnecting (reconnectAttempts (client rt)) delay maxReconnectAttempts) rt in
    let '(id, rt) := setTimeout delay rt in
    update (set_reconnectTimer (Some id)) rt.

(** The [catch] block of [connect], entered with the message of the error
    caught. *)
Definition connect_catch (message : string) (o : Oracle) (rt : Runtime) : Runtime :=
  let rt := update (set_state error) rt in
  let rt := update (set_lastError
                      (Some (if String.eqb message "" then "Connection failed" else message))) rt in
  let rt := update (set_lastDisconnectTime (Some (now o))) rt in
  let rt := emit (EvError message) rt in
  if negb (isManualDisconnect (client rt)) then attemptReconnect o rt else rt.

(** [connect], up to [await this.gatewayStatus()]: either the call is
    suspended there, or [window.ipc] is missing and the [catch] block has
    run. *)
Definition connect (o : Oracle) (rt : Runtime) : Runtime :=
  let rt :=
    match reconnectTimer (client rt) with
    | Some id => update (set_reconnectTimer None) (clearTimeout id rt)
    | None => rt
    end in
  let rt := update (set_isManualDisconnect false) rt in
  let rt := update (set_state connecting) rt in
  let rt := emit EvConnecting rt in
  if ipc o then set_connectsInFlight (S (connectsInFlight rt)) rt
  else connect_catch "Electron IPC not available" o rt.

(** [connect], from the point where [await this.gatewayStatus()] settles:
    with the status object, or with the error it throws. *)
Definition connect_await (status : Outcome Value) (o : Oracle) (rt : Runtime) : Runtime :=
  match status with
  | Returns st =>
      if truthy (member "running" st) then
        let rt := update (set_state connected) rt in
        let rt := update (set_lastError None) rt in
        let rt := update (set_reconnectAttempts 0) rt in
        let rt := emit EvConnected rt in
        startHeartbeat rt
      else connect_catch "Gateway is not running" o rt
  | Throws message => connect_catch message o rt
  end.

(** [disconnect] *)
Definition disconnect (rt : Runtime) : Runtime :=
  match state (client rt) with
  | disconnected => rt
  | _ =>
      let rt := update (set_isManualDisconnect true) rt in
      let rt := stopHeartbeat rt in
      let rt :=
        match reconnectTimer (client rt) with
        | Some id => update (set_reconnectTimer None) (clearTimeout id rt)
        | None => rt
        end in
      let rt := update (set_state disconnecting) rt in
      let rt := emit EvDisconnecting rt in
      let rt := update (set_state disconnected) rt in
      emit EvDisconnected rt
  end.

(** [reconnect], up to the [await] inside [connect]. *)
Definition reconnect (o : Oracle) (rt : Runtime) : Runtime :=
  let rt := update (set_reconnectAttempts 0) rt in
  let rt := update (set_lastError None) rt in
  let rt := update (set_isManualDisconnect false) rt in
  connect o rt.

(** The heartbeat callback, from the point where
    [await this.gatewayStatus()] settles. *)
Definition heartbeat_await (status : Outcome Value) (o : Oracle) (rt : Runtime) : Runtime :=
  let failed (message : string) :=
    let rt := update (set_lastError (Some message)) rt in
    let rt := update (set_lastDisconnectTime (Some (now o))) rt in
    let rt := update (set_state disconnected) rt in
    let rt := stopHeartbeat rt in
    attemptReconnect o rt in
  match status with
  | Returns st => if truthy (member "running" st) then rt else failed "Gateway stopped"
  | Throws message => failed message
  end.

(** Does a caller of [gatewayStatus] ([connect], the heartbeat) end in its
    [catch] block on this status? *)
Definition probeFails (status : Outcome Value) : bool :=
  match status with
  | Returns st => negb (truthy (member "running" st))
  | Throws _ => true
  end.

(** *** The event loop *)

(** What can happen next: a call of a public method, or the event loop
    running a timer callback or resuming a suspended call. *)
Inductive Action : Type :=
  | CallConnect
  | CallDisconnect
  | CallReconnect
  | TimeoutFires (id : TimerId)
  | ConnectSettles (status : Outcome Value)
  | IntervalFires (id : TimerId)
  | HeartbeatSettles (status : Outcome Value).

(** The calls made from outside the client. *)
Definition explicit (a : Action) : bool :=
  match a with
  | CallConnect | CallDisconnect | CallReconnect => true
  | _ => false
  end.

(** One step; [None] when the runtime does not offer the action (the timer
    is not pending, no call is suspended). *)
Definition step (a : Action) (o : Oracle) (rt : Runtime) : option Runtime :=
  match a with
  | CallConnect => Some (connect o rt)
  | CallDisconnect => Some (disconnect rt)
  | CallReconnect => Some (reconnect o rt)
  | TimeoutFires id =>
      if hasTimeout id rt then Some (connect o (clearTimeout id rt)) else None
  | ConnectSettles status =>
      match connectsInFlight rt with
      | S n => Some (connect_await status o (set_connectsInFlight n rt))
      | O => None
      end
  | IntervalFires id =>
      if hasInterval id rt then Some (set_probesInFlight (S (probesInFlight rt)) rt) else None
  | HeartbeatSettles status =>
      match probesInFlight rt with
      | S n => Some (heartbeat_await status o (set_probesInFlight n rt))
      | O => None
      end
  end.

Fixpoint run (trace : list (Action * Oracle)) (rt : Runtime) : option Runtime :=
  match trace with
  | [] => Some rt
  | (a, o) :: rest =>
      match step a o rt with
      | Some rt' => run rest rt'
      | None => None
      end
  end.

(** One automatic reconnect attempt: the timer the client holds fires and
    [connect] runs; unless [window.ipc] is missing, the status probe then
    settles. *)
Record Attempt : Type := { status : Outcome Value; atFire : Oracle; atSettle : Oracle }.

Definition attempt (a : Attempt) (rt : Runtime) : option Runtime :=
  match reconnectTimer (client rt) with
  | Some id =>
      match step (TimeoutFires id) (atFire a) rt with
      | Some rt1 =>
          if ipc (atFire a) then step (ConnectSettles (status a)) (atSettle a) rt1
          else Some rt1
      | None => None
      end
  | None => None
  end.

Fixpoint attempts (l : list Attempt) (rt : Runtime) : option Runtime :=
  match l with
  | [] => Some rt
  | a :: rest =>
      match attempt a rt with
      | Some rt' => attempts rest rt'
      | None => None
      end
  end.

End Methods.

(** The client as constructed, on an idle event loop. *)
Definition initial : Runtime :=
  {| client := {| state := disconnected; lastError := None; lastDisconnectTime := None;
                  reconnectAttempts := 0; reconnectTimer := None; heartbeatTimer := None;
                  isManualDisconnect := false |};
     timeouts := []; intervals := []; nextTimer := 1%positive;
     connectsInFlight := 0; probesInFlight := 0; emitted := [] |}.

(** The runtimes some sequence of actions leads to. *)
Definition reachable (getBackoffDelay : nat -> Q -> Z) (rt : Runtime) : Prop :=
  exists trace, run getBackoffDelay trace initial = Some rt.

(** A trace without calls from outside. *)
Definition automatic (trace : list (Action * Oracle)) : Prop :=
  Forall (fun p => explicit (fst p) = false) trace.

(** *** Properties of runtimes *)

(** At most one interval is live, and the client holds its handle. *)
Definition heartbeat_ok (rt : Runtime) : Prop :=
  match intervals rt with
  | [] => True
  | [id] => heartbeatTimer (client rt) = Some id
  | _ :: _ :: _ => False
  end.

(** The events that announce a connection attempt. *)
Definition announcesAttempt (e : Emitted) : bool :=
  match e with
  | EvConnecting | EvReconnecting _ _ _ => true
  | _ => false
  end.

(** Nothing is scheduled and nothing can schedule: no timeout is pending,
    and either the manual-disconnect flag is set, or the attempts are used
    up and no [connect] is suspended. *)
Definition idle (rt : Runtime) : Prop :=
  timeouts rt = [] /\
  (isManualDisconnect (client rt) = true \/
   ((maxReconnectAttempts <= reconnectAttempts (client rt))%nat /\ connectsInFlight rt = 0%nat)).

(** From [rt] to [rt'] no connection attempt was announced. *)
Definition quietly (rt rt' : Runtime) : Prop :=
  exists more, emitted rt' = (emitted rt ++ more)%list /\
               forallb (fun e => negb (announcesAttempt e)) more = true.

(** The client waits for its [k]-th reconnect attempt: one timeout is
    pending, the one it holds, and no [connect] is suspended. *)
Definition armed (k : nat) (rt : Runtime) : Prop :=
  reconnectAttempts (client rt) = k /\ connectsInFlight rt = 0%nat /\
  exists id delay, reconnectTimer (client rt) = Some id /\ timeouts rt = [(id, delay)].

(** The client has given up. *)
Definition exhausted (rt : Runtime) : Prop :=
  state (client rt) = disconnected /\
  reconnectAttempts (client rt) = maxReconnectAttempts /\
  reconnectTimer (client rt) = None /\ timeouts rt = [] /\ connectsInFlight rt = 0%nat /\
  exists before, emitted rt = (before ++ [EvError "Max reconnect attempts (5) reached"])%list.

End Connection.

(** ** Sample inputs *)

Module Samples.

Import Js.
Local Open Scope string_scope.

Definition newline : string := String "010" EmptyString.

(** The listing
<<
- main
  Workspace: /w
  Model: gpt-x
- head (default)
  Workspace: /w2
  Model: gpt-y
>>
    with a newline after every line. *)
Definition listing : string :=
  "- main" ++ newline ++ "  Workspace: /w" ++ newline ++ "  Model: gpt-x" ++ newline ++
  "- head (default)" ++ newline ++ "  Workspace: /w2" ++ newline ++ "  Model: gpt-y" ++ newline.

(** The document [{"sessions":[{"key":"agent:main:1"}]}]. *)
Definition sessionsDocument : string :=
  "{" ++ Json.quoted "sessions" ++ ":[{" ++ Json.quoted "key" ++ ":" ++
  Json.quoted "agent:main:1" ++ "}]}".

(** The value that document denotes. *)
Definition sessionsTree : Value :=
  VObj [("sessions", VArr [VObj [("key", VStr "agent:main:1")]])].

(** Both alias fields of [r] are own properties and hold the same value
    [k]. *)
Definition aliased (k : Value) (r : Value) : Prop :=
  match r with
  | VObj fields => lookupField "key" fields = Some k /\ lookupField "sessionKey" fields = Some k
  | _ => False
  end.

(** The status [gatewayStatus] resolves to when the CLI exits normally, and
    when it fails. *)
Definition up : Outcome Value :=
  Returns (Client.gatewayStatus (Main.gateway_status (Main.ChildExit "Gateway: running"))).

Definition down : Outcome Value :=
  Returns (Client.gatewayStatus
             (Main.gateway_status (Main.ChildError "Command failed: openclaw gateway status"))).

Definition answering (r : Q) : Connection.Oracle :=
  {| Connection.ipc := true; Connection.random := r; Connection.now := 0 |}.

(** The client connects; two heartbeat ticks start their probes before the
    first of them settles; both probes fail. *)
Definition overlappingHeartbeats : list (Connection.Action * Connection.Oracle) :=
  [(Connection.CallConnect, answering 0);
   (Connection.ConnectSettles up, answering 0);
   (Connection.IntervalFires 1%positive, answering 0);
   (Connection.IntervalFires 1%positive, answering 0);
   (Connection.HeartbeatSettles down, answering (1 # 2));
   (Connection.HeartbeatSettles down, answering (3 # 4))].

(** The client connects and two heartbeat ticks start their probes.  The
    first probe fails, and the four reconnect attempts that follow fail;
    then the second probe, still out, fails too. *)
Definition lateProbeAtGiveUp : list (Connection.Action * Connection.Oracle) :=
  [(Connection.CallConnect, answering 0);
   (Connection.ConnectSettles up, answering 0);
   (Connection.IntervalFires 1%positive, answering 0);
   (Connection.IntervalFires 1%positive, answering 0);
   (Connection.HeartbeatSettles down, answering (1 # 2));
   (Connection.TimeoutFires 2%positive, answering 0);
   (Connection.ConnectSettles down, answering (1 # 2));
   (Connection.TimeoutFires 3%positive, answering 0);
   (Connection.ConnectSettles down, answering (1 # 2));
   (Connection.TimeoutFires 4%positive, answering 0);
   (Connection.ConnectSettles down, answering (1 # 2));
   (Connection.TimeoutFires 5%positive, answering 0);
   (Connection.ConnectSettles down, answering (1 # 2));
   (Connection.HeartbeatSettles down, answering (1 # 2))].

(** The gateway is down and [reconnect] is called twice before the first
    status probe settles (the Reconnect button stays on screen until the
    display is refreshed); both probes fail. *)
Definition doubleReconnect : list (Connection.Action * Connection.Oracle) :=
  [(Connection.CallReconnect, answering 0);
   (Connection.CallReconnect, answering 0);
   (Connection.ConnectSettles down, answering (1 # 2));
   (Connection.ConnectSettles down, answering (3 # 4))].

(** [disconnect] is called while [connect] waits for the status, which then
    arrives and says the gateway runs; the heartbeat ticks once. *)
Definition disconnectDuringConnect : list (Connection.Action * Connection.Oracle) :=
  [(Connection.CallConnect, answering 0);
   (Connection.CallDisconnect, answering 0);
   (Connection.ConnectSettles up, answering 0);
   (Connection.IntervalFires 1%positive, answering 0)].

(** A connected client whose heartbeat has just started a probe. *)
Definition connectedProbing : Connection.Runtime :=
  {| Connection.client :=
       {| Connection.state := Connection.connected; Connection.lastError := None;
          Connection.lastDisconnectTime := None; Connection.reconnectAttempts := 0;
          Connection.reconnectTimer := None; Connection.heartbeatTimer := Some 1%positive;
          Connection.isManualDisconnect := false |};
     Connection.timeouts := []; Connection.intervals := [1%positive];
     Connection.nextTimer := 2%positive; Connection.connectsInFlight := 0;
     Connection.probesInFlight := 1;
     Connection.emitted := [Connection.EvConnecting; Connection.EvConnected] |}.

(** A reconnect attempt on which the gateway is still down. *)
Definition failing (r : Q) : Connection.Attempt :=
  {| Connection.status := down; Connection.atFire := answering 0;
     Connection.atSettle := answering r |}.

(** The back-off of the source under exact arithmetic. *)
Definition exactBackoff : nat -> Q -> Z := Backoff.getBackoffDelay Backoff.exact.

Definition fiveFailures : list Connection.Attempt :=
  [failing (1 # 10); failing (1 # 2); failing (9 # 10); failing 0; failing (3 # 4)].

End Samples.

(** ** The event emitter of the client ([on], [off], [once], [emit]) *)

Module Emitter.

Local Open Scope string_scope.

(** The functions registered as listeners.  A plain handler is a function of
    the application: it is told apart by [id], it does not touch the
    emitter, and it may throw.  A wrapper is the [wrappedHandler] that the
    [n]-th call of [once] creates:
<<
  const wrappedHandler = (...args) => { handler(...args); this.off(event, wrappedHandler); };
>> *)
Inductive Handler : Type :=
  | Plain (id : nat) (throws : bool)
  | Wrapper (event : string) (n : nat) (handler : Handler).

Fixpoint handler_eqb (a b : Handler) : bool :=
  match a, b with
  | Plain i t, Plain j u => Nat.eqb i j && Bool.eqb t u
  | Wrapper e n h, Wrapper f m k => String.eqb e f && Nat.eqb n m && handler_eqb h k
  | _, _ => false
  end.

Record State : Type := {
  (** [eventListeners: Map<string, EventHandler[]>] *)
  eventListeners : gmap string (list Handler);
  (** how many wrappers [once] has created *)
  wrappers : nat;
  (** the plain handlers called so far, oldest first *)
  calls : list nat
}.

(** [this.eventListeners.get(event) || []] *)
Definition listeners (event : string) (st : State) : list Handler :=
  match eventListeners st !! event with
  | Some l => l
  | None => []
  end.

Definition set_listeners (event : string) (l : list Handler) (st : State) : State :=
  {| eventListeners := <[event := l]> (eventListeners st);
     wrappers := wrappers st; calls := calls st |}.

(** [on]: the array of the event is created when missing, then the handler
    is pushed. *)
Definition on (event : string) (handler : Handler) (st : State) : State :=
  set_listeners event (listeners event st ++ [handler]) st.

(** [listeners.indexOf(handler)] *)
Fixpoint indexOf (handler : Handler) (l : list Handler) : option nat :=
  match l with
  | [] => None
  | h :: rest =>
      if handler_eqb h handler then Some O
      else match indexOf handler rest with
           | Some i => Some (S i)
           | None => None
           end
  end.

(** [listeners.splice(index, 1)] *)
Fixpoint splice1 (index : nat) (l : list Handler) : list Handler :=
  match index, l with
  | _, [] => []
  | O, _ :: rest => rest
  | S i, h :: rest => h :: splice1 i rest
  end.

(** [off] *)
Definition off (event : string) (handler : Handler) (st : State) : State :=
  match eventListeners st !! event with
  | Some l =>
      match indexOf handler l with
      | Some index => set_listeners event (splice1 index l) st
      | None => st
      end
  | None => st
  end.

(** [once] *)
Definition once (event : string) (handler : Handler) (st : State) : State :=
  let wrappedHandler := Wrapper event (wrappers st) handler in
  on event wrappedHandler
    {| eventListeners := eventListeners st; wrappers := S (wrappers st); calls := calls st |}.

(** A call of a listener: the state after it, and whether it threw. *)
Fixpoint call (h : Handler) (st : State) : State * bool :=
  match h with
  | Plain id throws =>
      ({| eventListeners := eventListeners st; wrappers := wrappers st;
          calls := calls st ++ [id] |}, throws)
  | Wrapper event n handler =>
      let '(st1, threw) := call handler st in
      if threw then (st1, true) else (off event (Wrapper event n handler) st1, false)
  end.

(** [listeners.forEach(fn => { try { fn(...args) } catch ... })]: the
    indices below the length the array had at the start are visited in
    order, on the array as it is at each visit; an index the array no longer
    has is passed over. *)
Fixpoint forEachFrom (event : string) (k count : nat) (st : State) : State :=
  match count with
  | O => st
  | S c =>
      match listeners event st !! k with
      | Some h => forEachFrom event (S k) c (fst (call h st))
      | None => forEachFrom event (S k) c st
      end
  end.

(** [emit] *)
Definition emit (event : string) (st : State) : State :=
  forEachFrom event 0 (length (listeners event st)) st.

(** [removeAllListeners(event?)] *)
Definition removeAllListeners (event : option string) (st : State) : State :=
  match event with
  | Some e =>
      if negb (String.eqb e "") then
        {| eventListeners := delete e (eventListeners st);
           wrappers := wrappers st; calls := calls st |}
      else {| eventListeners := ∅; wrappers := wrappers st; calls := calls st |}
  | None => {| eventListeners := ∅; wrappers := wrappers st; calls := calls st |}
  end.

(** The client as constructed: no listener. *)
Definition empty : State := {| eventListeners := ∅; wrappers := 0; calls := [] |}.

Definition isPlain (h : Handler) : bool :=
  match h with
  | Plain _ _ => true
  | Wrapper _ _ _ => false
  end.

(** The ids of plain handlers. *)
Definition ids (l : list Handler) : list nat :=
  flat_map (fun h => match h with Plain i _ => [i] | Wrapper _ _ _ => [] end) l.

End Emitter.

(** ** Further handlers of the main process: logs and detached spawn *)

Module Handlers.

Import Js.
Local Open Scope string_scope.

(** What the callback of [fs.readFile] receives. *)
Inductive ReadResult : Type :=
  | ReadError (message : string)
  | ReadData (data : string).

(** [array.slice(start)] for an integer [start]: a negative start counts
    from the end, and both ends are clamped. *)
Definition slice_from {A : Type} (start : Z) (l : list A) : list A :=
  let len := Z.of_nat (length l) in
  let k := (if start <? 0 then Z.max (len + start) 0 else Z.min start len)%Z in
  drop (Z.to_nat k) l.

(** [array.join('\n')] on strings. *)
Fixpoint join_newline (l : list string) : string :=
  match l with
  | [] => ""
  | x :: rest =>
      match rest with
      | [] => x
      | _ :: _ => x ++ String "010" (join_newline rest)
      end
  end.

(** A piece between two newlines. *)
Fixpoint noNewline (s : string) : bool :=
  match s with
  | EmptyString => true
  | String c t => negb (Ascii.eqb c "010") && noNewline t
  end.

(** [ipcMain.handle('gateway:logs')], from the number of lines asked for
    (an integer, 50 when the argument is missing) and the result of reading
    the log file:
<<
  const linesArray = data.split('\n');
  const lastLines = linesArray.slice(-lines).join('\n');
>> *)
Definition gateway_logs (lines : option Z) (file : ReadResult) : Value :=
  let lines := match lines with Some n => n | None => 50%Z end in
  match file with
  | ReadError message => VObj [("error", VStr message)]
  | ReadData data =>
      VObj [("logs", VStr (join_newline (slice_from (- lines)%Z (split_newline data))))]
  end.

(** What [child_process.spawn] does: it returns a child, whose [pid] is
    missing when the process could not be started, or it throws. *)
Inductive SpawnResult : Type :=
  | Spawned (pid : option positive)
  | SpawnThrows (message : string).

(** [ipcMain.handle('agent:spawn')]: of its argument only [agentId],
    [message] and [thinking] are read. *)
Definition agent_spawn (args : Value) (child : SpawnResult) : Value :=
  let message := member "message" (or_else args (VObj [])) in
  if negb (truthy message) then
    VObj [("success", VBool false); ("error", VStr "Message is required")]
  else
    match child with
    | Spawned pid =>
        VObj [("success", VBool true);
              ("pid", match pid with Some p => VNum (Z.pos p) 0 | None => VUndefined end)]
    | SpawnThrows message => VObj [("success", VBool false); ("error", VStr message)]
    end.

End Handlers.

(** ** The gateway client: messaging and spawning *)

Module Requests.

Import Js.
Local Open Scope string_scope.

(** The argument [sendMessage] passes to [agent:run]. *)
Definition sendRequest (sessionId text : string) (thinking : Value) : Value :=
  VObj [("sessionId", VStr sessionId); ("message", VStr text); ("thinking", thinking)].

(** [sendMessage], from the reply of [agent:run] and the clock:
<<
  if (!res.success) throw new Error(res.error || 'Failed to send message');
  return { messageId: res.result?.id || Date.now().toString(), result: res.result };
>> *)
Definition sendMessage (res : Value) (now : nat) : Outcome Value :=
  if negb (truthy (member "success" res)) then
    Throws (Client.messageOf (or_else (member "error" res) (VStr "Failed to send message")))
  else
    Returns (VObj [("messageId",
                    or_else (member "id" (member "result" res)) (VStr (indexKey now)));
                   ("result", member "result" res)]).

(** The argument [spawnSession] passes to [agent:spawn]. *)
Definition spawnRequest (agentId task : string) (label thinking : Value) : Value :=
  VObj [("agentId", VStr agentId); ("message", VStr task); ("label", label);
        ("thinking", thinking)].

Section Spawn.

(** [v.toString()], a built-in. *)
Variable toString : Value -> string.

(** [res.pid?.toString()] *)
Definition pidString (pid : Value) : Value :=
  match pid with
  | VUndefined | VNull => VUndefined
  | _ => VStr (toString pid)
  end.

(** [spawnSession], from the reply of [agent:spawn]:
<<
  if (!res.success) throw new Error(res.error || 'Failed to spawn session');
  return { sessionId: res.sessionId || res.pid?.toString() || 'unknown',
           sessionKey: res.sessionKey };
>> *)
Definition spawnSession (res : Value) : Outcome Value :=
  if negb (truthy (member "success" res)) then
    Throws (Client.messageOf (or_else (member "error" res) (VStr "Failed to spawn session")))
  else
    Returns (VObj [("sessionId",
                    or_else (or_else (member "sessionId" res) (pidString (member "pid" res)))
                            (VStr "unknown"));
                   ("sessionKey", member "sessionKey" res)]).

End Spawn.

End Requests.

(** ** Mission Control ([MissionControl.tsx]): grouping and spawn records *)

Module MissionControl.

Import Js.
Local Open Scope string_scope.

(** The longest prefix without a colon, and what follows it. *)
Fixpoint untilColon (s : string) : string * string :=
  match s with
  | EmptyString => (EmptyString, EmptyString)
  | String c t =>
      if Ascii.eqb c ":" then (EmptyString, s)
      else let '(a, rest) := untilColon t in (String c a, rest)
  end.

Fixpoint noColon (s : string) : bool :=
  match s with
  | EmptyString => true
  | String c t => negb (Ascii.eqb c ":") && noColon t
  end.

(** [key.match(/^agent:([^:]+):/)]: the first group of the match, if any.
    The group is greedy and can only end at a colon. *)
Definition matchAgent (key : string) : option string :=
  if startsWith key "agent:" then
    let '(id, rest) := untilColon (substring 6 key) in
    if negb (String.eqb id "") && startsWith rest ":" then Some id else None
  else None.

(**
<<
  const match = session.key?.match(/^agent:([^:]+):/);
  const agentId = match ? match[1] : 'unknown';
>>
    Only a string has [match]. *)
Definition agentIdOf (session : Value) : Outcome string :=
  match session with
  | VNull | VUndefined => Throws "Cannot read properties of null (reading 'key')"
  | _ =>
      match member "key" session with
      | VUndefined | VNull => Returns "unknown"
      | VStr key =>
          Returns (match matchAgent key with Some id => id | None => "unknown" end)
      | _ => Throws "session.key?.match is not a function"
      end
  end.

(** The property names every object inherits from [Object.prototype]:
    reading one of them from an object literal gives a function (or the
    prototype itself), never [undefined]. *)
Definition inherited (name : string) : bool :=
  existsb (String.eqb name)
    ["constructor"; "__proto__"; "hasOwnProperty"; "isPrototypeOf";
     "propertyIsEnumerable"; "toLocaleString"; "toString"; "valueOf";
     "__defineGetter__"; "__defineSetter__"; "__lookupGetter__"; "__lookupSetter__"].

(** One turn of [sessions.forEach] over [sessionsByAgent], an object
    literal used as a map:
<<
  if (!sessionsByAgent[agentId]) sessionsByAgent[agentId] = [];
  sessionsByAgent[agentId].push(session);
>>
    An inherited property is truthy and has no [push]. *)
Definition groupSession (groups : gmap string (list Value)) (session : Value)
  : Outcome (gmap string (list Value)) :=
  match agentIdOf session with
  | Throws m => Throws m
  | Returns agentId =>
      match groups !! agentId with
      | Some l => Returns (<[agentId := (l ++ [session])%list]> groups)
      | None =>
          if inherited agentId then Throws "sessionsByAgent[agentId].push is not a function"
          else Returns (<[agentId := [session]]> groups)
      end
  end.

Fixpoint groupFrom (groups : gmap string (list Value)) (sessions : list Value)
  : Outcome (gmap string (list Value)) :=
  match sessions with
  | [] => Returns groups
  | s :: rest =>
      match groupSession groups s with
      | Throws m => Throws m
      | Returns groups' => groupFrom groups' rest
      end
  end.

(** [sessionsByAgent] after the loop. *)
Definition sessionsByAgent (sessions : list Value) : Outcome (gmap string (list Value)) :=
  groupFrom ∅ sessions.

(** Is the agent id of the session [a]? *)
Definition ofAgent (a : string) (session : Value) : bool :=
  match agentIdOf session with
  | Returns b => String.eqb a b
  | Throws _ => false
  end.

Definition isStr (text : string) (v : Value) : bool :=
  match v with
  | VStr s => String.eqb s text
  | _ => false
  end.

(** [s.key?.includes('head:main')]: strings and arrays have [includes]. *)
Definition isHeadMain (s : Value) : Outcome bool :=
  match s with
  | VNull | VUndefined => Throws "Cannot read properties of null (reading 'key')"
  | _ =>
      match member "key" s with
      | VUndefined | VNull => Returns false
      | VStr key => Returns (includes key "head:main")
      | VArr items => Returns (existsb (isStr "head:main") items)
      | _ => Throws "s.key?.includes is not a function"
      end
  end.

(** [sessions.find(s => s.key?.includes('head:main'))] *)
Fixpoint findHeadMain (sessions : list Value) : Outcome Value :=
  match sessions with
  | [] => Returns VUndefined
  | s :: rest =>
      match isHeadMain s with
      | Throws m => Throws m
      | Returns true => Returns s
      | Returns false => findHeadMain rest
      end
  end.

(** The call of [addSpawn] that [handleSpawn] makes after [spawnSession]
    has returned [res], if it makes one: the three arguments.
<<
  const parentSession = sessions.find(s => s.key?.includes('head:main'));
  if (parentSession && res.sessionKey) {
    addSpawn(parentSession.sessionKey || parentSession.key, res.sessionKey, spawnLabel);
  }
>> *)
Definition recordedSpawn (sessions : list Value) (res : Value) (spawnLabel : string)
  : Outcome (option (Value * Value * string)) :=
  match findHeadMain sessions with
  | Throws m => Throws m
  | Returns parentSession =>
      if truthy parentSession && truthy (member "sessionKey" res) then
        Returns (Some (or_else (member "sessionKey" parentSession) (member "key" parentSession),
                       member "sessionKey" res, spawnLabel))
      else Returns None
  end.

End MissionControl.

(** ** Agent records *)

Module Records.

Import Js.
Local Open Scope string_scope.

(** A line the loop reacts to: a marker, a workspace line or a model
    line. *)
Definition recognized (line : string) : bool :=
  let trimmed := trim line in
  startsWith trimmed "- " || startsWith trimmed "Workspace:" || startsWith trimmed "Model:".

(** The shape of an agent record. *)
Definition agentRecord (r : Value) : Prop :=
  exists (name : string) (isDefault : bool) (workspace model : string),
    r = VObj [("id", VStr name); ("name", VStr name); ("isDefault", VBool isDefault);
              ("workspace", VStr workspace); ("model", VStr model)].

End Records.

(** ** Histories of the session hierarchy *)

Module Hierarchy.

Import SessionContext.

(** A call of [addSpawn]: parent, child, label. *)
Definition Call : Type := (string * string * option string)%type.

(** The mapping after the calls, oldest first, on the mapping [start]. *)
Definition after (calls : list Call) (start : gmap string Entry) : gmap string Entry :=
  fold_left (fun m '(parent, child, lbl) => addSpawn parent child lbl m) calls start.

(** Every id the calls name is an ordinary one. *)
Definition ordinaryCalls (calls : list Call) : Prop :=
  Forall (fun c : Call => ordinary (fst (fst c)) = true /\ ordinary (snd (fst c)) = true) calls.

End Hierarchy.

(** ** What the reconnect procedure announces and schedules *)

Module Schedule.

Import Connection.

(** The delay [d] is within 25% of [1000 * 2^(k-1)] ms, the nominal delay
    before the [k]-th attempt. *)
Definition within (k : nat) (d : Z) : Prop :=
  3 * (250 * 2 ^ (Z.of_nat k - 1)) <= d <= 5 * (250 * 2 ^ (Z.of_nat k - 1)).

(** A [reconnecting] event numbers an attempt from 1 to 5 and announces a
    delay within 25% of the nominal one. *)
Definition announcedWithin (e : Emitted) : Prop :=
  match e with
  | EvReconnecting attempt delay maxAttempts =>
      (1 <= attempt <= maxReconnectAttempts)%nat /\ maxAttempts = maxReconnectAttempts /\
      within attempt delay
  | _ => True
  end.

Definition bounded (rt : Runtime) : Prop :=
  (reconnectAttempts (client rt) <= maxReconnectAttempts)%nat /\
  Forall (fun p => 750 <= snd p <= 20000) (timeouts rt) /\
  Forall announcedWithin (emitted rt).

(** Every draw of [Math.random()] along the trace is in [0, 1). *)
Definition drawsInRange (trace : list (Action * Oracle)) : Prop :=
  Forall (fun p => (0 <= random (snd p))%Q /\ (random (snd p) < 1)%Q) trace.

(** The client is at rest after a manual disconnect: nothing is scheduled
    and no [connect] is suspended. *)
Definition halted (rt : Runtime) : Prop :=
  state (client rt) = disconnected /\ isManualDisconnect (client rt) = true /\
  heartbeatTimer (client rt) = None /\ timeouts rt = [] /\ intervals rt = [] /\
  connectsInFlight rt = 0%nat.

End Schedule.

(** ** The push socket client ([OpenClawWebSocket.ts]) *)

Module Socket.

Import Js.
Local Open Scope string_scope.

(** [s.replace(needle, by)] with a string pattern: the first occurrence is
    replaced.  The replacements used below hold no [$]. *)
Fixpoint replaceFirst (needle by_ s : string) : string :=
  if startsWith s needle then by_ ++ substring (String.length needle) s
  else match s with
       | EmptyString => EmptyString
       | String c t => String c (replaceFirst needle by_ t)
       end.

(** [WebSocket.readyState] *)
Inductive ReadyState : Type := CONNECTING | OPEN | CLOSING | CLOSED.

(** A socket the client has created, with the address and token it was
    created for.  The four handlers the client installs on it act on the
    client, not on the socket. *)
Record WebSocket : Type := { address : string; token : string; readyState : ReadyState }.

(** What [emit] is called with.  [Date] values are the clock reading they
    were made from. *)
Inductive Emitted : Type :=
  | EvConnected
  | EvDisconnected
  | EvError (message : string)
  | EvMessage (id text : Value) (sender : string) (timestamp : nat) (sessionId : Value)
  | EvAgentUpdate (id name status task : Value) (createdAt updatedAt : nat)
  | EvGatewayStatus (version uptime : Value).

(** The private fields of the class; [socket] is an index into the sockets
    of the runtime. *)
Record Client : Type := {
  socket : option nat;
  isConnected : bool;
  gatewayUrl : string;
  apiKey : string;
  reconnectAttempts : nat
}.

Definition maxReconnectAttempts : nat := 5.
Definition reconnectDelay : Z := 1000.

Record Runtime : Type := {
  client : Client;
  (** every socket created so far, oldest first *)
  sockets : list WebSocket;
  (** the objects serialized and handed to [send] of an open socket *)
  frames : list (nat * Value);
  (** pending [setTimeout] callbacks with their delay *)
  timers : list (nat * Z);
  nextTimer : nat;
  (** the events emitted, oldest first *)
  emitted : list Emitted
}.

Definition with_client (c : Client) (rt : Runtime) : Runtime :=
  {| client := c; sockets := sockets rt; frames := frames rt; timers := timers rt;
     nextTimer := nextTimer rt; emitted := emitted rt |}.

Definition set_socket (s : option nat) (rt : Runtime) : Runtime :=
  with_client {| socket := s; isConnected := isConnected (client rt);
                 gatewayUrl := gatewayUrl (client rt); apiKey := apiKey (client rt);
                 reconnectAttempts := reconnectAttempts (client rt) |} rt.

Definition set_isConnected (b : bool) (rt : Runtime) : Runtime :=
  with_client {| socket := socket (client rt); isConnected := b;
                 gatewayUrl := gatewayUrl (client rt); apiKey := apiKey (client rt);
                 reconnectAttempts := reconnectAttempts (client rt) |} rt.

Definition set_reconnectAttempts (n : nat) (rt : Runtime) : Runtime :=
  with_client {| socket := socket (client rt); isConnected := isConnected (client rt);
                 gatewayUrl := gatewayUrl (client rt); apiKey := apiKey (client rt);
                 reconnectAttempts := n |} rt.

Definition set_config (url key : string) (rt : Runtime) : Runtime :=
  with_client {| socket := socket (client rt); isConnected := isConnected (client rt);
                 gatewayUrl := url; apiKey := key;
                 reconnectAttempts := reconnectAttempts (client rt) |} rt.

Definition emit (e : Emitted) (rt : Runtime) : Runtime :=
  {| client := client rt; sockets := sockets rt; frames := frames rt; timers := timers rt;
     nextTimer := nextTimer rt; emitted := (emitted rt ++ [e])%list |}.

Definition setTimeout (delay : Z) (rt : Runtime) : Runtime :=
  {| client := client rt; sockets := sockets rt; frames := frames rt;
     timers := (timers rt ++ [(nextTimer rt, delay)])%list;
     nextTimer := S (nextTimer rt); emitted := emitted rt |}.

Definition set_readyState (s : nat) (r : ReadyState) (rt : Runtime) : Runtime :=
  {| client := client rt;
     sockets := alter (fun w => {| address := address w; token := token w; readyState := r |})
                      s (sockets rt);
     frames := frames rt; timers := timers rt; nextTimer := nextTimer rt;
     emitted := emitted rt |}.

Definition readyStateOf (s : nat) (rt : Runtime) : option ReadyState :=
  match sockets rt !! s with
  | Some w => Some (readyState w)
  | None => None
  end.

(** [socket.close()]: starts the closing handshake of a socket that is
    connecting or open. *)
Definition close (s : nat) (rt : Runtime) : Runtime :=
  match readyStateOf s rt with
  | Some CONNECTING | Some OPEN => set_readyState s CLOSING rt
  | _ => rt
  end.

(** [socket.send(JSON.stringify(v))]: throws on a socket that is still
    connecting, transmits on an open one, and drops the data otherwise. *)
Definition send (s : nat) (v : Value) (rt : Runtime) : Outcome Runtime :=
  match readyStateOf s rt with
  | Some CONNECTING => Throws "Failed to execute 'send' on 'WebSocket': Still in CONNECTING state."
  | Some OPEN =>
      Returns {| client := client rt; sockets := sockets rt;
                 frames := (frames rt ++ [(s, v)])%list; timers := timers rt;
                 nextTimer := nextTimer rt; emitted := emitted rt |}
  | _ => Returns rt
  end.

(** The address [saveConfig] stores. *)
Definition savedUrl (rt : Runtime) : string := replaceFirst "ws" "http" (gatewayUrl (client rt)).

Section Methods.

(** [new URL(address)] and [new WebSocket(url)]: the message of the error
    one of them throws for this address, if one does. *)
Variable refused : string -> option string.

(** [JSON.parse] *)
Variable JSON_parse : string -> Outcome Value.

(** [new Date(t).toISOString()] *)
Variable toISOString : nat -> string.

(** [disconnect] *)
Definition disconnect (rt : Runtime) : Runtime :=
  let rt :=
    match socket (client rt) with
    | Some s => set_socket None (close s rt)
    | None => rt
    end in
  set_isConnected false rt.

(** [connect]; [setupEventListeners] installs the handlers below on the
    socket created. *)
Definition connect (rt : Runtime) : Runtime :=
  match socket (client rt) with
  | Some _ => rt
  | None =>
      let rt := disconnect rt in
      match refused (gatewayUrl (client rt)) with
      | Some message => emit (EvError message) rt
      | None =>
          set_socket (Some (length (sockets rt)))
            {| client := client rt;
               sockets := (sockets rt ++ [{| address := gatewayUrl (client rt);
                                             token := apiKey (client rt);
                                             readyState := CONNECTING |}])%list;
               frames := frames rt; timers := timers rt; nextTimer := nextTimer rt;
               emitted := emitted rt |}
      end
  end.

(** [attemptReconnection]; the callback of the timer is [timerFired]. *)
Definition attemptReconnection (rt : Runtime) : Runtime :=
  if Nat.leb maxReconnectAttempts (reconnectAttempts (client rt)) then rt
  else
    let rt := set_reconnectAttempts (S (reconnectAttempts (client rt))) rt in
    let delay := (reconnectDelay * 2 ^ (Z.of_nat (reconnectAttempts (client rt)) - 1))%Z in
    setTimeout delay rt.

(** [() => { if (!this.isConnected) this.connect(); }] *)
Definition timerFired (rt : Runtime) : Runtime :=
  if negb (isConnected (client rt)) then connect rt else rt.

(** [socket.onopen] *)
Definition onopen (rt : Runtime) : Runtime :=
  emit EvConnected (set_reconnectAttempts 0 (set_isConnected true rt)).

(** [socket.onclose] *)
Definition onclose (rt : Runtime) : Runtime :=
  let rt := set_isConnected false rt in
  let rt := emit EvDisconnected rt in
  let rt := set_socket None rt in
  attemptReconnection rt.

(** [socket.onerror] *)
Definition onerror (rt : Runtime) : Runtime := emit (EvError "Connection error") rt.

Definition isStr (text : string) (v : Value) : bool :=
  match v with
  | VStr s => String.eqb s text
  | _ => false
  end.

(** [handleIncomingMessage] *)
Definition handleIncomingMessage (data : Value) (now : nat) (rt : Runtime) : Runtime :=
  emit (EvMessage (or_else (member "id" data) (VStr (indexKey now)))
                  (or_else (or_else (member "text" data) (member "text" (member "payload" data)))
                           (VStr ""))
                  (if isStr "user" (member "sender" data) then "user" else "assistant")
                  now
                  (member "sessionId" data)) rt.

(** [handleAgentUpdate] *)
Definition handleAgentUpdate (data : Value) (now : nat) (rt : Runtime) : Runtime :=
  emit (EvAgentUpdate (or_else (member "id" data) (VStr ""))
                      (or_else (member "name" data) (VStr "Agent"))
                      (or_else (member "status" data) (VStr "stopped"))
                      (member "task" data) now now) rt.

(** [handleGatewayStatus] *)
Definition handleGatewayStatus (data : Value) (rt : Runtime) : Runtime :=
  emit (EvGatewayStatus (member "version" data) (member "uptime" data)) rt.

(** [socket.onmessage]: whatever is thrown inside is caught and logged;
    reading a property of [null] throws. *)
Definition onmessage (text : string) (now : nat) (rt : Runtime) : Runtime :=
  match JSON_parse text with
  | Throws _ => rt
  | Returns VNull | Returns VUndefined => rt
  | Returns data =>
      if isStr "message" (member "type" data) || truthy (member "text" data) then
        handleIncomingMessage data now rt
      else if isStr "agent_update" (member "type" data) || truthy (member "status" data) then
        handleAgentUpdate data now rt
      else if isStr "gateway_status" (member "type" data) || truthy (member "uptime" data) then
        handleGatewayStatus data rt
      else rt
  end.

(** [configure] *)
Definition configure (url key : string) (rt : Runtime) : Runtime :=
  let rt := set_config (replaceFirst "http" "ws" url) key rt in
  if isConnected (client rt) then connect (disconnect rt) else rt.

(** [sendMessage]: the runtime after the call, and how the promise
    settles. *)
Definition sendMessage (message : string) (sessionId : Value) (now : nat) (rt : Runtime)
  : Runtime * Outcome string :=
  match socket (client rt) with
  | Some s =>
      if isConnected (client rt) then
        match send s (VObj [("type", VStr "message"); ("text", VStr message);
                            ("sessionId", sessionId);
                            ("timestamp", VStr (toISOString now))]) rt with
        | Returns rt' => (rt', Returns (indexKey now))
        | Throws m => (rt, Throws m)
        end
      else (rt, Throws "Not connected")
  | None => (rt, Throws "Not connected")
  end.

(** [spawnAgent] *)
Definition spawnAgent (task : string) (name : Value) (rt : Runtime)
  : Runtime * Outcome string :=
  match socket (client rt) with
  | Some s =>
      if isConnected (client rt) then
        match send s (VObj [("type", VStr "spawn"); ("task", VStr task); ("name", name)]) rt with
        | Returns rt' => (rt', Returns "pending-id")
        | Throws m => (rt, Throws m)
        end
      else (rt, Throws "Not connected")
  | None => (rt, Throws "Not connected")
  end.

(** [stopAgent]: the call itself throws what [send] throws. *)
Definition stopAgent (agentId : string) (rt : Runtime) : Outcome Runtime :=
  match socket (client rt) with
  | Some s =>
      if isConnected (client rt) then
        send s (VObj [("type", VStr "stop"); ("agentId", VStr agentId)]) rt
      else Returns rt
  | None => Returns rt
  end.

(** *** The event loop *)

Inductive Action : Type :=
  | CallConnect
  | CallDisconnect
  | CallConfigure (url key : string)
  | CallSendMessage (message : string) (sessionId : Value)
  | CallSpawnAgent (task : string) (name : Value)
  | CallStopAgent (agentId : string)
  | Opens (s : nat)
  | Closes (s : nat)
  | Errors (s : nat)
  | Receives (s : nat) (text : string)
  | TimerFires (id : nat).

Definition hasTimer (id : nat) (rt : Runtime) : bool :=
  existsb (fun p => Nat.eqb (fst p) id) (timers rt).

Definition withoutTimer (id : nat) (rt : Runtime) : Runtime :=
  {| client := client rt; sockets := sockets rt; frames := frames rt;
     timers := List.filter (fun p => negb (Nat.eqb (fst p) id)) (timers rt);
     nextTimer := nextTimer rt; emitted := emitted rt |}.

(** One step at clock reading [now]; [None] when the runtime does not offer
    the action: a socket opens once, while connecting; it closes once; it
    delivers errors and messages until it has closed. *)
Definition step (a : Action) (now : nat) (rt : Runtime) : option Runtime :=
  match a with
  | CallConnect => Some (connect rt)
  | CallDisconnect => Some (disconnect rt)
  | CallConfigure url key => Some (configure url key rt)
  | CallSendMessage message sessionId => Some (fst (sendMessage message sessionId now rt))
  | CallSpawnAgent task name => Some (fst (spawnAgent task name rt))
  | CallStopAgent agentId =>
      match stopAgent agentId rt with
      | Returns rt' => Some rt'
      | Throws _ => Some rt
      end
  | Opens s =>
      match readyStateOf s rt with
      | Some CONNECTING => Some (onopen (set_readyState s OPEN rt))
      | _ => None
      end
  | Closes s =>
      match readyStateOf s rt with
      | Some CLOSED | None => None
      | Some _ => Some (onclose (set_readyState s CLOSED rt))
      end
  | Errors s =>
      match readyStateOf s rt with
      | Some CLOSED | None => None
      | Some _ => Some (onerror rt)
      end
  | Receives s text =>
      match readyStateOf s rt with
      | Some OPEN | Some CLOSING => Some (onmessage text now rt)
      | _ => None
      end
  | TimerFires id =>
      if hasTimer id rt then Some (timerFired (withoutTimer id rt)) else None
  end.

Fixpoint run (trace : list (Action * nat)) (rt : Runtime) : option Runtime :=
  match trace with
  | [] => Some rt
  | (a, now) :: rest =>
      match step a now rt with
      | Some rt' => run rest rt'
      | None => None
      end
  end.

End Methods.

(** The client as constructed when nothing is stored under
    [openclaw_config]. *)
Definition initial : Runtime :=
  {| client := {| socket := None; isConnected := false;
                  gatewayUrl := "ws://localhost:18789"; apiKey := "";
                  reconnectAttempts := 0 |};
     sockets := []; frames := []; timers := []; nextTimer := 0; emitted := [] |}.

(** The delays the reconnection can wait: [1000 * 2^j] ms for [j] from 0
    to 4. *)
Definition doubling (delay : Z) : Prop :=
  exists j : nat, (j < maxReconnectAttempts)%nat /\ delay = (1000 * 2 ^ Z.of_nat j)%Z.

(** The attempts are at most five and every pending timer waits a doubling
    delay. *)
Definition paced (rt : Runtime) : Prop :=
  (reconnectAttempts (client rt) <= maxReconnectAttempts)%nat /\
  Forall (fun p => doubling (snd p)) (timers rt).

End Socket.

(** ** Further sample inputs *)

Module Examples.

Import Js.
Local Open Scope string_scope.

(** Two listeners of [error], the first of which throws. *)
Definition twoListeners : Emitter.State :=
  Emitter.on "error" (Emitter.Plain 2 false)
    (Emitter.on "error" (Emitter.Plain 1 true) Emitter.empty).

(** Two handlers, each registered twice. *)
Definition registeredTwice : Emitter.State :=
  Emitter.on "error" (Emitter.Plain 2 false)
    (Emitter.on "error" (Emitter.Plain 1 true) twoListeners).

(** A [once] handler between two listeners. *)
Definition onceBetween : Emitter.State :=
  Emitter.on "connected" (Emitter.Plain 3 false)
    (Emitter.once "connected" (Emitter.Plain 2 false)
       (Emitter.on "connected" (Emitter.Plain 1 false) Emitter.empty)).

(** A listing indented with no-break spaces (U+00A0), its first marker
    followed by a line separator (U+2028) in the name. *)
Definition nbsp : string := String (ascii_of_nat 194) (String (ascii_of_nat 160) "").
Definition lineSeparator : string :=
  String (ascii_of_nat 226) (String (ascii_of_nat 128) (String (ascii_of_nat 168) "")).
Definition unicodeListing : string :=
  "- a (default)" ++ lineSeparator ++ "x" ++ Samples.newline ++
  nbsp ++ "- b" ++ nbsp ++ "(default)" ++ Samples.newline ++
  nbsp ++ nbsp ++ "Workspace: /w" ++ nbsp ++ Samples.newline.

(** A log file of three lines, the last one without a newline. *)
Definition logFile : string :=
  "one" ++ Samples.newline ++ "two" ++ Samples.newline ++ "three".

(** [toString] of a process id, a non-negative integer: its decimal
    digits.  Strings print as themselves; the samples below call it on
    nothing else. *)
Definition toString (v : Value) : string :=
  match v with
  | VNum m _ => indexKey (Z.to_nat m)
  | VStr s => s
  | _ => ""
  end.

Definition session (key : string) : Value :=
  VObj [("key", VStr key); ("sessionKey", VStr key)].

Definition threeSessions : list Value :=
  [session "agent:main:1"; session "agent:head:main"; session "agent:main:3"].

Definition grouped : gmap string (list Value) :=
  match MissionControl.sessionsByAgent threeSessions with
  | Returns groups => groups
  | Throws _ => ∅
  end.

(** A mapping in which [a] has the child [b]. *)
Definition family : gmap string SessionContext.Entry :=
  SessionContext.addSpawn "a" "b" None ∅.

(** Three spawns, the last of which moves [c] from [a] to [b]. *)
Definition spawns : list Hierarchy.Call :=
  [("a", "b", None); ("a", "c", Some "L"); ("b", "c", None)].

(** The client connects and the gateway answers that it runs. *)
Definition connects : list (Connection.Action * Connection.Oracle) :=
  [(Connection.CallConnect, Samples.answering 0);
   (Connection.ConnectSettles Samples.up, Samples.answering 0)].

Definition afterConnects : Connection.Runtime :=
  match Connection.run Samples.exactBackoff connects Connection.initial with
  | Some rt => rt
  | None => Connection.initial
  end.

Definition afterDoubleReconnect : Connection.Runtime :=
  match Connection.run Samples.exactBackoff Samples.doubleReconnect Connection.initial with
  | Some rt => rt
  | None => Connection.initial
  end.

(** The client is connected, two heartbeat probes are in flight, and the
    first of them fails: the client waits for its first reconnect attempt
    while the second probe is still out. *)
Definition probingWhileReconnecting : Connection.Runtime :=
  match Connection.run Samples.exactBackoff
          (connects ++
           [(Connection.IntervalFires 1%positive, Samples.answering 0);
            (Connection.IntervalFires 1%positive, Samples.answering 0);
            (Connection.HeartbeatSettles Samples.down, Samples.answering (1 # 2))])%list
          Connection.initial with
  | Some rt => rt
  | None => Connection.initial
  end.

Definition lateProbe : list (Connection.Action * Connection.Oracle) :=
  [(Connection.HeartbeatSettles Samples.down, Samples.answering (1 # 2))].

Definition afterLateProbe : Connection.Runtime :=
  match Connection.run Samples.exactBackoff lateProbe
          (Connection.disconnect probingWhileReconnecting) with
  | Some rt => rt
  | None => Connection.initial
  end.

(** The client after five failed reconnect attempts. *)
Definition givenUp : Connection.Runtime :=
  match Connection.attempts Samples.exactBackoff Samples.fiveFailures
          (Connection.attemptReconnect Samples.exactBackoff (Samples.answering (1 # 2))
             Connection.initial) with
  | Some rt => rt
  | None => Connection.initial
  end.

(** Every address is accepted. *)
Definition accepting (address : string) : option string := None.

(** A stand-in for [toISOString]: the clock reading in decimal. *)
Definition isoString (now : nat) : string := indexKey now.

(** The push socket has connected and the socket has opened. *)
Definition socketOpen : Socket.Runtime :=
  match Socket.run accepting Json.parse isoString
          [(Socket.CallConnect, 0%nat); (Socket.Opens 0, 1%nat)] Socket.initial with
  | Some rt => rt
  | None => Socket.initial
  end.

(** The socket opens and is lost at once. *)
Definition opensAndCloses : list (Socket.Action * nat) :=
  [(Socket.CallConnect, 0%nat); (Socket.Opens 0, 1%nat); (Socket.Closes 0, 2%nat)].

Definition afterOpensAndCloses : Socket.Runtime :=
  match Socket.run accepting Json.parse isoString opensAndCloses
          (Socket.set_config "ws://localhost:18789" "" Socket.initial) with
  | Some rt => rt
  | None => Socket.initial
  end.

End Examples.

(** * Properties *)

(** ** The back-off delay *)

Section BackoffBounds.
Import Backoff.
Variable fl : Q -> Q.
Hypothesis Hfl : rounding fl.

Local Open Scope Q_scope.

Lemma fl_le x y : x <= y -> fl x <= fl y.
Proof. apply Hfl. Qed.

Lemma fl_ext x y : x == y -> fl x == fl y.
Proof.
  intros E. apply Qle_antisym; apply fl_le; rewrite E; apply Qle_refl.
Qed.

Lemma fl_int (z : Z) : (Z.abs z <= 2 ^ 53)%Z -> fl (inject_Z z) == inject_Z z.
Proof.
  intros Hz. destruct Hfl as [_ Hd].
  specialize (Hd z 0%nat Hz). 
  assert (E : inject_Z z / inject_Z (2 ^ Z.of_nat 0) == inject_Z z).
  { unfold Qdiv. change (/ inject_Z (2 ^ Z.of_nat 0)) with 1. apply Qmult_1_r. }
  rewrite <- E at 2. rewrite <- Hd by lia. apply fl_ext. symmetry. exact E.
Qed.

Lemma fl_between (a b : Z) x :
  (Z.abs a <= 2 ^ 53)%Z -> (Z.abs b <= 2 ^ 53)%Z ->
  inject_Z a <= x <= inject_Z b -> inject_Z a <= fl x <= inject_Z b.
Proof.
  intros Ha Hb [H1 H2]. split.
  - rewrite <- (fl_int a Ha). now apply fl_le.
  - rewrite <- (fl_int b Hb). now apply fl_le.
Qed.

Lemma small_is_exact (z : Z) : (Z.abs z <= 20000)%Z -> (Z.abs z <= 2 ^ 53)%Z.
Proof. change (2 ^ 53)%Z with 9007199254740992%Z. lia. Qed.

Lemma Math_round_between (a b : Z) x :
  inject_Z a <= x <= inject_Z b -> (a <= Math_round x <= b)%Z.
Proof.
  intros [H1 H2]. unfold Math_round. split.
  - rewrite <- (Qfloor_Z a). apply Qfloor_resp_le. lra.
  - assert (H : inject_Z (Qfloor (x + (1 # 2))) < inject_Z (b + 1)).
    { eapply Qle_lt_trans; [apply Qfloor_le |]. rewrite inject_Z_plus.
      change (inject_Z 1) with 1. lra. }
    rewrite <- Zlt_Qlt in H. lia.
Qed.

Lemma backoff_core (q : Z) (attempt : nat) (r : Q) :
  (0 < q <= 4000)%Z ->
  baseDelay * Math_pow2 attempt == inject_Z (4 * q) ->
  0 <= r -> r < 1 ->
  (3 * q <= getBackoffDelay fl attempt r <= 5 * q)%Z.
Proof.
  intros Hq Hexp Hr0 Hr1. unfold getBackoffDelay.
  set (exponential := fl (baseDelay * Math_pow2 attempt)).
  assert (HE : exponential == inject_Z (4 * q)).
  { unfold exponential. rewrite (fl_ext _ _ Hexp). apply fl_int, small_is_exact. lia. }
  set (delay := Math_min exponential maxDelay).
  assert (HD : delay == inject_Z (4 * q)).
  { unfold delay, Math_min. destruct (Qle_bool exponential maxDelay) eqn:E; [exact HE |].
    exfalso. assert (Qle_bool exponential maxDelay = true); [| congruence].
    apply Qle_bool_iff. rewrite HE. unfold maxDelay. rewrite <- Zle_Qle. lia. }
  set (quarter := fl (delay * (1 # 4))).
  assert (HQ : quarter == inject_Z q).
  { unfold quarter. rewrite <- (fl_int q) by (apply small_is_exact; lia).
    apply fl_ext. rewrite HD, inject_Z_mult. change (inject_Z 4) with 4. field. }
  set (unit := fl (fl (r * inject_Z 2) - inject_Z 1)).
  assert (HU : inject_Z (-1) <= unit <= inject_Z 1).
  { unfold unit. apply fl_between; try (apply small_is_exact; lia).
    assert (H2 : inject_Z 0 <= fl (r * inject_Z 2) <= inject_Z 2).
    { apply fl_between; try (apply small_is_exact; lia).
      change (inject_Z 0) with 0. change (inject_Z 2) with 2. lra. }
    change (inject_Z 0) with 0 in H2. change (inject_Z 2) with 2 in H2.
    change (inject_Z (-1)) with (-1). change (inject_Z 1) with 1.
    change (inject_Z 2) with 2. lra. }
  change (inject_Z (-1)) with (-1) in HU. change (inject_Z 1) with 1 in HU.
  assert (Hq0 : 0 < inject_Z q).
  { change 0 with (inject_Z 0). rewrite <- Zlt_Qlt. lia. }
  set (jitter := fl (quarter * unit)).
  assert (HJ : inject_Z (- q) <= jitter <= inject_Z q).
  { unfold jitter. apply fl_between; try (apply small_is_exact; lia).
    rewrite HQ, inject_Z_opp. nra. }
  rewrite inject_Z_opp in HJ.
  apply Math_round_between, fl_between; try (apply small_is_exact; lia).
  rewrite HD, !inject_Z_mult.
  change (inject_Z 3) with 3. change (inject_Z 4) with 4. change (inject_Z 5) with 5. lra.
Qed.


Lemma fl_dyadic (m : Z) (e : nat) x :
  (Z.abs m <= 20000)%Z -> (e <= 2)%nat ->
  x == inject_Z m / inject_Z (2 ^ Z.of_nat e) -> fl x == x.
Proof.
  intros Hm He Hx. destruct Hfl as [_ Hd].
  rewrite (fl_ext _ _ Hx), Hx. apply Hd; [now apply small_is_exact | lia].
Qed.

(** Under every such rounding the draw 3/4 at attempt 4 gives 18000 ms. *)
Lemma backoff_at_cap : getBackoffDelay fl 4 (3 # 4) = 18000%Z.
Proof.
  unfold getBackoffDelay.
  set (exponential := fl (baseDelay * Math_pow2 4)).
  assert (HE : exponential == 16000).
  { unfold exponential. rewrite (fl_dyadic 16000 0); [reflexivity | lia | lia | reflexivity]. }
  set (delay := Math_min exponential maxDelay).
  assert (HD : delay == 16000).
  { unfold delay, Math_min. destruct (Qle_bool exponential maxDelay); [exact HE | reflexivity]. }
  assert (HQ : fl (delay * (1 # 4)) == 4000).
  { rewrite (fl_dyadic 4000 0); [rewrite HD; reflexivity | lia | lia | rewrite HD; reflexivity]. }
  assert (H2 : fl ((3 # 4) * inject_Z 2) == 3 # 2).
  { rewrite (fl_dyadic 3 1); [reflexivity | lia | lia | reflexivity]. }
  assert (HU : fl (fl ((3 # 4) * inject_Z 2) - inject_Z 1) == 1 # 2).
  { rewrite (fl_dyadic 1 1); [rewrite H2; reflexivity | lia | lia | rewrite H2; reflexivity]. }
  assert (HJ : fl (fl (delay * (1 # 4)) * fl (fl ((3 # 4) * inject_Z 2) - inject_Z 1)) == 2000).
  { rewrite (fl_dyadic 2000 0); [rewrite HQ, HU; reflexivity | lia | lia
                                | rewrite HQ, HU; reflexivity]. }
  assert (HS : fl (delay + fl (fl (delay * (1 # 4)) * fl (fl ((3 # 4) * inject_Z 2) - inject_Z 1)))
               == 18000).
  { rewrite (fl_dyadic 18000 0); [rewrite HJ, HD; reflexivity | lia | lia
                                 | rewrite HJ, HD; reflexivity]. }
  unfold Math_round. rewrite HS. reflexivity.
Qed.

Lemma Qle_change (a a' b b' : Q) : a == a' -> b == b' -> a' <= b' -> a <= b.
Proof. intros Ea Eb H. rewrite Ea, Eb. exact H. Qed.

(** One attempt count, with [q] a quarter of its uncapped delay. *)
Ltac within_quarter q :=
  lazymatch goal with
  | Hr0 : 0 <= ?r, Hr1 : ?r < 1 |- context [getBackoffDelay _ ?n ?r] =>
      destruct (backoff_core q n r) as [H1 H2]; [lia | reflexivity | assumption.. |];
      pose proof H2 as H3; rewrite Zle_Qle in H1, H2;
      repeat split;
      [ eapply Qle_change; [| | exact H1]; reflexivity
      | eapply Qle_change; [| | exact H2]; reflexivity
      | lia ]
  end.

(** C2 (amended): for every attempt count [n] from 0 to 4 and every draw in
    [0, 1), the delay lies within 25% of [1000 * 2^n] ms.  The cap of
    16000 ms bounds the delay before the jitter is added: the result is at
    most 20000 ms. *)
Theorem backoff_delay_within_jitter (n : nat) (r : Q) :
  (n <= 4)%nat -> 0 <= r -> r < 1 ->
  (3 # 4) * (inject_Z 1000 * inject_Z (2 ^ Z.of_nat n)) <= inject_Z (getBackoffDelay fl n r)
  /\ inject_Z (getBackoffDelay fl n r) <= (5 # 4) * (inject_Z 1000 * inject_Z (2 ^ Z.of_nat n))
  /\ (getBackoffDelay fl n r <= 20000)%Z.
Proof.
  intros Hn Hr0 Hr1.
  assert (Hcases : n = 0%nat \/ n = 1%nat \/ n = 2%nat \/ n = 3%nat \/ n = 4%nat) by lia.
  destruct Hcases as [-> | [-> | [-> | [-> | ->]]]].
  - within_quarter 250%Z.
  - within_quarter 500%Z.
  - within_quarter 1000%Z.
  - within_quarter 2000%Z.
  - within_quarter 4000%Z.
Qed.

End BackoffBounds.

Lemma exact_rounding : Backoff.rounding Backoff.exact.
Proof. split; [intros x y H; exact H | intros; reflexivity]. Qed.

Lemma backoff_delay_within_jitter_witness :
  ((3 # 4) * (inject_Z 1000 * inject_Z (2 ^ Z.of_nat 2))
     <= inject_Z (Backoff.getBackoffDelay Backoff.exact 2 (1 # 3)))%Q
  /\ (inject_Z (Backoff.getBackoffDelay Backoff.exact 2 (1 # 3))
     <= (5 # 4) * (inject_Z 1000 * inject_Z (2 ^ Z.of_nat 2)))%Q
  /\ (Backoff.getBackoffDelay Backoff.exact 2 (1 # 3) <= 20000)%Z.
Proof.
  apply (backoff_delay_within_jitter Backoff.exact exact_rounding 2 (1 # 3)).
  - lia.
  - discriminate.
  - reflexivity.
Defined.

(** Counterexample to C2 as stated: at attempt 4 the draw 3/4 gives
    18000 ms, above the 16000 ms the delay was said never to exceed. *)
Lemma backoff_delay_exceeds_cap :
  Backoff.rounding Backoff.exact /\ (4 <= 4)%nat /\ (0 <= 3 # 4)%Q /\ (3 # 4 < 1)%Q /\
  ~ (Backoff.getBackoffDelay Backoff.exact 4 (3 # 4) <= 16000)%Z.
Proof.
  split; [exact exact_rounding |]. split; [lia |]. split; [discriminate |].
  split; [reflexivity |]. rewrite (backoff_at_cap _ exact_rounding). lia.
Qed.


(** ** The listing parser *)

Section ListingParser.

Import Js Main.
Local Open Scope string_scope.

Lemma lookupField_setField_same k v fields : lookupField k (setField k v fields) = Some v.
Proof.
  induction fields as [| [k' v'] rest IH]; simpl.
  - now rewrite String.eqb_refl.
  - destruct (String.eqb k k') eqn:E; simpl.
    + now rewrite String.eqb_refl.
    + now rewrite E.
Qed.

Lemma lookupField_setField_other k k' v fields :
  k <> k' -> lookupField k (setField k' v fields) = lookupField k fields.
Proof.
  intros Hne. induction fields as [| [k1 v1] rest IH]; simpl.
  - destruct (String.eqb_spec k k'); [contradiction | reflexivity].
  - destruct (String.eqb_spec k' k1) as [-> | Hk1]; simpl.
    + destruct (String.eqb_spec k k1); [contradiction | reflexivity].
    + destruct (String.eqb_spec k k1); [reflexivity | exact IH].
Qed.

Lemma readField_keeps_id trimmed a : lookupField "id" (readField trimmed a) = lookupField "id" a.
Proof.
  unfold readField.
  destruct (startsWith trimmed "Workspace:"); [| destruct (startsWith trimmed "Model:")];
    try reflexivity; apply lookupField_setField_other; discriminate.
Qed.

(** The lines after the last marker only fill the current agent. *)
Lemma fold_fields tail : forall agents a,
  Forall (fun l => isMarker l = false) tail ->
  fold_left parseLine tail (agents, Some a) =
  (agents, Some (fold_left (fun a l => readField (trim l) a) tail a)).
Proof.
  induction tail as [| l tail IH]; intros agents a Hall; [reflexivity |].
  inversion Hall as [| ? ? Hl Htail]; subst. simpl.
  unfold parseLine at 2. unfold isMarker in Hl. rewrite Hl. simpl.
  now apply IH.
Qed.

Lemma fold_fields_keep_id tail : forall a,
  lookupField "id" (fold_left (fun a l => readField (trim l) a) tail a) = lookupField "id" a.
Proof.
  induction tail as [| l tail IH]; intros a; [reflexivity |].
  simpl. rewrite IH. apply readField_keeps_id.
Qed.

(** C7: on the listing of the specification the parser yields exactly two
    records, [main] (not default) and [head] (default), with their workspace
    and model; and in general the record opened by the last marker line is
    pushed when the input ends, filled from the lines that follow it. *)
Theorem agents_list_flushes_last_record :
  agents_list (ChildExit Samples.listing) =
    VObj [("success", VBool true);
          ("agents",
           VArr [VObj [("id", VStr "main"); ("name", VStr "main"); ("isDefault", VBool false);
                       ("workspace", VStr "/w"); ("model", VStr "gpt-x")];
                 VObj [("id", VStr "head"); ("name", VStr "head"); ("isDefault", VBool true);
                       ("workspace", VStr "/w2"); ("model", VStr "gpt-y")]])]
  /\ forall (text : string) (before tail : list string) (marker : string),
       split_newline text = (before ++ marker :: tail)%list ->
       isMarker marker = true ->
       Forall (fun l => isMarker l = false) tail ->
       let final := fold_left (fun a l => readField (trim l) a) tail (openAgent (trim marker)) in
       (exists earlier, parseAgents text = (earlier ++ [VObj final])%list) /\
       lookupField "id" final =
         Some (VStr (trim (replaceDefaultSuffix (trim (substring 2 (trim marker)))))).
Proof.
  split; [vm_compute; reflexivity |].
  intros text before tail marker Hsplit Hmarker Htail final. split.
  - unfold parseAgents, parseLines. rewrite Hsplit, fold_left_app. simpl.
    unfold parseLine at 2. unfold isMarker in Hmarker. rewrite Hmarker.
    rewrite fold_fields by assumption.
    eexists. unfold pushCurrent at 1. simpl. reflexivity.
  - subst final. rewrite fold_fields_keep_id. reflexivity.
Qed.

End ListingParser.

Lemma agents_list_flushes_last_record_witness :
  (exists earlier,
     Main.parseAgents Samples.listing =
     (earlier ++ [Js.VObj [("id", Js.VStr "head"); ("name", Js.VStr "head");
                           ("isDefault", Js.VBool true); ("workspace", Js.VStr "/w2");
                           ("model", Js.VStr "gpt-y")]])%list)
  /\ Js.lookupField "id"
       [("id", Js.VStr "head"); ("name", Js.VStr "head"); ("isDefault", Js.VBool true);
        ("workspace", Js.VStr "/w2"); ("model", Js.VStr "gpt-y")] = Some (Js.VStr "head").
Proof.
  apply (proj2 agents_list_flushes_last_record Samples.listing
           ["- main"; "  Workspace: /w"; "  Model: gpt-x"]
           ["  Workspace: /w2"; "  Model: gpt-y"; ""] "- head (default)")%string.
  - reflexivity.
  - reflexivity.
  - repeat constructor.
Defined.

(** ** JSON output: sessions and agent runs *)

Section JsonHandlers.

Import Js Main Client.
Local Open Scope string_scope.

Variable JSON_parse : string -> Outcome Value.

(** What [normalizeSession] does to an object: both alias fields are set to
    [s.key || s.sessionKey]. *)
Lemma normalizeSession_object fields :
  exists r,
    normalizeSession (VObj fields) = Returns r /\
    Samples.aliased (or_else (member "key" (VObj fields)) (member "sessionKey" (VObj fields))) r.
Proof.
  eexists. split; [reflexivity |]. simpl. split.
  - apply lookupField_setField_same.
  - rewrite lookupField_setField_other by discriminate. apply lookupField_setField_same.
Qed.

Lemma or_else_cases (a b : Value) :
  or_else a b = if truthy a then a else b.
Proof. reflexivity. Qed.

(** C8: on the document [{"sessions":[{"key":"agent:main:1"}]}] printed by
    the CLI, [listSessions] returns one record whose [key] and [sessionKey]
    both are ["agent:main:1"]; and every session object is normalized to a
    record in which both fields are present and hold the same value: the
    [key] of the object when it has one that is truthy (a string that is
    not empty, for one), else its [sessionKey], and [undefined] when it has
    neither. *)
Theorem listSessions_aliases_key :
  JSON_parse Samples.sessionsDocument = Returns Samples.sessionsTree ->
  listSessions (sessions_list JSON_parse (ChildExit Samples.sessionsDocument)) =
    Returns [VObj [("key", VStr "agent:main:1"); ("sessionKey", VStr "agent:main:1")]]
  /\ forall fields : list (string * Value),
       exists (r : list (string * Value)) (k : Value),
         normalizeSession (VObj fields) = Returns (VObj r) /\
         lookupField "key" r = Some k /\ lookupField "sessionKey" r = Some k /\
         (forall s, s <> "" -> lookupField "key" fields = Some (VStr s) -> k = VStr s) /\
         (forall v, lookupField "key" fields = Some v -> truthy v = true -> k = v) /\
         (forall w, lookupField "sessionKey" fields = Some w ->
            lookupField "key" fields = None \/
            lookupField "key" fields = Some (VStr "") \/
            lookupField "key" fields = Some VNull \/
            (exists v, lookupField "key" fields = Some v /\ truthy v = false) ->
            k = w) /\
         (lookupField "key" fields = None -> lookupField "sessionKey" fields = None ->
            k = VUndefined).
Proof.
  intros Hparse. split.
  - unfold sessions_list, execOpenClaw. cbn [error stdout present prop].
    change (or_text (Some Samples.sessionsDocument) "{}") with Samples.sessionsDocument.
    rewrite Hparse. reflexivity.
  - intros fields. eexists _, _. split; [reflexivity |].
    split; [apply lookupField_setField_same |].
    split; [rewrite lookupField_setField_other by discriminate;
            apply lookupField_setField_same |].
    cbn [member]. rewrite or_else_cases. repeat split.
    + intros s Hs Hk. rewrite Hk. cbn [truthy].
      destruct (String.eqb_spec s ""); [contradiction | reflexivity].
    + intros v Hk Ht. rewrite Hk, Ht. reflexivity.
    + intros w Hw [Hk | [Hk | [Hk | (v & Hk & Hv)]]]; rewrite Hk, Hw; cbn [truthy];
        try reflexivity. rewrite Hv. reflexivity.
    + intros Hk Hs. rewrite Hk, Hs. reflexivity.
Qed.

(** C6 (amended): when the output of the CLI is not empty and [JSON.parse]
    rejects it, [sessions:list] answers with [success: false], the message
    of the parse error and the raw output; [agent:run], called with a
    message, answers with [success: true] and the raw output as its
    result. *)
Theorem parse_failure_replies (out message : string) (args : Value) :
  out <> "" ->
  JSON_parse out = Throws message ->
  truthy (member "message" (or_else args (VObj []))) = true ->
  sessions_list JSON_parse (ChildExit out) =
    VObj [("success", VBool false); ("error", VStr message); ("raw", VStr out)]
  /\ agent_run JSON_parse args (ChildExit out) =
       VObj [("success", VBool true); ("result", VStr out)].
Proof.
  intros Hne Hparse Hmsg.
  assert (Htext : or_text (Some out) "{}" = out).
  { unfold or_text. destruct (String.eqb_spec out ""); [contradiction | reflexivity]. }
  split.
  - unfold sessions_list, execOpenClaw. cbn [error stdout present prop].
    rewrite Htext, Hparse. reflexivity.
  - unfold agent_run, execOpenClaw. rewrite Hmsg.
    cbn [negb error stdout present prop]. rewrite Htext, Hparse. reflexivity.
Qed.

End JsonHandlers.

Lemma listSessions_aliases_key_witness :
  Json.parse Samples.sessionsDocument = Js.Returns Samples.sessionsTree
  /\ Client.listSessions
       (Main.sessions_list Json.parse (Main.ChildExit Samples.sessionsDocument)) =
     Js.Returns [Js.VObj [("key", Js.VStr "agent:main:1");
                          ("sessionKey", Js.VStr "agent:main:1")]]
  /\ exists r,
       Client.normalizeSession (Js.VObj [("sessionKey", Js.VStr "agent:main:2")])
       = Js.Returns (Js.VObj r) /\
       Js.lookupField "key" r = Some (Js.VStr "agent:main:2") /\
       Js.lookupField "sessionKey" r = Some (Js.VStr "agent:main:2").
Proof.
  assert (H : Json.parse Samples.sessionsDocument = Js.Returns Samples.sessionsTree)
    by (vm_compute; reflexivity).
  split; [exact H |]. split; [exact (proj1 (listSessions_aliases_key Json.parse H)) |].
  destruct (proj2 (listSessions_aliases_key Json.parse H)
              [("sessionKey", Js.VStr "agent:main:2")])
    as (r & k & Hr & Hkey & Hsk & _ & _ & Hw & _).
  exists r. split; [exact Hr |].
  rewrite <- (Hw (Js.VStr "agent:main:2") eq_refl (or_introl eq_refl)).
  split; [exact Hkey | exact Hsk].
Defined.

Lemma parse_failure_replies_witness :
  "not json"%string <> ""%string
  /\ Json.parse "not json" = Js.Throws "Unexpected token in JSON"
  /\ Js.truthy (Js.member "message"
                  (Js.or_else (Js.VObj [("message", Js.VStr "hello")]) (Js.VObj []))) = true
  /\ Main.sessions_list Json.parse (Main.ChildExit "not json") =
       Js.VObj [("success", Js.VBool false); ("error", Js.VStr "Unexpected token in JSON");
                ("raw", Js.VStr "not json")]
  /\ Main.agent_run Json.parse (Js.VObj [("message", Js.VStr "hello")])
       (Main.ChildExit "not json") =
       Js.VObj [("success", Js.VBool true); ("result", Js.VStr "not json")].
Proof.
  assert (H1 : "not json"%string <> ""%string) by discriminate.
  assert (H2 : Json.parse "not json" = Js.Throws "Unexpected token in JSON")
    by (vm_compute; reflexivity).
  split; [exact H1 |]. split; [exact H2 |]. split; [reflexivity |].
  exact (parse_failure_replies Json.parse "not json" "Unexpected token in JSON"
           (Js.VObj [("message", Js.VStr "hello")]) H1 H2 eq_refl).
Defined.

(** Counterexample to C6 as stated: output that is not JSON comes back
    from [agent:run] as a success; and empty output, which is not JSON
    either, is read as [{}] by [sessions:list] and answered with a
    success. *)
Lemma parse_failure_swallowed :
  Json.parse "not json" = Js.Throws "Unexpected token in JSON"
  /\ Main.agent_run Json.parse (Js.VObj [("message", Js.VStr "hello")])
       (Main.ChildExit "not json")
     = Js.VObj [("success", Js.VBool true); ("result", Js.VStr "not json")]
  /\ Json.parse "" = Js.Throws "Unexpected token in JSON"
  /\ Main.sessions_list Json.parse (Main.ChildExit "")
     = Js.VObj [("success", Js.VBool true); ("sessions", Js.VObj [])].
Proof. repeat split; vm_compute; reflexivity. Qed.

(** ** The session hierarchy *)

Section SessionHierarchy.

Import SessionContext.
Local Open Scope string_scope.

(** What a call of [addSpawn] establishes. *)
Lemma addSpawn_entries (parent child : string) (lbl : option string) (prev : gmap string Entry) :
  exists ep ec,
    addSpawn parent child lbl prev !! parent = Some ep /\
    addSpawn parent child lbl prev !! child = Some ec /\
    parentId ec = Some parent /\
    label ec = (if given lbl then lbl else label ec) /\
    childIds ep =
      (if bool_decide (child ∈ getChildren prev parent) then getChildren prev parent
       else getChildren prev parent ++ [child])%list.
Proof.
  unfold addSpawn, getChildren.
  destruct (decide (parent = child)) as [<- | Hne].
  - destruct (prev !! parent) as [e |] eqn:Hp; simplify_map_eq.
    + destruct (bool_decide (parent ∈ childIds e)) eqn:Hin; simplify_map_eq;
        eexists _, _; repeat split; try reflexivity; simpl; try (now rewrite ?Hin);
        destruct (given lbl); reflexivity.
    + eexists _, _; repeat split; try reflexivity; simpl; destruct (given lbl); reflexivity.
  - destruct (prev !! parent) as [e |] eqn:Hp; destruct (prev !! child) as [e' |] eqn:Hc;
      simplify_map_eq.
    all: try destruct (bool_decide (child ∈ childIds e)) eqn:Hin; simplify_map_eq.
    all: eexists _, _; repeat split; try reflexivity; simpl; try (now rewrite ?Hin).
    all: try (destruct (given lbl); reflexivity).
Qed.

Lemma addSpawn_idempotent (parent child : string) (lbl : option string)
    (prev : gmap string Entry) :
  addSpawn parent child lbl (addSpawn parent child lbl prev) = addSpawn parent child lbl prev.
Proof.
  destruct (addSpawn_entries parent child lbl prev) as (ep & ec & Hp & Hc & Hpar & Hlab & Hch).
  set (once := addSpawn parent child lbl prev) in *.
  assert (Hin : child ∈ childIds ep).
  { rewrite Hch. case_bool_decide; [assumption | set_solver]. }
  assert (Hec : {| parentId := Some parent; childIds := childIds ec;
                   label := if given lbl then lbl else label ec |} = ec).
  { destruct ec as [pa ch la]. simpl in *. now rewrite <- Hlab, Hpar. }
  unfold addSpawn. rewrite Hp, Hc, Hec, (insert_id once child ec Hc), Hp.
  now rewrite bool_decide_eq_true_2.
Qed.

Lemma occurrences_app x l1 l2 : occurrences x (l1 ++ l2) = (occurrences x l1 + occurrences x l2)%nat.
Proof. unfold occurrences. now rewrite filter_app, length_app. Qed.

Lemma occurrences_absent x l : x ∉ l -> occurrences x l = 0%nat.
Proof.
  unfold occurrences. induction l as [| y l IH]; intros Hx; [reflexivity |].
  apply not_elem_of_cons in Hx as [Hne Hl].
  rewrite filter_cons_False by congruence. now apply IH.
Qed.

Lemma occurrences_single x : occurrences x [x] = 1%nat.
Proof. unfold occurrences. now rewrite filter_cons_True. Qed.

Lemma occurrences_present x l : x ∈ l -> (1 <= occurrences x l)%nat.
Proof.
  unfold occurrences. induction l as [| y l IH]; intros Hx; [now apply elem_of_nil in Hx |].
  rewrite filter_cons. destruct (decide (y = x)) as [-> | Hne]; simpl; [lia |].
  apply IH. apply elem_of_cons in Hx as [-> | Hx]; [congruence | exact Hx].
Qed.

(** C9 (amended): for ordinary ids, calling [addSpawn] twice with the same
    arguments gives the mapping that calling it once gives; afterwards both
    ids are entries, the child records its parent, and the parent's list
    contains the child: as often as before the call if it was there, once
    if it was not.  So the child is there exactly once unless the list
    named it several times before the call. *)
Theorem addSpawn_twice_as_once (parent child : string) (prev : gmap string Entry) :
  ordinary parent = true -> ordinary child = true ->
  let once := addSpawn parent child (Some "L") prev in
  addSpawn parent child (Some "L") once = once
  /\ is_Some (once !! parent) /\ is_Some (once !! child)
  /\ getParent once child = Some parent
  /\ child ∈ getChildren once parent
  /\ occurrences child (getChildren once parent) =
       Nat.max 1 (occurrences child (getChildren prev parent)).
Proof.
  intros _ _ once.
  destruct (addSpawn_entries parent child (Some "L") prev)
    as (ep & ec & Hp & Hc & Hpar & Hlab & Hch).
  fold once in Hp, Hc.
  split; [apply addSpawn_idempotent |].
  split; [now exists ep |]. split; [now exists ec |].
  split; [unfold getParent; now rewrite Hc |].
  unfold getChildren at 1 2. rewrite Hp, Hch. case_bool_decide as Hin.
  - split; [assumption |]. pose proof (occurrences_present _ _ Hin). lia.
  - split; [set_solver |].
    rewrite occurrences_app, (occurrences_absent _ _ Hin), occurrences_single. reflexivity.
Qed.

End SessionHierarchy.

Lemma addSpawn_twice_as_once_witness :
  SessionContext.ordinary "agent:head:main" = true /\
  SessionContext.ordinary "agent:head:sub" = true /\
  SessionContext.addSpawn "agent:head:main" "agent:head:sub" (Some "L"%string)
    (SessionContext.addSpawn "agent:head:main" "agent:head:sub" (Some "L"%string) ∅)
  = SessionContext.addSpawn "agent:head:main" "agent:head:sub" (Some "L"%string) ∅ /\
  SessionContext.occurrences "agent:head:sub"
    (SessionContext.getChildren
       (SessionContext.addSpawn "agent:head:main" "agent:head:sub" (Some "L"%string) ∅)
       "agent:head:main") = 1%nat.
Proof.
  split; [reflexivity |]. split; [reflexivity |].
  destruct (addSpawn_twice_as_once "agent:head:main" "agent:head:sub" ∅ eq_refl eq_refl)
    as (Hidem & _ & _ & _ & _ & Hocc).
  split; [exact Hidem | exact Hocc].
Defined.

(** Counterexample to C9 as stated: a mapping whose child list already
    names the child twice, as a stored mapping can, keeps naming it
    twice. *)
Lemma addSpawn_keeps_duplicates :
  let prev : gmap string SessionContext.Entry :=
    {[ "p"%string := {| SessionContext.parentId := None;
                        SessionContext.childIds := ["c"; "c"]%string;
                        SessionContext.label := None |} ]} in
  let twice := SessionContext.addSpawn "p" "c" (Some "L"%string)
                 (SessionContext.addSpawn "p" "c" (Some "L"%string) prev) in
  SessionContext.getChildren twice "p" = ["c"; "c"]%string
  /\ SessionContext.occurrences "c" (SessionContext.getChildren twice "p") <> 1%nat.
Proof. split; vm_compute; [reflexivity | discriminate]. Qed.

(** ** The connection state machine *)

Section StateMachine.

Import Js Connection.
Local Open Scope string_scope.

#[local] Arguments Nat.leb : simpl never.
#[local] Arguments maxReconnectAttempts : simpl never.

(** The properties below hold whatever delays the back-off computes. *)
Variable backoff : nat -> Q -> Z.

(** *** Heartbeat timers *)

Lemma attemptReconnect_heartbeat o rt :
  intervals (attemptReconnect backoff o rt) = intervals rt /\
  heartbeatTimer (client (attemptReconnect backoff o rt)) = heartbeatTimer (client rt).
Proof.
  unfold attemptReconnect.
  destruct (isManualDisconnect (client rt)); [split; reflexivity |].
  destruct (Nat.leb _ _); split; reflexivity.
Qed.

Lemma connect_catch_heartbeat message o rt :
  intervals (connect_catch backoff message o rt) = intervals rt /\
  heartbeatTimer (client (connect_catch backoff message o rt)) = heartbeatTimer (client rt).
Proof.
  unfold connect_catch. cbn [negb emit update client set_state set_lastError
    set_lastDisconnectTime isManualDisconnect].
  destruct (isManualDisconnect (client rt)); cbn [negb]; [split; reflexivity |].
  match goal with |- context [attemptReconnect backoff o ?r] =>
    destruct (attemptReconnect_heartbeat o r) as [-> ->] end.
  split; reflexivity.
Qed.

Lemma stopHeartbeat_ok rt :
  heartbeat_ok rt ->
  intervals (stopHeartbeat rt) = [] \/
  (heartbeatTimer (client rt) = None /\ intervals rt = [] /\ stopHeartbeat rt = rt).
Proof.
  unfold heartbeat_ok, stopHeartbeat. intros H.
  destruct (heartbeatTimer (client rt)) as [id |] eqn:Hh.
  - left. cbn. destruct (intervals rt) as [| a [| b l]]; [reflexivity | | contradiction].
    injection H as ->. cbn. now rewrite Pos.eqb_refl.
  - right. destruct (intervals rt) as [| a [| b l]]; [auto | discriminate | contradiction].
Qed.

Lemma startHeartbeat_ok rt : heartbeat_ok rt -> heartbeat_ok (startHeartbeat rt).
Proof.
  intros H. unfold startHeartbeat.
  destruct (stopHeartbeat_ok rt H) as [Hs | (_ & Hi & ->)]; unfold heartbeat_ok; cbn.
  - now rewrite Hs.
  - now rewrite Hi.
Qed.

Lemma stopHeartbeat_preserves rt : heartbeat_ok rt -> heartbeat_ok (stopHeartbeat rt).
Proof.
  intros H. destruct (stopHeartbeat_ok rt H) as [Hs | (_ & _ & ->)]; [| exact H].
  unfold heartbeat_ok. now rewrite Hs.
Qed.

(** Changes that touch neither the intervals nor the heartbeat handle. *)
Lemma heartbeat_ok_same rt rt' :
  intervals rt' = intervals rt ->
  heartbeatTimer (client rt') = heartbeatTimer (client rt) ->
  heartbeat_ok rt -> heartbeat_ok rt'.
Proof. unfold heartbeat_ok. now intros -> ->. Qed.

Lemma connect_heartbeat_ok o rt : heartbeat_ok rt -> heartbeat_ok (connect backoff o rt).
Proof.
  intros H. unfold connect.
  set (rt1 := match reconnectTimer (client rt) with
              | Some id => update (set_reconnectTimer None) (clearTimeout id rt)
              | None => rt end).
  assert (H1 : heartbeat_ok rt1).
  { subst rt1. destruct (reconnectTimer (client rt)); [| exact H].
    revert H. apply heartbeat_ok_same; reflexivity. }
  destruct (ipc o).
  - revert H1. apply heartbeat_ok_same; reflexivity.
  - match goal with |- heartbeat_ok (connect_catch backoff ?m o ?r) =>
      destruct (connect_catch_heartbeat m o r) as [Hi Hh] end.
    revert H1. apply heartbeat_ok_same; [rewrite Hi | rewrite Hh]; reflexivity.
Qed.

Lemma step_heartbeat_ok a o rt rt' :
  heartbeat_ok rt -> step backoff a o rt = Some rt' -> heartbeat_ok rt'.
Proof.
  intros H Hstep. destruct a as [| | | id | sts | id | sts]; cbn [step] in Hstep.
  - injection Hstep as <-. now apply connect_heartbeat_ok.
  - injection Hstep as <-. unfold disconnect.
    destruct (state (client rt)); try exact H.
    all: match goal with |- heartbeat_ok (emit _ (update _ (emit _ (update _ ?r)))) =>
           assert (Hr : heartbeat_ok r); [| revert Hr; apply heartbeat_ok_same; reflexivity] end.
    all: match goal with |- heartbeat_ok (match _ with Some _ => _ | None => ?r end) =>
           assert (Hr : heartbeat_ok r);
           [| destruct (reconnectTimer (client r)); [| exact Hr];
              revert Hr; apply heartbeat_ok_same; reflexivity] end.
    all: apply stopHeartbeat_preserves; revert H; apply heartbeat_ok_same; reflexivity.
  - injection Hstep as <-. unfold reconnect. apply connect_heartbeat_ok.
    revert H. apply heartbeat_ok_same; reflexivity.
  - destruct (hasTimeout id rt); [| discriminate]. injection Hstep as <-.
    apply connect_heartbeat_ok. revert H. apply heartbeat_ok_same; reflexivity.
  - destruct (connectsInFlight rt) as [| n] eqn:Hn; [discriminate |]. injection Hstep as <-.
    assert (H0 : heartbeat_ok (set_connectsInFlight n rt))
      by (revert H; apply heartbeat_ok_same; reflexivity).
    unfold connect_await. destruct sts as [st | message].
    + destruct (truthy (member "running" st)).
      * apply startHeartbeat_ok. revert H0. apply heartbeat_ok_same; reflexivity.
      * match goal with |- heartbeat_ok (connect_catch backoff ?m o ?r) =>
          destruct (connect_catch_heartbeat m o r) as [Hi Hh] end.
        revert H0. apply heartbeat_ok_same; [rewrite Hi | rewrite Hh]; reflexivity.
    + match goal with |- heartbeat_ok (connect_catch backoff ?m o ?r) =>
        destruct (connect_catch_heartbeat m o r) as [Hi Hh] end.
      revert H0. apply heartbeat_ok_same; [rewrite Hi | rewrite Hh]; reflexivity.
  - destruct (hasInterval id rt); [| discriminate]. injection Hstep as <-.
    revert H. apply heartbeat_ok_same; reflexivity.
  - destruct (probesInFlight rt) as [| n] eqn:Hn; [discriminate |]. injection Hstep as <-.
    assert (H0 : heartbeat_ok (set_probesInFlight n rt))
      by (revert H; apply heartbeat_ok_same; reflexivity).
    assert (Hfailed : forall message,
      heartbeat_ok (attemptReconnect backoff o (stopHeartbeat
        (update (set_state disconnected)
          (update (set_lastDisconnectTime (Some (now o)))
            (update (set_lastError (Some message)) (set_probesInFlight n rt))))))).
    { intros message.
      match goal with |- heartbeat_ok (attemptReconnect backoff o ?r) =>
        destruct (attemptReconnect_heartbeat o r) as [Hi Hh];
        assert (Hr : heartbeat_ok r);
        [| revert Hr; apply heartbeat_ok_same; [rewrite Hi | rewrite Hh]; reflexivity] end.
      apply stopHeartbeat_preserves. revert H0. apply heartbeat_ok_same; reflexivity. }
    unfold heartbeat_await. destruct sts as [st | message]; [| apply Hfailed].
    destruct (truthy (member "running" st)); [exact H0 | apply Hfailed].
Qed.

Lemma reachable_heartbeat_ok rt : reachable backoff rt -> heartbeat_ok rt.
Proof.
  intros [trace Hrun]. revert Hrun.
  assert (Hgen : forall tr r0, heartbeat_ok r0 -> run backoff tr r0 = Some rt -> heartbeat_ok rt).
  { induction tr as [| [a o] tr IH]; intros r0 H0 Hrun; cbn [run] in Hrun.
    - now injection Hrun as <-.
    - destruct (step backoff a o r0) as [r1 |] eqn:Hs; [| discriminate].
      eapply IH; [| exact Hrun]. eapply step_heartbeat_ok; eassumption. }
  apply Hgen. exact I.
Qed.


(** *** Runtimes in which nothing is scheduled *)

Lemma quietly_refl rt : quietly rt rt.
Proof. exists []. split; [now rewrite app_nil_r | reflexivity]. Qed.

Lemma quietly_trans a b c : quietly a b -> quietly b c -> quietly a c.
Proof.
  intros [m1 [E1 Q1]] [m2 [E2 Q2]]. exists (m1 ++ m2)%list. split.
  - now rewrite E2, E1, app_assoc.
  - rewrite forallb_app. now rewrite Q1, Q2.
Qed.

Lemma idle_step a o rt rt' :
  idle rt -> explicit a = false -> step backoff a o rt = Some rt' -> idle rt' /\ quietly rt rt'.
Proof.
  destruct rt as [[st le ld ra rtm htm flag] tos ivs nt cf pf em].
  unfold idle, quietly. cbn [timeouts client isManualDisconnect reconnectAttempts
                              connectsInFlight emitted].
  intros [-> Hidle] Hexp Hstep.
  destruct a as [| | | id | sts | id | sts]; try discriminate Hexp; cbn in Hstep.
  - discriminate.
  - destruct cf as [| n]; [discriminate |].
    destruct Hidle as [-> | [_ Hcf]]; [| discriminate].
    injection Hstep as <-.
    destruct sts as [s | message]; cbn; [destruct (truthy (member "running" s)); cbn |].
    + destruct htm; cbn; (split; [auto |]); exists [EvConnected]; auto.
    + split; [auto |]. eexists [_]. split; reflexivity.
    + split; [auto |]. eexists [_]. split; reflexivity.
  - match type of Hstep with (if ?c then _ else _) = _ => destruct c end; [| discriminate].
    injection Hstep as <-. cbn.
    split; [auto |]. exists []. now rewrite app_nil_r.
  - destruct pf as [| n]; [discriminate |]. injection Hstep as <-.
    assert (Hquiet : forall message rt0,
      rt0 = attemptReconnect backoff o (stopHeartbeat
        (update (set_state disconnected)
          (update (set_lastDisconnectTime (Some (now o)))
            (update (set_lastError (Some message))
               (set_probesInFlight n
                 {| client := {| state := st; lastError := le; lastDisconnectTime := ld;
                                 reconnectAttempts := ra; reconnectTimer := rtm;
                                 heartbeatTimer := htm; isManualDisconnect := flag |};
                    timeouts := []; intervals := ivs; nextTimer := nt;
                    connectsInFlight := cf; probesInFlight := S n; emitted := em |}))))) ->
      (timeouts rt0 = [] /\
       (isManualDisconnect (client rt0) = true \/
        (maxReconnectAttempts <= reconnectAttempts (client rt0))%nat /\
        connectsInFlight rt0 = 0%nat)) /\
      exists more, emitted rt0 = (em ++ more)%list /\
                   forallb (fun e => negb (announcesAttempt e)) more = true).
    { intros message rt0 ->. unfold attemptReconnect.
      destruct Hidle as [-> | [Hra ->]].
      - destruct htm; cbn; (split; [auto |]); exists []; now rewrite app_nil_r.
      - destruct flag.
        + destruct htm; cbn; (split; [auto |]); exists []; now rewrite app_nil_r.
        + assert (Hleb : Nat.leb maxReconnectAttempts ra = true) by now apply Nat.leb_le.
          destruct htm; cbn; rewrite Hleb; cbn;
            (split; [auto |]); eexists [_]; split; reflexivity. }
    unfold heartbeat_await. destruct sts as [s | message].
    + destruct (truthy (member "running" s)).
      * cbn. split; [auto |]. exists []. now rewrite app_nil_r.
      * now apply (Hquiet "Gateway stopped").
    + now apply (Hquiet message).
Qed.

Lemma idle_run trace : forall rt rt',
  idle rt -> automatic trace -> run backoff trace rt = Some rt' -> idle rt' /\ quietly rt rt'.
Proof.
  induction trace as [| [a o] tr IH]; intros rt rt' Hidle Hauto Hrun; cbn [run] in Hrun.
  - injection Hrun as <-. split; [exact Hidle | apply quietly_refl].
  - inversion Hauto as [| ? ? Ha Htr]; subst. cbn in Ha.
    destruct (step backoff a o rt) as [r1 |] eqn:Hs; [| discriminate].
    destruct (idle_step a o rt r1 Hidle Ha Hs) as [Hi1 Hq1].
    destruct (IH r1 rt' Hi1 Htr Hrun) as [Hi2 Hq2].
    split; [exact Hi2 | eapply quietly_trans; eassumption].
Qed.


(** *** Giving up after the last attempt *)

Lemma exhausted_idle rt : exhausted rt -> idle rt.
Proof.
  intros (_ & Hra & _ & Hto & Hcf & _). split; [exact Hto |]. right. rewrite Hra. auto.
Qed.

(** With the attempts used up the reconnect procedure settles into
    [disconnected], emits the terminal error and sets no timer, in every
    runtime. *)
Lemma attemptReconnect_exhausted o rt :
  isManualDisconnect (client rt) = false ->
  (maxReconnectAttempts <= reconnectAttempts (client rt))%nat ->
  attemptReconnect backoff o rt =
    emit (EvError "Max reconnect attempts (5) reached") (update (set_state disconnected) rt).
Proof.
  intros Hflag Hge. unfold attemptReconnect. rewrite Hflag.
  apply Nat.leb_le in Hge. now rewrite Hge.
Qed.

(** The reconnect procedure, entered with attempts left and nothing
    pending, arms the client. *)
Lemma attemptReconnect_arms o rt :
  isManualDisconnect (client rt) = false ->
  (reconnectAttempts (client rt) < maxReconnectAttempts)%nat ->
  timeouts rt = [] -> connectsInFlight rt = 0%nat ->
  armed (S (reconnectAttempts (client rt))) (attemptReconnect backoff o rt).
Proof.
  intros Hflag Hra Hto Hcf. unfold attemptReconnect. rewrite Hflag.
  assert (Hleb : Nat.leb maxReconnectAttempts (reconnectAttempts (client rt)) = false)
    by (apply Nat.leb_gt; exact Hra).
  rewrite Hleb. unfold armed. cbn. rewrite Hto. cbn. repeat split; try assumption.
  eexists _, _. split; reflexivity.
Qed.

(** A failed attempt arms the client again, or exhausts it. *)
Lemma attempt_fails a k rt :
  armed k rt -> probeFails (status a) = true ->
  exists rt', attempt backoff a rt = Some rt' /\
    (((k < maxReconnectAttempts)%nat /\ armed (S k) rt') \/
     (k = maxReconnectAttempts /\ exhausted rt') \/
     ((maxReconnectAttempts < k)%nat /\ idle rt')).
Proof.
  destruct rt as [[st le ld ra rtm htm flag] tos ivs nt cf pf em].
  unfold armed. cbn [client reconnectAttempts connectsInFlight reconnectTimer timeouts].
  intros (-> & -> & id & delay & -> & ->) Hfail.
  unfold attempt. cbn [client reconnectTimer step].
  unfold hasTimeout. cbn [timeouts existsb fst]. rewrite Pos.eqb_refl. cbn [orb].
  assert (Hcatch : forall message o em0,
    let rt1 := connect_catch backoff message o
      {| client := {| state := connecting; lastError := le; lastDisconnectTime := ld;
                      reconnectAttempts := k; reconnectTimer := None;
                      heartbeatTimer := htm; isManualDisconnect := false |};
         timeouts := []; intervals := ivs; nextTimer := nt; connectsInFlight := 0;
         probesInFlight := pf; emitted := em0 |} in
    ((k < maxReconnectAttempts)%nat /\ armed (S k) rt1) \/
    (k = maxReconnectAttempts /\ exhausted rt1) \/
    ((maxReconnectAttempts < k)%nat /\ idle rt1)).
  { intros message o em0. unfold connect_catch, attemptReconnect. cbn.
    destruct (Nat.leb_spec maxReconnectAttempts k) as [Hge | Hlt]; cbn.
    - right. destruct (Nat.eq_dec k maxReconnectAttempts) as [-> | Hne].
      + left. split; [reflexivity |]. unfold exhausted. cbn. repeat split.
        eexists. reflexivity.
      + right. split; [unfold maxReconnectAttempts in *; lia |].
        unfold idle. cbn. split; [reflexivity |]. right. auto.
    - left. split; [exact Hlt |]. unfold armed. cbn. repeat split.
      eexists _, _. split; reflexivity. }
  unfold connect, clearTimeout, withoutTimeout.
  cbn [client reconnectTimer timeouts List.filter fst update set_reconnectTimer].
  rewrite Pos.eqb_refl. cbn [negb].
  destruct (ipc (atFire a)) eqn:Hipc; cbn; rewrite ?Hipc; cbn.
  - eexists. split; [reflexivity |].
    destruct (status a) as [s | message]; cbn in Hfail |- *.
    + destruct (truthy (member "running" s)); [discriminate |]. apply Hcatch.
    + apply Hcatch.
  - eexists. split; [reflexivity |]. apply Hcatch.
Qed.

Lemma attempts_exhaust tries : forall k rt,
  armed k rt -> (1 <= k <= maxReconnectAttempts)%nat ->
  length tries = (S maxReconnectAttempts - k)%nat ->
  Forall (fun a => probeFails (status a) = true) tries ->
  exists rt', attempts backoff tries rt = Some rt' /\ exhausted rt'.
Proof.
  unfold maxReconnectAttempts.
  induction tries as [| a tries IH]; intros k rt Harmed Hk Hlen Hfail; cbn in Hlen; [lia |].
  inversion Hfail as [| ? ? Ha Hrest]; subst.
  destruct (attempt_fails a k rt Harmed Ha) as (rt1 & Hstep & Hcases).
  cbn [attempts]. rewrite Hstep. unfold maxReconnectAttempts in Hcases.
  destruct Hcases as [[Hlt Harmed1] | [[-> Hex] | [Hgt _]]]; [| | lia].
  - apply (IH (S k)); [assumption | lia | lia | assumption].
  - destruct tries; [| cbn in Hlen; lia]. exists rt1. split; [reflexivity | exact Hex].
Qed.

(** The undisturbed sequence.  Once the attempt counter has reached 5, the
    reconnect procedure puts the client into [disconnected], emits the
    terminal error and sets no timer, in every runtime.  And when it starts
    from a fresh counter with nothing pending and each of the five
    reconnect attempts it schedules fails, the client ends there with the
    counter at 5, the terminal error emitted last and no timer pending;
    from there no sequence of timer and probe events schedules a timer or
    announces a connection attempt: only a call of [connect] or
    [reconnect] does. *)
Lemma reconnect_gives_up_after_max :
  (forall (rt : Runtime) (o : Oracle),
     isManualDisconnect (client rt) = false ->
     (maxReconnectAttempts <= reconnectAttempts (client rt))%nat ->
     attemptReconnect backoff o rt =
       emit (EvError "Max reconnect attempts (5) reached")
         (update (set_state disconnected) rt))
  /\ forall (rt0 : Runtime) (o0 : Oracle) (tries : list Attempt),
       reconnectAttempts (client rt0) = 0%nat ->
       isManualDisconnect (client rt0) = false ->
       timeouts rt0 = [] ->
       connectsInFlight rt0 = 0%nat ->
       length tries = maxReconnectAttempts ->
       Forall (fun a => probeFails (status a) = true) tries ->
       exists rt,
         attempts backoff tries (attemptReconnect backoff o0 rt0) = Some rt /\
         state (client rt) = disconnected /\
         reconnectAttempts (client rt) = maxReconnectAttempts /\
         (exists before,
            emitted rt = (before ++ [EvError "Max reconnect attempts (5) reached"])%list) /\
         timeouts rt = [] /\ reconnectTimer (client rt) = None /\
         forall trace rt',
           automatic trace -> run backoff trace rt = Some rt' ->
           timeouts rt' = [] /\ quietly rt rt'.
Proof.
  split; [intros rt o; apply attemptReconnect_exhausted |].
  intros rt0 o0 tries Hra Hflag Hto Hcf Hlen Hfail.
  assert (Harmed : armed 1 (attemptReconnect backoff o0 rt0)).
  { rewrite <- Hra. apply attemptReconnect_arms; try assumption.
    rewrite Hra. unfold maxReconnectAttempts. lia. }
  destruct (attempts_exhaust tries 1 _ Harmed) as (rt & Hrun & Hex);
    [unfold maxReconnectAttempts; lia | rewrite Hlen; reflexivity | assumption |].
  exists rt. pose proof (exhausted_idle rt Hex) as Hidle.
  destruct Hex as (Hst & Hra' & Hrt & Hto' & _ & Hem).
  split; [exact Hrun |]. split; [exact Hst |]. split; [exact Hra' |].
  split; [exact Hem |]. split; [exact Hto' |]. split; [exact Hrt |].
  intros trace rt' Hauto Hrun'.
  destruct (idle_run trace rt rt' Hidle Hauto Hrun') as [[Hto'' _] Hquiet].
  split; assumption.
Qed.

(** *** A failing heartbeat *)

(** C3 (amended): when the heartbeat probe fails (it throws, or reports the
    gateway as not running) while the client is [connected], the handler
    stops the heartbeat and invokes the reconnect procedure.  The client goes
    to [reconnecting] with a reconnect scheduled, unless the attempts are
    used up, where it ends in [disconnected] with the terminal error, or
    unless the manual-disconnect flag is set, where it ends in
    [disconnected] with nothing scheduled. *)
Theorem heartbeat_failure_reconnects (rt : Runtime) (sts : Outcome Value) (o : Oracle) (n : nat) :
  state (client rt) = connected ->
  probesInFlight rt = S n ->
  probeFails sts = true ->
  exists rt',
    step backoff (HeartbeatSettles sts) o rt = Some rt' /\
    heartbeatTimer (client rt') = None /\
    (forall id, heartbeatTimer (client rt) = Some id -> hasInterval id rt' = false) /\
    (isManualDisconnect (client rt) = false ->
     (reconnectAttempts (client rt) < maxReconnectAttempts)%nat ->
     state (client rt') = reconnecting /\
     reconnectAttempts (client rt') = S (reconnectAttempts (client rt)) /\
     exists id delay,
       reconnectTimer (client rt') = Some id /\
       timeouts rt' = (timeouts rt ++ [(id, delay)])%list) /\
    (isManualDisconnect (client rt) = false ->
     (maxReconnectAttempts <= reconnectAttempts (client rt))%nat ->
     state (client rt') = disconnected /\ timeouts rt' = timeouts rt /\
     emitted rt' = (emitted rt ++ [EvError "Max reconnect attempts (5) reached"])%list) /\
    (isManualDisconnect (client rt) = true ->
     state (client rt') = disconnected /\ timeouts rt' = timeouts rt /\
     emitted rt' = emitted rt).
Proof.
  destruct rt as [[st le ld ra rtm htm flag] tos ivs nt cf pf em].
  cbn [client state probesInFlight]. intros -> -> Hfail.
  cbn [step].
  assert (Hfailed : forall message,
    let rt' := attemptReconnect backoff o (stopHeartbeat
      (update (set_state disconnected)
        (update (set_lastDisconnectTime (Some (now o)))
          (update (set_lastError (Some message))
             (set_probesInFlight n
               {| client := {| state := connected; lastError := le; lastDisconnectTime := ld;
                               reconnectAttempts := ra; reconnectTimer := rtm;
                               heartbeatTimer := htm; isManualDisconnect := flag |};
                  timeouts := tos; intervals := ivs; nextTimer := nt;
                  connectsInFlight := cf; probesInFlight := S n; emitted := em |}))))) in
    heartbeatTimer (client rt') = None /\
    (forall id, htm = Some id -> hasInterval id rt' = false) /\
    (flag = false -> (ra < maxReconnectAttempts)%nat ->
     state (client rt') = reconnecting /\ reconnectAttempts (client rt') = S ra /\
     exists id delay, reconnectTimer (client rt') = Some id /\
                      timeouts rt' = (tos ++ [(id, delay)])%list) /\
    (flag = false -> (maxReconnectAttempts <= ra)%nat ->
     state (client rt') = disconnected /\ timeouts rt' = tos /\
     emitted rt' = (em ++ [EvError "Max reconnect attempts (5) reached"])%list) /\
    (flag = true -> state (client rt') = disconnected /\ timeouts rt' = tos /\
                    emitted rt' = em)).
  { intros message rt'. subst rt'. unfold attemptReconnect.
    assert (Hgone : forall id,
      existsb (fun t => Pos.eqb t id) (withoutInterval id ivs) = false).
    { intros id. unfold withoutInterval. induction ivs as [| t l IH]; [reflexivity |].
      cbn [List.filter]. destruct (Pos.eqb t id) eqn:E; cbn [negb]; [exact IH |].
      cbn [existsb]. now rewrite E, IH. }
    destruct flag.
    - destruct htm as [h |]; cbn; repeat split; try discriminate; try reflexivity.
      intros id [= ->]. unfold hasInterval. cbn. apply Hgone.
    - destruct (Nat.leb_spec maxReconnectAttempts ra) as [Hge | Hlt].
      + destruct htm as [h |]; cbn.
        all: assert (Hleb : Nat.leb maxReconnectAttempts ra = true) by now apply Nat.leb_le.
        all: rewrite Hleb; cbn; repeat split; try discriminate; try reflexivity; try lia.
        intros id [= ->]. unfold hasInterval. cbn. apply Hgone.
      + destruct htm as [h |]; cbn.
        all: assert (Hleb : Nat.leb maxReconnectAttempts ra = false) by now apply Nat.leb_gt.
        all: rewrite Hleb; cbn; repeat split; try discriminate; try reflexivity; try lia.
        all: try (eexists _, _; split; reflexivity).
        intros id [= ->]. unfold hasInterval. cbn. apply Hgone. }
  eexists. split; [reflexivity |].
  unfold heartbeat_await. destruct sts as [s | message]; cbn in Hfail.
  - destruct (truthy (member "running" s)); [discriminate |]. apply Hfailed.
  - apply Hfailed.
Qed.

(** *** Disconnecting *)

(** When every pending timeout is the one the client holds, [disconnect]
    leaves nothing scheduled. *)
Lemma disconnect_idle rt :
  (forall id delay, In (id, delay) (timeouts rt) -> reconnectTimer (client rt) = Some id) ->
  state (client rt) <> disconnected ->
  idle (disconnect rt) /\ isManualDisconnect (client (disconnect rt)) = true.
Proof.
  destruct rt as [[st le ld ra rtm htm flag] tos ivs nt cf pf em].
  cbn [client timeouts reconnectTimer state]. intros Hheld Hst.
  assert (Hcleared : match rtm with
                     | Some id => withoutTimeout id tos = []
                     | None => tos = []
                     end).
  { destruct rtm as [id |].
    - unfold withoutTimeout. induction tos as [| [t d] l IH]; [reflexivity |].
      cbn [List.filter fst].
      assert (Ht : Some id = Some t) by (apply (Hheld t d); now left).
      injection Ht as ->. rewrite Pos.eqb_refl. cbn [negb].
      apply IH. intros i d' Hin. apply (Hheld i d'). now right.
    - destruct tos as [| [t d] l]; [reflexivity |].
      specialize (Hheld t d (or_introl eq_refl)). discriminate. }
  unfold disconnect, idle.
  destruct st; try contradiction; destruct htm, rtm; cbn; subst; auto.
Qed.

(** After such a [disconnect], no sequence of timer and probe events
    announces a connection attempt or schedules a timer. *)
Lemma disconnect_silences rt trace rt' :
  (forall id delay, In (id, delay) (timeouts rt) -> reconnectTimer (client rt) = Some id) ->
  state (client rt) <> disconnected ->
  automatic trace -> run backoff trace (disconnect rt) = Some rt' ->
  timeouts rt' = [] /\ quietly (disconnect rt) rt'.
Proof.
  intros Hheld Hst Hauto Hrun.
  destruct (disconnect_idle rt Hheld Hst) as [Hidle _].
  destruct (idle_run trace _ rt' Hidle Hauto Hrun) as [[Hto _] Hq]. split; assumption.
Qed.

(** *** The leaked reconnect timer *)

(** C5: after the trace [doubleReconnect] ([reconnect] called twice while
    the gateway is down, both status probes failing) two reconnect timers
    are pending: the second failure scheduled timer 2 without clearing
    timer 1, which the client no longer holds. *)
Theorem double_reconnect_leaks_timer :
  exists rt d1 d2,
    run backoff Samples.doubleReconnect initial = Some rt /\
    state (client rt) = reconnecting /\
    reconnectTimer (client rt) = Some 2%positive /\
    timeouts rt = [(1%positive, d1); (2%positive, d2)] /\
    length (timeouts rt) = 2%nat.
Proof.
  eexists _, _, _. split; [vm_compute; reflexivity |].
  repeat (split; [vm_compute; reflexivity |]). vm_compute; reflexivity.
Qed.

(** The same happens with no call from outside after [connect]: two
    heartbeat probes in flight, both failing. *)
Lemma overlapping_heartbeats_leak_timer :
  exists rt d1 d2,
    run backoff Samples.overlappingHeartbeats initial = Some rt /\
    state (client rt) = reconnecting /\
    reconnectTimer (client rt) = Some 3%positive /\
    timeouts rt = [(2%positive, d1); (3%positive, d2)] /\
    intervals rt = [].
Proof.
  eexists _, _, _. split; [vm_compute; reflexivity |].
  repeat (split; [vm_compute; reflexivity |]). vm_compute; reflexivity.
Qed.

(** C4: [disconnect], called in [reconnecting] after the trace
    [doubleReconnect], sets the manual-disconnect flag and cancels the timer
    the client holds (timer 2), but timer 1 stays pending; when it fires,
    [connect] runs and emits [connecting] although neither [connect] nor
    [reconnect] was called since. *)
Theorem leaked_timer_connects_after_disconnect :
  exists rt rt' d1 d2,
    run backoff Samples.doubleReconnect initial = Some rt /\
    state (client rt) = reconnecting /\
    timeouts rt = [(1%positive, d1); (2%positive, d2)] /\
    reconnectTimer (client rt) = Some 2%positive /\
    isManualDisconnect (client (disconnect rt)) = true /\
    state (client (disconnect rt)) = disconnected /\
    timeouts (disconnect rt) = [(1%positive, d1)] /\
    explicit (TimeoutFires 1%positive) = false /\
    step backoff (TimeoutFires 1%positive) (Samples.answering 0) (disconnect rt) = Some rt' /\
    emitted rt' = (emitted (disconnect rt) ++ [EvConnecting])%list /\
    state (client rt') = connecting.
Proof.
  eexists _, _, _, _. split; [vm_compute; reflexivity |].
  repeat (split; [vm_compute; reflexivity |]). vm_compute; reflexivity.
Qed.

(** C1: giving up does not cancel a pending reconnect timer.  After the
    trace [lateProbeAtGiveUp] (the client is connected, two heartbeat
    probes are in flight, the first fails, four reconnect attempts fail,
    then the second probe fails) the counter is at 5, the client is
    [disconnected] and the terminal error is the last event, but timer 6,
    set after the fourth failed attempt, is still pending.  When it fires,
    [connect] runs and emits [connecting], and the client ends [connected]
    if the gateway answers, although neither [connect] nor [reconnect] was
    called. *)
Theorem give_up_leaves_timer_pending :
  exists rt rt1 rt2 d,
    run backoff Samples.lateProbeAtGiveUp initial = Some rt /\
    state (client rt) = disconnected /\
    reconnectAttempts (client rt) = maxReconnectAttempts /\
    last (emitted rt) = Some (EvError "Max reconnect attempts (5) reached") /\
    timeouts rt = [(6%positive, d)] /\
    reconnectTimer (client rt) = Some 6%positive /\
    explicit (TimeoutFires 6%positive) = false /\
    step backoff (TimeoutFires 6%positive) (Samples.answering 0) rt = Some rt1 /\
    emitted rt1 = (emitted rt ++ [EvConnecting])%list /\
    step backoff (ConnectSettles Samples.up) (Samples.answering 0) rt1 = Some rt2 /\
    state (client rt2) = connected.
Proof.
  eexists _, _, _, _. split; [vm_compute; reflexivity |].
  split; [vm_compute; reflexivity |]. split; [vm_compute; reflexivity |].
  repeat (split; [vm_compute; reflexivity |]). vm_compute; reflexivity.
Qed.

End StateMachine.

Lemma reconnect_gives_up_after_max_witness :
  Connection.reconnectAttempts (Connection.client Connection.initial) = 0%nat
  /\ Connection.isManualDisconnect (Connection.client Connection.initial) = false
  /\ Connection.timeouts Connection.initial = []
  /\ Connection.connectsInFlight Connection.initial = 0%nat
  /\ length Samples.fiveFailures = Connection.maxReconnectAttempts
  /\ Forall (fun a => Connection.probeFails (Connection.status a) = true) Samples.fiveFailures
  /\ exists rt,
       Connection.attempts Samples.exactBackoff Samples.fiveFailures
         (Connection.attemptReconnect Samples.exactBackoff (Samples.answering (1 # 2))
            Connection.initial) = Some rt /\
       Connection.state (Connection.client rt) = Connection.disconnected /\
       Connection.reconnectAttempts (Connection.client rt) = Connection.maxReconnectAttempts /\
       (exists before,
          Connection.emitted rt =
          (before ++ [Connection.EvError "Max reconnect attempts (5) reached"])%list) /\
       Connection.timeouts rt = [] /\
       Connection.reconnectTimer (Connection.client rt) = None /\
       forall trace rt',
         Connection.automatic trace -> Connection.run Samples.exactBackoff trace rt = Some rt' ->
         Connection.timeouts rt' = [] /\ Connection.quietly rt rt'.
Proof.
  assert (Hfail : Forall (fun a => Connection.probeFails (Connection.status a) = true)
                    Samples.fiveFailures) by (repeat constructor).
  repeat (split; [first [reflexivity | exact Hfail] |]).
  apply (proj2 (reconnect_gives_up_after_max Samples.exactBackoff) Connection.initial
           (Samples.answering (1 # 2)) Samples.fiveFailures);
    first [reflexivity | exact Hfail].
Defined.

Lemma heartbeat_failure_reconnects_witness :
  Connection.state (Connection.client Samples.connectedProbing) = Connection.connected
  /\ Connection.probesInFlight Samples.connectedProbing = 1%nat
  /\ Connection.probeFails Samples.down = true
  /\ exists rt',
       Connection.step Samples.exactBackoff (Connection.HeartbeatSettles Samples.down)
         (Samples.answering (1 # 2)) Samples.connectedProbing = Some rt' /\
       Connection.state (Connection.client rt') = Connection.reconnecting /\
       Connection.heartbeatTimer (Connection.client rt') = None /\
       Connection.intervals rt' = [] /\
       Connection.timeouts rt' = [(2%positive, 1000)].
Proof.
  repeat (split; [reflexivity |]).
  destruct (heartbeat_failure_reconnects Samples.exactBackoff Samples.connectedProbing Samples.down
              (Samples.answering (1 # 2)) 0 eq_refl eq_refl eq_refl)
    as (rt' & Hstep & Hhb & _ & Hre & _).
  exists rt'. split; [exact Hstep |].
  destruct (Hre eq_refl) as (Hst & _); [unfold Connection.maxReconnectAttempts; cbn; lia |].
  split; [exact Hst |]. split; [exact Hhb |].
  cbn in Hstep. injection Hstep as <-. split; reflexivity.
Defined.

(** Counterexample to C3 as stated: [disconnect] was called while
    [connect] waited for the status, so the client is [connected] with the
    manual-disconnect flag set and no attempt used; a failing heartbeat
    leaves it [disconnected] with nothing scheduled. *)
Lemma heartbeat_failure_after_manual_disconnect :
  exists rt rt',
    Connection.run Samples.exactBackoff Samples.disconnectDuringConnect Connection.initial = Some rt /\
    Connection.state (Connection.client rt) = Connection.connected /\
    Connection.reconnectAttempts (Connection.client rt) = 0%nat /\
    Connection.isManualDisconnect (Connection.client rt) = true /\
    Connection.probeFails Samples.down = true /\
    Connection.step Samples.exactBackoff (Connection.HeartbeatSettles Samples.down)
      (Samples.answering (1 # 2)) rt = Some rt' /\
    Connection.state (Connection.client rt') = Connection.disconnected /\
    Connection.state (Connection.client rt') <> Connection.reconnecting /\
    Connection.timeouts rt' = [].
Proof.
  eexists _, _. split; [vm_compute; reflexivity |].
  repeat (split; [vm_compute; reflexivity |]).
  split; [vm_compute; discriminate | vm_compute; reflexivity].
Qed.

(** ** The gateway status probe *)

Section StatusProbe.

Import Js Main Client.
Local Open Scope string_scope.


(** Without a message the error would go unnoticed: the handler tests
    [res.error] for truthiness. *)
Lemma gateway_status_needs_message :
  gateway_status (ChildError "") = VObj [("running", VBool true); ("output", VUndefined)].
Proof. reflexivity. Qed.

End StatusProbe.


(** ** The event emitter *)

Section EventEmitter.

Import Emitter.

Lemma handler_eqb_eq (a b : Handler) : handler_eqb a b = true <-> a = b.
Proof.
  revert b; induction a as [i t | e n h IH]; intros [j u | f m k]; simpl; split;
    try discriminate.
  - rewrite andb_true_iff, Nat.eqb_eq, Bool.eqb_true_iff. intros [-> ->]; reflexivity.
  - intros [= -> ->]. rewrite Nat.eqb_refl, Bool.eqb_reflx; reflexivity.
  - rewrite !andb_true_iff, String.eqb_eq, Nat.eqb_eq, IH. intros [[-> ->] ->]; reflexivity.
  - intros [= -> -> ->]. rewrite String.eqb_refl, Nat.eqb_refl. simpl. apply IH; reflexivity.
Qed.

Lemma handler_eqb_refl (a : Handler) : handler_eqb a a = true.
Proof. apply handler_eqb_eq; reflexivity. Qed.

Lemma handler_eqb_neq (a b : Handler) : a <> b -> handler_eqb a b = false.
Proof.
  intros H. destruct (handler_eqb a b) eqn:E; [| reflexivity].
  apply handler_eqb_eq in E; contradiction.
Qed.

Lemma listeners_set_same (e : string) (l : list Handler) (st : State) :
  listeners e (set_listeners e l st) = l.
Proof. unfold listeners, set_listeners; simpl. rewrite lookup_insert_eq; reflexivity. Qed.

Lemma listeners_set_other (e f : string) (l : list Handler) (st : State) :
  e <> f -> listeners f (set_listeners e l st) = listeners f st.
Proof.
  intros H. unfold listeners, set_listeners; simpl.
  rewrite lookup_insert_ne by exact H; reflexivity.
Qed.

Lemma listeners_lookup (e : string) (l : list Handler) (st : State) :
  listeners e st = l -> l <> [] -> eventListeners st !! e = Some l.
Proof.
  unfold listeners. destruct (eventListeners st !! e) as [x |]; intros H Hne.
  - rewrite H; reflexivity.
  - symmetry in H; contradiction.
Qed.

Lemma indexOf_first (h : Handler) (pre post : list Handler) :
  ~ In h pre -> indexOf h (pre ++ h :: post) = Some (length pre).
Proof.
  induction pre as [| x pre IH]; simpl; intros H.
  - rewrite handler_eqb_refl; reflexivity.
  - rewrite handler_eqb_neq by (intros ->; apply H; left; reflexivity).
    rewrite IH by (intros Hin; apply H; right; exact Hin). reflexivity.
Qed.

Lemma indexOf_absent (h : Handler) (l : list Handler) :
  ~ In h l -> indexOf h l = None.
Proof.
  induction l as [| x l IH]; simpl; intros H; [reflexivity |].
  rewrite handler_eqb_neq by (intros ->; apply H; left; reflexivity).
  rewrite IH by (intros Hin; apply H; right; exact Hin). reflexivity.
Qed.

Lemma splice1_middle (h : Handler) (pre post : list Handler) :
  splice1 (length pre) (pre ++ h :: post) = pre ++ post.
Proof. induction pre as [| x pre IH]; simpl; [reflexivity | rewrite IH; reflexivity]. Qed.

Lemma off_first (e : string) (h : Handler) (pre post : list Handler) (st : State) :
  eventListeners st !! e = Some (pre ++ h :: post) -> ~ In h pre ->
  off e h st = set_listeners e (pre ++ post) st.
Proof.
  intros Hl Hpre. unfold off. rewrite Hl, indexOf_first by exact Hpre.
  rewrite splice1_middle; reflexivity.
Qed.

Lemma ids_app (a b : list Handler) : ids (a ++ b) = (ids a ++ ids b)%list.
Proof. unfold ids. apply flat_map_app. Qed.

Lemma forEachFrom_add (e : string) (a b k : nat) (st : State) :
  forEachFrom e k (a + b) st = forEachFrom e (k + a) b (forEachFrom e k a st).
Proof.
  revert k st; induction a as [| a IH]; intros k st; simpl.
  - rewrite Nat.add_0_r; reflexivity.
  - replace (k + S a)%nat with (S k + a)%nat by lia.
    destruct (listeners e st !! k); apply IH.
Qed.

(** A run of [forEach] over indices that hold plain handlers only: each is
    called, in order, and the registrations are as before. *)
Lemma forEachFrom_plain (e : string) (count k : nat) (st : State) :
  forallb isPlain (take count (drop k (listeners e st))) = true ->
  eventListeners (forEachFrom e k count st) = eventListeners st /\
  wrappers (forEachFrom e k count st) = wrappers st /\
  calls (forEachFrom e k count st)
    = (calls st ++ ids (take count (drop k (listeners e st))))%list.
Proof.
  revert k st; induction count as [| c IH]; intros k st H.
  - simpl. rewrite app_nil_r; repeat split.
  - simpl. destruct (listeners e st !! k) as [h |] eqn:E.
    + rewrite (drop_S _ _ _ E) in H |- *. simpl in H. apply andb_true_iff in H as [Hh H].
      destruct h as [i t | ]; [| discriminate]. simpl.
      set (st1 := {| eventListeners := eventListeners st; wrappers := wrappers st;
                     calls := (calls st ++ [i])%list |}).
      assert (Hsame : listeners e st1 = listeners e st) by reflexivity.
      destruct (IH (S k) st1) as (H1 & H2 & H3); [rewrite Hsame; exact H |].
      rewrite H1, H2, H3, Hsame. repeat split.
      unfold st1; simpl. rewrite <- app_assoc. reflexivity.
    + apply lookup_ge_None in E.
      rewrite drop_ge in H |- * by lia. rewrite take_nil in H |- *.
      destruct (IH (S k) st) as (H1 & H2 & H3).
      { rewrite drop_ge by lia. rewrite take_nil. reflexivity. }
      rewrite H1, H2, H3. rewrite drop_ge by lia. rewrite take_nil. repeat split.
Qed.

Lemma forallb_isPlain_not_wrapper (l : list Handler) (e : string) (n : nat) (h : Handler) :
  forallb isPlain l = true -> ~ In (Wrapper e n h) l.
Proof.
  intros H Hin. rewrite forallb_forall in H. apply H in Hin. discriminate.
Qed.

(** [emit] over an array whose only wrapper was made by [once] for this
    event around a plain handler. *)
Lemma emit_around_wrapper (e : string) (n i : nat) (t : bool)
    (pre post : list Handler) (st : State) :
  eventListeners st !! e = Some (pre ++ Wrapper e n (Plain i t) :: post) ->
  forallb isPlain pre = true -> forallb isPlain post = true ->
  listeners e (emit e st)
    = (if t then pre ++ Wrapper e n (Plain i t) :: post else pre ++ post)%list /\
  calls (emit e st)
    = (calls st ++ ids pre ++ [i] ++ ids (if t then post else drop 1 post))%list.
Proof.
  intros Hl Hpre Hpost.
  assert (Hls : listeners e st = (pre ++ Wrapper e n (Plain i t) :: post)%list).
  { unfold listeners; rewrite Hl; reflexivity. }
  unfold emit. rewrite Hls.
  replace (length (pre ++ Wrapper e n (Plain i t) :: post))
    with (length pre + (1 + length post))%nat by (rewrite length_app; simpl; lia).
  rewrite forEachFrom_add. simpl (0 + _)%nat.
  destruct (forEachFrom_plain e (length pre) 0 st) as (H1 & H2 & H3).
  { rewrite Hls, drop_0, take_app_length. exact Hpre. }
  rewrite Hls, drop_0, take_app_length in H3.
  set (st1 := forEachFrom e 0 (length pre) st) in *.
  assert (Hl1 : eventListeners st1 !! e = Some (pre ++ Wrapper e n (Plain i t) :: post)%list).
  { rewrite H1; exact Hl. }
  assert (Hls1 : listeners e st1 = (pre ++ Wrapper e n (Plain i t) :: post)%list).
  { unfold listeners; rewrite Hl1; reflexivity. }
  rewrite forEachFrom_add.
  assert (Hk : listeners e st1 !! length pre = Some (Wrapper e n (Plain i t))).
  { rewrite Hls1. rewrite lookup_app_r by lia. rewrite Nat.sub_diag. reflexivity. }
  change (forEachFrom e (length pre) 1 st1)
    with (match listeners e st1 !! length pre with
          | Some h => fst (call h st1)
          | None => st1
          end).
  rewrite Hk. cbn [call].
  set (st2 := {| eventListeners := eventListeners st1; wrappers := wrappers st1;
                 calls := (calls st1 ++ [i])%list |}).
  destruct t; cbn [fst].
  - destruct (forEachFrom_plain e (length post) (length pre + 1) st2) as (G1 & G2 & G3).
    { change (listeners e st2) with (listeners e st1). rewrite Hls1.
      rewrite drop_app_ge by lia.
      replace (length pre + 1 - length pre)%nat with 1%nat by lia.
      simpl. rewrite drop_0, firstn_all. exact Hpost. }
    change (listeners e st2) with (listeners e st1) in G3. rewrite Hls1 in G3.
    rewrite drop_app_ge in G3 by lia.
    replace (length pre + 1 - length pre)%nat with 1%nat in G3 by lia.
    simpl in G3. rewrite drop_0, firstn_all in G3.
    split.
    + unfold listeners at 1. rewrite G1. change (eventListeners st2) with (eventListeners st1).
      rewrite Hl1; reflexivity.
    + rewrite G3. unfold st2; simpl. rewrite H3. rewrite <- !app_assoc. reflexivity.
  - assert (Hoff : off e (Wrapper e n (Plain i false)) st2 = set_listeners e (pre ++ post) st2).
    { apply off_first; [exact Hl1 |]. apply forallb_isPlain_not_wrapper; exact Hpre. }
    rewrite Hoff.
    set (st3 := set_listeners e (pre ++ post) st2).
    assert (Hls3 : listeners e st3 = (pre ++ post)%list) by apply listeners_set_same.
    destruct (forEachFrom_plain e (length post) (length pre + 1) st3) as (G1 & G2 & G3).
    { rewrite Hls3. rewrite drop_app_ge by lia.
      replace (length pre + 1 - length pre)%nat with 1%nat by lia.
      apply forallb_forall. intros x Hx. rewrite forallb_forall in Hpost. apply Hpost.
      apply list_elem_of_In. apply list_elem_of_In in Hx.
      apply elem_of_take in Hx as (j & Hx & _). rewrite lookup_drop in Hx.
      eapply list_elem_of_lookup_2; exact Hx. }
    rewrite Hls3 in G3. rewrite drop_app_ge in G3 by lia.
    replace (length pre + 1 - length pre)%nat with 1%nat in G3 by lia.
    rewrite take_ge in G3 by (rewrite length_drop; lia).
    split.
    + unfold listeners at 1. rewrite G1. fold (listeners e st3). exact Hls3.
    + rewrite G3. unfold st3, st2; simpl. rewrite H3. rewrite <- !app_assoc. reflexivity.
Qed.

(** [emit] over plain listeners. *)
Lemma emit_plain (e : string) (st : State) :
  forallb isPlain (listeners e st) = true ->
  calls (emit e st) = (calls st ++ ids (listeners e st))%list /\
  eventListeners (emit e st) = eventListeners st.
Proof.
  intros H. unfold emit.
  destruct (forEachFrom_plain e (length (listeners e st)) 0 st) as (H1 & _ & H3).
  - rewrite drop_0, firstn_all. exact H.
  - rewrite drop_0, firstn_all in H3. split; assumption.
Qed.

(** X1: [emit] calls the listeners of the event in the order of their
    registration, every one of them even when earlier ones throw, and leaves
    the registrations as they were (for listeners registered with [on] that
    do not themselves change the registrations). *)
Theorem emit_calls_all_in_order (e : string) (st : State) :
  forallb isPlain (listeners e st) = true ->
  calls (emit e st) = (calls st ++ ids (listeners e st))%list /\
  eventListeners (emit e st) = eventListeners st.
Proof.
  intros H. unfold emit.
  pose proof (forEachFrom_plain e (length (listeners e st)) 0 st) as Hrun.
  rewrite drop_0, firstn_all in Hrun.
  destruct (Hrun H) as (Hlisteners & _ & Hcalls).
  split; [exact Hcalls | exact Hlisteners].
Qed.

(** X2: [off] removes the first registration of the handler and nothing
    else: the handlers before and after it stay, in order, and the other
    events keep their listeners. *)
Theorem off_removes_first_registration (e : string) (h : Handler)
    (pre post : list Handler) (st : State) :
  listeners e st = (pre ++ h :: post)%list -> ~ In h pre ->
  listeners e (off e h st) = (pre ++ post)%list /\
  forall f, f <> e -> listeners f (off e h st) = listeners f st.
Proof.
  intros Hl Hpre.
  assert (Hm : eventListeners st !! e = Some (pre ++ h :: post)%list).
  { apply listeners_lookup; [exact Hl | destruct pre; discriminate]. }
  rewrite (off_first _ _ _ _ _ Hm Hpre). split.
  - apply listeners_set_same.
  - intros f Hf. apply listeners_set_other. congruence.
Qed.

(** X3: [off] with a handler that is not registered for the event changes
    nothing, and registering a handler that was not registered and removing
    it again gives back the listeners of every event. *)
Theorem off_undoes_on (e : string) (h : Handler) (st : State) :
  ~ In h (listeners e st) ->
  off e h st = st /\
  forall f, listeners f (off e h (on e h st)) = listeners f st.
Proof.
  intros Hn. split.
  - unfold off. unfold listeners in Hn.
    destruct (eventListeners st !! e) as [l |]; [| reflexivity].
    rewrite indexOf_absent by exact Hn. reflexivity.
  - intros f. unfold on.
    assert (Hm : eventListeners (set_listeners e (listeners e st ++ [h]) st) !! e
                 = Some (listeners e st ++ h :: [])%list).
    { simpl. rewrite lookup_insert_eq. reflexivity. }
    rewrite (off_first _ _ _ _ _ Hm Hn). rewrite app_nil_r.
    destruct (decide (e = f)) as [-> | Hne].
    + apply listeners_set_same.
    + rewrite !listeners_set_other by exact Hne. reflexivity.
Qed.

(** X4: a handler registered a second time is called twice by every [emit]:
    registration keeps duplicates. *)
Theorem on_twice_calls_twice (e : string) (i : nat) (t : bool) (st : State) :
  forallb isPlain (listeners e st) = true ->
  calls (emit e (on e (Plain i t) (on e (Plain i t) st)))
    = (calls st ++ ids (listeners e st) ++ [i; i])%list.
Proof.
  intros H.
  set (st2 := on e (Plain i t) (on e (Plain i t) st)).
  assert (Hl : listeners e st2 = (listeners e st ++ [Plain i t; Plain i t])%list).
  { unfold st2, on. rewrite !listeners_set_same. rewrite <- app_assoc. reflexivity. }
  destruct (emit_plain e st2) as [Hc _].
  { rewrite Hl, forallb_app, H. reflexivity. }
  rewrite Hc, Hl, ids_app. reflexivity.
Qed.

(** X5: a handler registered with [once] that returns normally is called by
    the next [emit] of its event and by no later one; the handlers
    registered before it are called both times. *)
Theorem once_handler_called_once (e : string) (i : nat) (st : State) :
  forallb isPlain (listeners e st) = true ->
  calls (emit e (emit e (once e (Plain i false) st)))
    = (calls st ++ (ids (listeners e st) ++ [i]) ++ ids (listeners e st))%list /\
  listeners e (emit e (once e (Plain i false) st)) = listeners e st.
Proof.
  intros H.
  set (st1 := once e (Plain i false) st).
  assert (Hm : eventListeners st1 !! e
               = Some (listeners e st ++ Wrapper e (wrappers st) (Plain i false) :: [])%list).
  { unfold st1, once, on. simpl. rewrite lookup_insert_eq. reflexivity. }
  destruct (emit_around_wrapper e _ i false _ [] st1 Hm H eq_refl) as [Hl Hc].
  rewrite app_nil_r in Hl. simpl in Hc.
  destruct (emit_plain e (emit e st1)) as [Hc2 _].
  { rewrite Hl. exact H. }
  split; [| exact Hl].
  rewrite Hc2, Hl, Hc. unfold st1; simpl. rewrite <- !app_assoc. reflexivity.
Qed.

(** X6: when a [once] handler fires, the listener registered right after it
    is not called by that [emit]: the wrapper removes itself from the array
    that [forEach] is walking, so the next listener moves into the index
    just visited. *)
Theorem once_skips_next_listener (e : string) (n i : nat) (next : Handler)
    (pre post : list Handler) (st : State) :
  listeners e st = (pre ++ Wrapper e n (Plain i false) :: next :: post)%list ->
  forallb isPlain pre = true -> forallb isPlain (next :: post) = true ->
  calls (emit e st) = (calls st ++ ids pre ++ [i] ++ ids post)%list /\
  listeners e (emit e st) = (pre ++ next :: post)%list.
Proof.
  intros Hl Hpre Hpost.
  assert (Hm : eventListeners st !! e
               = Some (pre ++ Wrapper e n (Plain i false) :: next :: post)%list).
  { apply listeners_lookup; [exact Hl | destruct pre; discriminate]. }
  destruct (emit_around_wrapper e n i false pre (next :: post) st Hm Hpre Hpost) as [H1 H2].
  split; [exact H2 | exact H1].
Qed.

(** X7: a [once] handler that throws stays registered: the removal comes
    after the call in the wrapper, so the handler is called again by the
    next [emit]. *)
Theorem once_handler_that_throws_stays (e : string) (i : nat) (st : State) :
  forallb isPlain (listeners e st) = true ->
  let st1 := emit e (once e (Plain i true) st) in
  listeners e st1 = listeners e (once e (Plain i true) st) /\
  calls (emit e st1)
    = (calls st ++ (ids (listeners e st) ++ [i]) ++ (ids (listeners e st) ++ [i]))%list.
Proof.
  intros H st1.
  set (st0 := once e (Plain i true) st) in *.
  assert (Hm : eventListeners st0 !! e
               = Some (listeners e st ++ Wrapper e (wrappers st) (Plain i true) :: [])%list).
  { unfold st0, once, on. simpl. rewrite lookup_insert_eq. reflexivity. }
  assert (Hl0 : listeners e st0
                = (listeners e st ++ Wrapper e (wrappers st) (Plain i true) :: [])%list).
  { unfold listeners at 1. rewrite Hm. reflexivity. }
  destruct (emit_around_wrapper e _ i true _ [] st0 Hm H eq_refl) as [Hl Hc].
  fold st1 in Hl, Hc. simpl in Hc.
  split; [rewrite Hl, Hl0; reflexivity |].
  assert (Hm1 : eventListeners st1 !! e
               = Some (listeners e st ++ Wrapper e (wrappers st) (Plain i true) :: [])%list).
  { apply listeners_lookup; [exact Hl | destruct (listeners e st); discriminate]. }
  destruct (emit_around_wrapper e _ i true _ [] st1 Hm1 H eq_refl) as [_ Hc1].
  rewrite Hc1, Hc. unfold st0; simpl. rewrite <- !app_assoc. reflexivity.
Qed.

End EventEmitter.

(** ** The log handler *)

Section GatewayLogs.

Import Js Handlers.
Local Open Scope string_scope.

Lemma append_assoc (a b c : string) : (a ++ b) ++ c = a ++ (b ++ c).
Proof.
  induction a as [| x a IH]; [reflexivity |].
  change (String x ((a ++ b) ++ c) = String x (a ++ (b ++ c))). rewrite IH; reflexivity.
Qed.

Lemma split_newline_nonempty (s : string) : split_newline s <> [].
Proof.
  induction s as [| c t IH]; simpl; [discriminate |].
  destruct (Ascii.eqb c "010"); [discriminate |].
  destruct (split_newline t); discriminate.
Qed.

(** Joining what [split] gave is the text again. *)
Lemma join_split (s : string) : join_newline (split_newline s) = s.
Proof.
  induction s as [| c t IH]; [reflexivity |].
  simpl. destruct (Ascii.eqb c "010") eqn:E.
  - apply Ascii.eqb_eq in E; subst c.
    pose proof (split_newline_nonempty t) as Hne.
    destruct (split_newline t) as [| l ls] eqn:Es; [contradiction |].
    cbn [join_newline]. cbn [join_newline] in IH. rewrite IH. reflexivity.
  - pose proof (split_newline_nonempty t) as Hne.
    destruct (split_newline t) as [| l ls] eqn:Es; [contradiction |].
    cbn [join_newline]. cbn [join_newline] in IH.
    destruct ls; simpl; rewrite <- IH; reflexivity.
Qed.

Lemma split_newline_pieces (s : string) : forallb noNewline (split_newline s) = true.
Proof.
  induction s as [| c t IH]; [reflexivity |].
  simpl. destruct (Ascii.eqb c "010") eqn:E.
  - simpl. exact IH.
  - destruct (split_newline t) as [| l ls]; simpl; [rewrite E; reflexivity |].
    simpl in IH. rewrite E. exact IH.
Qed.

Lemma split_newline_piece (s : string) : noNewline s = true -> split_newline s = [s].
Proof.
  induction s as [| c t IH]; [reflexivity |].
  simpl. intros H. apply andb_true_iff in H as [Hc Ht].
  apply negb_true_iff in Hc. rewrite Hc, (IH Ht). reflexivity.
Qed.

Lemma split_newline_app (a b : string) :
  noNewline a = true ->
  split_newline (a ++ String "010" b) = a :: split_newline b.
Proof.
  induction a as [| c t IH]; [reflexivity |].
  simpl. intros H. apply andb_true_iff in H as [Hc Ht].
  apply negb_true_iff in Hc. rewrite Hc, (IH Ht). reflexivity.
Qed.

(** Splitting what [join] gave is the list again, for pieces without a
    newline. *)
Lemma split_join (l : list string) :
  l <> [] -> forallb noNewline l = true -> split_newline (join_newline l) = l.
Proof.
  induction l as [| x rest IH]; [contradiction |].
  intros _ H. simpl in H. apply andb_true_iff in H as [Hx Hrest].
  destruct rest as [| y rest'].
  - simpl. apply split_newline_piece; exact Hx.
  - change (join_newline (x :: y :: rest'))
      with (x ++ String "010" (join_newline (y :: rest'))).
    rewrite split_newline_app by exact Hx.
    rewrite IH; [reflexivity | discriminate | exact Hrest].
Qed.

Lemma forallb_drop {A : Type} (p : A -> bool) (n : nat) (l : list A) :
  forallb p l = true -> forallb p (drop n l) = true.
Proof.
  revert n; induction l as [| x l IH]; intros [| n] H; try exact H.
  simpl in H |- *. apply andb_true_iff in H as [_ H]. apply IH; exact H.
Qed.

Lemma slice_last {A : Type} (lines : Z) (l : list A) :
  (0 < lines)%Z ->
  slice_from (- lines) l = drop (length l - Z.to_nat lines) l.
Proof.
  intros H. unfold slice_from.
  destruct (Z.ltb_spec (- lines) 0) as [Hn | Hn]; [| lia].
  f_equal. lia.
Qed.

Lemma join_newline_snoc (l : list string) :
  l <> [] -> join_newline (l ++ [""]) = join_newline l ++ String "010" "".
Proof.
  induction l as [| x rest IH]; [contradiction |]. intros _.
  destruct rest as [| y rest'].
  - reflexivity.
  - change (join_newline ((x :: y :: rest') ++ [""]))
      with (x ++ String "010" (join_newline ((y :: rest') ++ [""]))).
    change (join_newline (x :: y :: rest'))
      with (x ++ String "010" (join_newline (y :: rest'))).
    rewrite IH by discriminate.
    rewrite !append_assoc. reflexivity.
Qed.

Lemma split_newline_snoc (d : string) :
  split_newline (d ++ String "010" "") = (split_newline d ++ [""])%list.
Proof.
  induction d as [| c t IH]; [reflexivity |].
  simpl. destruct (Ascii.eqb c "010"); [rewrite IH; reflexivity |].
  rewrite IH. pose proof (split_newline_nonempty t) as Hne.
  destruct (split_newline t); [contradiction | reflexivity].
Qed.

(** X8: asked for zero lines, or for at least as many lines as the log
    file has, the log handler returns the whole file. *)
Theorem gateway_logs_whole_file (lines : Z) (data : string) :
  lines = 0%Z \/ (Z.of_nat (length (split_newline data)) <= lines)%Z ->
  gateway_logs (Some lines) (ReadData data) = VObj [("logs", VStr data)].
Proof.
  intros H. unfold gateway_logs.
  assert (Hs : slice_from (- lines) (split_newline data) = split_newline data).
  { destruct H as [-> | H].
    - unfold slice_from. simpl. rewrite Z.min_l by lia. reflexivity.
    - pose proof (split_newline_nonempty data) as Hne.
      rewrite slice_last by (destruct (split_newline data); [contradiction | simpl in H; lia]).
      replace (length (split_newline data) - Z.to_nat lines)%nat with 0%nat by lia.
      reflexivity. }
  rewrite Hs, join_split. reflexivity.
Qed.

(** X9: asked for a positive number of lines, the log handler returns text
    whose lines are the last [lines] lines of the file (all of them when the
    file has fewer), a line being a piece between newlines. *)
Theorem gateway_logs_last_lines (lines : Z) (data : string) :
  (0 < lines)%Z ->
  exists logs,
    gateway_logs (Some lines) (ReadData data) = VObj [("logs", VStr logs)] /\
    split_newline logs
      = drop (length (split_newline data) - Z.to_nat lines) (split_newline data).
Proof.
  intros H. unfold gateway_logs. eexists; split; [reflexivity |].
  rewrite slice_last by exact H.
  apply split_join.
  - pose proof (split_newline_nonempty data) as Hne.
    intros Hd. apply (f_equal (@length string)) in Hd. rewrite length_drop in Hd.
    simpl in Hd. destruct (split_newline data); [contradiction | simpl in Hd; lia].
  - apply forallb_drop. apply split_newline_pieces.
Qed.

(** X10: the piece after a final newline counts as a line.  For a log file
    that ends in a newline, one line asked for gives the empty text, and
    [k + 1] lines asked for give what [k] lines give for the file without
    its final newline. *)
Theorem gateway_logs_final_newline (d : string) :
  gateway_logs (Some 1%Z) (ReadData (d ++ String "010" "")) = VObj [("logs", VStr "")] /\
  forall (k : Z) (logs : string), (0 < k)%Z ->
    gateway_logs (Some k) (ReadData d) = VObj [("logs", VStr logs)] ->
    gateway_logs (Some (k + 1)%Z) (ReadData (d ++ String "010" ""))
      = VObj [("logs", VStr (logs ++ String "010" ""))].
Proof.
  pose proof (split_newline_nonempty d) as Hne.
  split.
  - unfold gateway_logs. rewrite split_newline_snoc, slice_last by lia.
    rewrite length_app.
    replace (length (split_newline d) + length [""] - Z.to_nat 1)%nat
      with (length (split_newline d)) by (simpl; lia).
    rewrite drop_app_length. reflexivity.
  - intros k logs Hk. unfold gateway_logs. intros [= <-].
    rewrite split_newline_snoc, !slice_last by lia.
    rewrite length_app.
    replace (length (split_newline d) + length [""] - Z.to_nat (k + 1))%nat
      with (length (split_newline d) - Z.to_nat k)%nat by (simpl; lia).
    rewrite drop_app_le by lia.
    rewrite join_newline_snoc; [reflexivity |].
    intros Hd. apply (f_equal (@length string)) in Hd. rewrite length_drop in Hd.
    simpl in Hd. destruct (split_newline d); [contradiction | simpl in Hd; lia].
Qed.


End GatewayLogs.

(** ** Messaging and spawning, handler and client together *)

Section Messaging.

Import Js Main Handlers Requests.
Local Open Scope string_scope.

Variable JSON_parse : string -> Outcome Value.
Variable toString : Value -> string.

Lemma truthy_text (s : string) : s <> "" -> negb (String.eqb s "") = true.
Proof.
  intros H. apply negb_true_iff. apply String.eqb_neq. exact H.
Qed.

(** X11: [sendMessage] over the [agent:run] handler.  An empty text is
    refused before anything is run; a failure of the CLI is thrown with the
    CLI's message; and every normal exit of the CLI makes [sendMessage]
    return, whatever was printed: output that is not JSON comes back as the
    raw text under a message id made from the clock. *)
Theorem sendMessage_throws_only_for_cli_failure
    (sessionId text : string) (thinking : Value) (child : ChildResult) (now : nat) :
  let reply :=
    sendMessage (agent_run JSON_parse (sendRequest sessionId text thinking) child) now in
  (text = "" -> reply = Throws "Message is required") /\
  (text <> "" ->
     (forall e, e <> "" -> child = ChildError e -> reply = Throws e) /\
     (forall out, child = ChildExit out ->
        (exists r, reply = Returns r) /\
        (forall m, JSON_parse (if String.eqb out "" then "{}" else out) = Throws m ->
           reply = Returns (VObj [("messageId", VStr (indexKey now));
                                  ("result", VStr out)])))).
Proof.
  intros reply. unfold reply. split.
  - intros ->. reflexivity.
  - intros Ht. destruct text as [| c text']; [contradiction |]. split.
    + intros e He ->. destruct e as [| d e']; [contradiction |]. reflexivity.
    + intros out ->. unfold sendMessage, agent_run, sendRequest.
      cbn [or_else truthy member lookupField String.eqb Ascii.eqb Bool.eqb negb
           execOpenClaw error stdout present or_text prop].
      destruct out as [| d out'].
      * cbn [String.eqb negb]. split.
        -- destruct (JSON_parse "{}"); eexists; reflexivity.
        -- intros m Hm. rewrite Hm. reflexivity.
      * cbn [String.eqb negb]. split.
        -- destruct (JSON_parse (String d out')); eexists; reflexivity.
        -- intros m Hm. rewrite Hm. reflexivity.
Qed.

(** X12: a session spawned from Mission Control is never recorded in the
    session hierarchy.  The reply of the [agent:spawn] handler has no
    [sessionKey], so what [spawnSession] returns has none, and [handleSpawn]
    calls [addSpawn] only with one. *)
Theorem spawned_session_is_never_recorded
    (args : Value) (child : SpawnResult) (res : Value)
    (sessions : list Value) (spawnLabel : string) :
  spawnSession toString (agent_spawn args child) = Returns res ->
  member "sessionKey" res = VUndefined /\
  forall call, MissionControl.recordedSpawn sessions res spawnLabel <> Returns (Some call).
Proof.
  intros H.
  assert (Hk : member "sessionKey" res = VUndefined).
  { unfold spawnSession, agent_spawn in H.
    destruct (negb (truthy (member "message" (or_else args (VObj []))))).
    - discriminate.
    - destruct child as [pid | m]; [| discriminate].
      cbn in H. injection H as <-. reflexivity. }
  split; [exact Hk |].
  intros call. unfold MissionControl.recordedSpawn. rewrite Hk.
  destruct (MissionControl.findHeadMain sessions) as [p | m]; [| discriminate].
  cbn [truthy]. rewrite andb_false_r. discriminate.
Qed.

End Messaging.

(** ** Mission Control: sessions by agent *)

Section Grouping.

Import Js MissionControl.
Local Open Scope string_scope.

Lemma untilColon_spec (s : string) :
  s = fst (untilColon s) ++ snd (untilColon s) /\
  noColon (fst (untilColon s)) = true /\
  (snd (untilColon s) = "" \/ exists t, snd (untilColon s) = String ":" t).
Proof.
  induction s as [| c t IH]; simpl.
  - repeat split. left; reflexivity.
  - destruct (Ascii.eqb c ":") eqn:E.
    + apply Ascii.eqb_eq in E; subst c. simpl. repeat split.
      right; eexists; reflexivity.
    + destruct (untilColon t) as [a rest]. simpl in IH |- *.
      destruct IH as (H1 & H2 & H3). rewrite E, H2. repeat split; [| exact H3].
      change (String c t = String c (a ++ rest)). rewrite <- H1. reflexivity.
Qed.

Lemma untilColon_app (a rest : string) :
  noColon a = true -> untilColon (a ++ String ":" rest) = (a, String ":" rest).
Proof.
  induction a as [| c t IH]; [reflexivity |].
  simpl. intros H. apply andb_true_iff in H as [Hc Ht]. apply negb_true_iff in Hc.
  change (untilColon (String c (t ++ String ":" rest)) = (String c t, String ":" rest)).
  simpl. rewrite Hc, (IH Ht). reflexivity.
Qed.

Lemma startsWith_app (p s : string) : startsWith (p ++ s) p = true.
Proof.
  induction p as [| c p IH]; [destruct s; reflexivity |].
  change (startsWith (String c (p ++ s)) (String c p) = true).
  simpl. rewrite Ascii.eqb_refl, IH. reflexivity.
Qed.

Lemma startsWith_split (p s : string) :
  startsWith s p = true -> s = p ++ substring (String.length p) s.
Proof.
  revert s; induction p as [| c p IH]; intros s H.
  - reflexivity.
  - destruct s as [| d s]; [discriminate |]. simpl in H.
    apply andb_true_iff in H as [Hc Hs]. apply Ascii.eqb_eq in Hc; subst d.
    change (String c s = String c (p ++ substring (String.length p) s)).
    rewrite <- (IH s Hs). reflexivity.
Qed.

(** X13: the agent of a session key.  The pattern [/^agent:([^:]+):/]
    matches exactly the keys ["agent:" ++ id ++ ":" ++ rest] with [id] not
    empty and free of colons, and the group is that [id]; every other key
    is filed under ["unknown"]. *)
Theorem matchAgent_reads_the_agent_id (key id : string) :
  matchAgent key = Some id <->
  id <> "" /\ noColon id = true /\ exists rest, key = "agent:" ++ id ++ String ":" rest.
Proof.
  unfold matchAgent. split.
  - destruct (startsWith key "agent:") eqn:Hs; [| discriminate].
    apply startsWith_split in Hs. change (String.length "agent:") with 6%nat in Hs.
    set (tail := substring 6 key) in *.
    destruct (untilColon_spec tail) as (H1 & H2 & H3).
    destruct (untilColon tail) as [a rest]. simpl in H1, H2, H3.
    destruct (negb (String.eqb a "")) eqn:Ha; [| discriminate].
    destruct (startsWith rest ":") eqn:Hr; [| discriminate].
    simpl. intros [= <-]. apply negb_true_iff, String.eqb_neq in Ha.
    repeat split; [exact Ha | exact H2 |].
    destruct H3 as [-> | [t ->]]; [discriminate |].
    exists t. rewrite Hs, H1. reflexivity.
  - intros (Hne & Hc & rest & ->).
    rewrite startsWith_app.
    change (substring 6 ("agent:" ++ id ++ String ":" rest)) with (id ++ String ":" rest).
    rewrite (untilColon_app _ _ Hc).
    apply String.eqb_neq in Hne. rewrite Hne. destruct rest; reflexivity.
Qed.

Lemma agentIdOf_ofAgent (s : Value) (a b : string) :
  agentIdOf s = Returns a -> ofAgent b s = String.eqb b a.
Proof. unfold ofAgent. intros ->. reflexivity. Qed.

(** The loop keeps the groups the sessions seen so far fall into. *)
Lemma groupFrom_spec (sessions : list Value) :
  forall groups groups',
  groupFrom groups sessions = Returns groups' ->
  (forall a, groups !! a <> Some []) ->
  forall a,
    groups' !! a <> Some [] /\
    default [] (groups' !! a)
      = (default [] (groups !! a) ++ List.filter (ofAgent a) sessions)%list.
Proof.
  induction sessions as [| s rest IH]; intros groups groups' H Hne a.
  - simpl in H. injection H as <-. split; [apply Hne |]. simpl. rewrite app_nil_r. reflexivity.
  - simpl in H. destruct (groupSession groups s) as [g1 |] eqn:Hg; [| discriminate].
    unfold groupSession in Hg.
    destruct (agentIdOf s) as [b |] eqn:Hb; [| discriminate].
    assert (Hg1 : g1 = <[b := (default [] (groups !! b) ++ [s])%list]> groups).
    { destruct (groups !! b) as [l |]; simpl.
      - injection Hg as <-. reflexivity.
      - destruct (inherited b); [discriminate |]. injection Hg as <-. reflexivity. }
    assert (Hne1 : forall c, g1 !! c <> Some []).
    { intros c. rewrite Hg1. destruct (decide (b = c)) as [-> | Hbc].
      - rewrite lookup_insert_eq. intros [= Hx]. destruct (default [] (groups !! c)); discriminate.
      - rewrite lookup_insert_ne by exact Hbc. apply Hne. }
    destruct (IH g1 groups' H Hne1 a) as [H1 H2]. split; [exact H1 |].
    rewrite H2, Hg1. simpl. rewrite (agentIdOf_ofAgent _ _ a Hb).
    destruct (String.eqb_spec a b) as [-> | Hab].
    + rewrite lookup_insert_eq. simpl. rewrite <- app_assoc. reflexivity.
    + rewrite lookup_insert_ne by congruence. reflexivity.
Qed.

(** X14: when the grouping of Mission Control succeeds, the group of an
    agent holds exactly the sessions of that agent, in the order of the
    session list, and an agent without a session has no group. *)
Theorem sessionsByAgent_groups_by_agent
    (sessions : list Value) (groups : gmap string (list Value)) (a : string) :
  sessionsByAgent sessions = Returns groups ->
  groups !! a
    = match List.filter (ofAgent a) sessions with
      | [] => None
      | l => Some l
      end.
Proof.
  intros H. unfold sessionsByAgent in H.
  destruct (groupFrom_spec sessions ∅ groups H) with (a := a) as [H1 H2].
  { intros c. rewrite lookup_empty. discriminate. }
  rewrite lookup_empty in H2. simpl in H2.
  destruct (groups !! a) as [l |]; simpl in H2.
  - rewrite <- H2. destruct l; [contradiction | reflexivity].
  - rewrite <- H2. reflexivity.
Qed.

Lemma groupFrom_throws (sessions : list Value) :
  forall groups,
  (forall a l, groups !! a = Some l -> inherited a = false) ->
  (exists m, groupFrom groups sessions = Throws m) <->
  Exists (fun s => match agentIdOf s with
                   | Returns a => inherited a = true
                   | Throws _ => True
                   end) sessions.
Proof.
  induction sessions as [| s rest IH]; intros groups Hg.
  - simpl. split; [intros [m H]; discriminate | intros H; inversion H].
  - simpl. unfold groupSession.
    destruct (agentIdOf s) as [b |] eqn:Hb.
    + destruct (groups !! b) as [l |] eqn:Hl.
      * rewrite IH.
        -- split; [intros H; right; exact H |].
           intros H. inversion H as [? ? Hs | ? ? Hr]; subst; [| exact Hr].
           rewrite Hb in Hs. rewrite (Hg _ _ Hl) in Hs. discriminate.
        -- intros c l'. destruct (decide (b = c)) as [-> | Hbc].
           ++ intros _. exact (Hg _ _ Hl).
           ++ rewrite lookup_insert_ne by exact Hbc. apply Hg.
      * destruct (inherited b) eqn:Hi.
        -- split; [| intros _; eexists; reflexivity].
           intros _. left. rewrite Hb. exact Hi.
        -- rewrite IH.
           ++ split; [intros H; right; exact H |].
              intros H. inversion H as [? ? Hs | ? ? Hr]; subst; [| exact Hr].
              rewrite Hb in Hs. congruence.
           ++ intros c l'. destruct (decide (b = c)) as [-> | Hbc].
              ** intros _. exact Hi.
              ** rewrite lookup_insert_ne by exact Hbc. apply Hg.
    + split; [| intros _; eexists; reflexivity].
      intros _. left. rewrite Hb. exact I.
Qed.

(** X15: the grouping of Mission Control throws, and the page with it,
    exactly when some session has a key that is neither missing nor a
    string, or names an agent after a property every object inherits
    ([constructor], [toString], ...). *)
Theorem sessionsByAgent_throws_on_inherited_names (sessions : list Value) :
  (exists m, sessionsByAgent sessions = Throws m) <->
  Exists (fun s => match agentIdOf s with
                   | Returns a => inherited a = true
                   | Throws _ => True
                   end) sessions.
Proof.
  unfold sessionsByAgent. apply groupFrom_throws.
  intros a l. rewrite lookup_empty. discriminate.
Qed.

End Grouping.

(** ** The listing parser: all records *)

Section ListingRecords.

Import Js Main Records.
Local Open Scope string_scope.

Lemma openAgent_record (trimmed : string) : agentRecord (VObj (openAgent trimmed)).
Proof. unfold openAgent. eexists _, _, _, _. reflexivity. Qed.

Lemma readField_record (trimmed : string) (a : list (string * Value)) :
  agentRecord (VObj a) -> agentRecord (VObj (readField trimmed a)).
Proof.
  intros (name & d & w & m & [= ->]). unfold readField.
  destruct (startsWith trimmed "Workspace:"); [eexists _, _, _, _; reflexivity |].
  destruct (startsWith trimmed "Model:"); eexists _, _, _, _; reflexivity.
Qed.

Lemma pushCurrent_length (st : Listing) :
  length (pushCurrent st)
    = (length (fst st) + match snd st with Some _ => 1 | None => 0 end)%nat.
Proof.
  unfold pushCurrent. destruct (snd st); [rewrite length_app; reflexivity | lia].
Qed.

Lemma parseLine_spec (st : Listing) (line : string) :
  Forall agentRecord (fst st) ->
  (forall a, snd st = Some a -> agentRecord (VObj a)) ->
  Forall agentRecord (fst (parseLine st line)) /\
  (forall a, snd (parseLine st line) = Some a -> agentRecord (VObj a)) /\
  length (pushCurrent (parseLine st line))
    = (length (pushCurrent st) + if isMarker line then 1 else 0)%nat.
Proof.
  intros Hagents Hcur. unfold parseLine, isMarker.
  destruct (startsWith (trim line) "- ") eqn:Hm.
  - cbn [fst snd]. repeat split.
    + unfold pushCurrent. destruct (snd st) as [a |] eqn:Ha; [| exact Hagents].
      apply Forall_app. split; [exact Hagents |]. constructor; [| constructor].
      apply Hcur. reflexivity.
    + intros a [= <-]. apply openAgent_record.
    + rewrite pushCurrent_length. cbn [fst snd]. lia.
  - destruct st as [agents [a |]]; cbn [fst snd] in *.
    + repeat split; [exact Hagents | | ].
      * intros b [= <-]. apply readField_record. apply Hcur. reflexivity.
      * rewrite !pushCurrent_length. cbn [fst snd]. lia.
    + repeat split; [exact Hagents | exact Hcur | lia].
Qed.

Lemma parseLines_spec (lines : list string) : forall st : Listing,
  Forall agentRecord (fst st) ->
  (forall a, snd st = Some a -> agentRecord (VObj a)) ->
  let final := fold_left parseLine lines st in
  Forall agentRecord (pushCurrent final) /\
  length (pushCurrent final)
    = (length (pushCurrent st) + length (List.filter isMarker lines))%nat.
Proof.
  induction lines as [| l rest IH]; intros st Hagents Hcur; cbn [fold_left List.filter].
  - split; [| simpl; lia]. unfold pushCurrent.
    destruct (snd st) as [a |] eqn:Ha; [| exact Hagents].
    apply Forall_app. split; [exact Hagents |]. constructor; [| constructor].
    apply Hcur. reflexivity.
  - destruct (parseLine_spec st l Hagents Hcur) as (H1 & H2 & H3).
    destruct (IH (parseLine st l) H1 H2) as [G1 G2].
    split; [exact G1 |]. cbv zeta in G2. rewrite G2, H3.
    destruct (isMarker l); simpl; lia.
Qed.

(** X16: the listing parser yields one record for each marker line, no
    more and no less, and every record has the five fields [id], [name],
    [isDefault], [workspace] and [model], in this order, with [id] and
    [name] the same string. *)
Theorem parseAgents_one_record_per_marker (text : string) :
  length (parseAgents text) = length (List.filter isMarker (split_newline text)) /\
  Forall agentRecord (parseAgents text).
Proof.
  unfold parseAgents, parseLines.
  destruct (parseLines_spec (split_newline text) ([], None)) as [H1 H2].
  - constructor.
  - intros a H. discriminate.
  - split; [exact H2 | exact H1].
Qed.

Lemma readField_unrecognized (line : string) (a : list (string * Value)) :
  recognized line = false -> readField (trim line) a = a.
Proof.
  unfold recognized, readField. intros H.
  apply orb_false_iff in H as [H Hm]. apply orb_false_iff in H as [_ Hw].
  rewrite Hw, Hm. reflexivity.
Qed.

Lemma parseLine_unrecognized (st : Listing) (line : string) :
  recognized line = false -> parseLine st line = st.
Proof.
  intros H. unfold parseLine. pose proof H as H'. unfold recognized in H'.
  apply orb_false_iff in H' as [H' _]. apply orb_false_iff in H' as [Hk _].
  rewrite Hk. destruct st as [agents [a |]]; cbn [fst snd]; [| reflexivity].
  rewrite readField_unrecognized by exact H. reflexivity.
Qed.

Lemma fold_recognized (lines : list string) : forall st : Listing,
  fold_left parseLine (List.filter recognized lines) st = fold_left parseLine lines st.
Proof.
  induction lines as [| l rest IH]; intros st; [reflexivity |].
  cbn [List.filter fold_left]. destruct (recognized l) eqn:E.
  - cbn [fold_left]. apply IH.
  - rewrite (parseLine_unrecognized st l E). apply IH.
Qed.

Lemma fold_preface (before : list string) :
  Forall (fun l => isMarker l = false) before ->
  fold_left parseLine before (([], None) : Listing) = ([], None).
Proof.
  induction 1 as [| l rest Hl Hrest IH]; [reflexivity |].
  cbn [fold_left]. unfold parseLine at 2. unfold isMarker in Hl. rewrite Hl.
  cbn [snd]. exact IH.
Qed.

(** X17: the listing parser ignores every line that is neither a marker
    nor a workspace or model line, wherever it stands, and every line
    before the first marker, whatever it says. *)
Theorem parseLines_ignores_other_lines (lines : list string) :
  parseLines (List.filter recognized lines) = parseLines lines /\
  forall before rest,
    lines = (before ++ rest)%list -> Forall (fun l => isMarker l = false) before ->
    parseLines lines = parseLines rest.
Proof.
  split.
  - unfold parseLines. rewrite fold_recognized. reflexivity.
  - intros before rest -> Hb. unfold parseLines.
    rewrite fold_left_app, (fold_preface before Hb). reflexivity.
Qed.

End ListingRecords.

(** ** Sessions: what the normalization keeps, and the shapes it accepts *)

Section SessionLists.

Import Js Main Client.
Local Open Scope string_scope.

Variable JSON_parse : string -> Outcome Value.

Lemma setField_present (k : string) (v : Value) (fields : list (string * Value)) :
  lookupField k fields = Some v -> setField k v fields = fields.
Proof.
  induction fields as [| [k' v'] rest IH]; simpl; [discriminate |].
  destruct (String.eqb_spec k k') as [-> | Hne].
  - intros [= ->]. reflexivity.
  - intros H. rewrite (IH H). reflexivity.
Qed.

(** X18: the normalization of a session object keeps every field other
    than [key] and [sessionKey] as it is, and normalizing a second time
    changes nothing. *)
Theorem normalizeSession_keeps_other_fields (fields : list (string * Value)) :
  exists r,
    normalizeSession (VObj fields) = Returns r /\
    (forall k, k <> "key" -> k <> "sessionKey" -> member k r = member k (VObj fields)) /\
    normalizeSession r = Returns r.
Proof.
  eexists. split; [reflexivity |].
  set (v := or_else (member "key" (VObj fields)) (member "sessionKey" (VObj fields))).
  cbn [spread]. split.
  - intros k Hk Hs. cbn [member].
    rewrite !lookupField_setField_other by assumption. reflexivity.
  - unfold normalizeSession. cbn [spread member].
    rewrite lookupField_setField_same.
    rewrite lookupField_setField_other by discriminate.
    rewrite lookupField_setField_same.
    assert (Hv : or_else v v = v) by (unfold or_else; destruct (truthy v); reflexivity).
    rewrite Hv.
    rewrite (setField_present "sessionKey" v).
    + rewrite (setField_present "key" v); [reflexivity |].
      apply lookupField_setField_same.
    + rewrite lookupField_setField_other by discriminate.
      apply lookupField_setField_same.
Qed.

(** X19: [listSessions] on what [sessions:list] answers for a CLI that
    exits normally with a JSON document.  A bare array of sessions and an
    object with the array under [sessions] are read alike; an object
    without [sessions], such as the [{}] that stands in for empty output,
    makes [listSessions] throw instead of giving the empty list. *)
Theorem listSessions_accepts_two_shapes (out : string) (doc : Value) :
  JSON_parse (if String.eqb out "" then "{}" else out) = Returns doc ->
  let sessions := listSessions (sessions_list JSON_parse (ChildExit out)) in
  (forall items, doc = VArr items -> sessions = mapOutcome normalizeSession items) /\
  (forall fields items,
     doc = VObj fields -> lookupField "sessions" fields = Some (VArr items) ->
     sessions = mapOutcome normalizeSession items) /\
  (forall fields,
     doc = VObj fields -> truthy (member "sessions" doc) = false ->
     exists message, sessions = Throws message).
Proof.
  intros Hparse sessions. unfold sessions, sessions_list, execOpenClaw.
  cbn [error stdout present prop or_text]. rewrite Hparse.
  unfold listSessions, innerSessions. cbn [member lookupField String.eqb Ascii.eqb Bool.eqb
                                          truthy negb].
  repeat split.
  - intros items ->. reflexivity.
  - intros fields items -> Hl. cbn [member]. rewrite Hl. reflexivity.
  - intros fields -> Hf. cbn [member] in Hf |- *.
    destruct (lookupField "sessions" fields) as [s |]; cbn [or_else truthy].
    + unfold or_else. rewrite Hf. cbn [truthy]. eexists; reflexivity.
    + eexists; reflexivity.
Qed.

End SessionLists.

(** ** The session hierarchy: what [addSpawn] changes and keeps *)

Section HierarchyInvariants.

Import SessionContext Hierarchy.
Local Open Scope string_scope.

Lemma addSpawn_other (parent child : string) (lbl : option string)
    (prev : gmap string Entry) (k : string) :
  k <> parent -> k <> child -> addSpawn parent child lbl prev !! k = prev !! k.
Proof.
  intros Hp Hc. unfold addSpawn.
  destruct (decide (parent = child)) as [<- | Hne].
  - destruct (prev !! parent) as [e |] eqn:E; simplify_map_eq;
      try case_bool_decide; simplify_map_eq; reflexivity.
  - destruct (prev !! parent) as [e |] eqn:E; destruct (prev !! child) as [e' |] eqn:E';
      simplify_map_eq; try case_bool_decide; simplify_map_eq; reflexivity.
Qed.

Lemma addSpawn_child_entry (parent child : string) (lbl : option string)
    (prev : gmap string Entry) :
  parent <> child ->
  exists ec, addSpawn parent child lbl prev !! child = Some ec /\
             childIds ec = getChildren prev child.
Proof.
  intros Hne. unfold addSpawn, getChildren.
  destruct (prev !! parent) as [e |] eqn:E; destruct (prev !! child) as [e' |] eqn:E';
    simplify_map_eq; try case_bool_decide; simplify_map_eq; eexists; split; reflexivity.
Qed.

Lemma addSpawn_parent_entry (parent child : string) (lbl : option string)
    (prev : gmap string Entry) :
  parent <> child ->
  exists ep, addSpawn parent child lbl prev !! parent = Some ep /\
             parentId ep = getParent prev parent.
Proof.
  intros Hne. unfold addSpawn, getParent.
  destruct (prev !! parent) as [e |] eqn:E; destruct (prev !! child) as [e' |] eqn:E';
    simplify_map_eq; try case_bool_decide; simplify_map_eq; eexists; split; reflexivity.
Qed.

Lemma getChildren_addSpawn (parent child : string) (lbl : option string)
    (prev : gmap string Entry) (k : string) :
  getChildren (addSpawn parent child lbl prev) k =
    if bool_decide (k = parent /\ child ∉ getChildren prev parent)
    then (getChildren prev k ++ [child])%list else getChildren prev k.
Proof.
  destruct (decide (k = parent)) as [-> | Hp].
  - destruct (addSpawn_entries parent child lbl prev) as (ep & ec & Hep & _ & _ & _ & Hch).
    unfold getChildren at 1. rewrite Hep, Hch.
    case_bool_decide as H1; case_bool_decide as H2; try reflexivity; tauto.
  - rewrite bool_decide_eq_false_2 by tauto.
    destruct (decide (k = child)) as [-> | Hc].
    + destruct (addSpawn_child_entry parent child lbl prev) as (ec & Hec & Hch);
        [congruence |].
      unfold getChildren at 1. rewrite Hec. exact Hch.
    + unfold getChildren. rewrite addSpawn_other by assumption. reflexivity.
Qed.

Lemma getParent_addSpawn (parent child : string) (lbl : option string)
    (prev : gmap string Entry) (k : string) :
  getParent (addSpawn parent child lbl prev) k =
    if bool_decide (k = child) then Some parent else getParent prev k.
Proof.
  destruct (decide (k = child)) as [-> | Hc].
  - rewrite bool_decide_eq_true_2 by reflexivity.
    destruct (addSpawn_entries parent child lbl prev) as (ep & ec & _ & Hec & Hpar & _).
    unfold getParent. rewrite Hec. exact Hpar.
  - rewrite bool_decide_eq_false_2 by exact Hc.
    destruct (decide (k = parent)) as [-> | Hp].
    + destruct (addSpawn_parent_entry parent child lbl prev) as (ep & Hep & Hpar);
        [congruence |].
      unfold getParent at 1. rewrite Hep. exact Hpar.
    + unfold getParent. rewrite addSpawn_other by assumption. reflexivity.
Qed.

(** X20: for ordinary ids, [addSpawn] changes the recorded parent of the
    child and of no other session, and the child list of the parent and of
    no other session; that list gets the child appended when it did not
    name it, and nothing is ever removed from a list. *)
Theorem addSpawn_changes_only_child_and_parent
    (parent child : string) (lbl : option string) (prev : gmap string Entry) :
  ordinary parent = true -> ordinary child = true ->
  let updated := addSpawn parent child lbl prev in
  (forall k, k <> child -> getParent updated k = getParent prev k) /\
  (forall k, k <> parent -> getChildren updated k = getChildren prev k) /\
  (forall k, exists more, getChildren updated k = (getChildren prev k ++ more)%list) /\
  getChildren updated parent =
    (if bool_decide (child ∈ getChildren prev parent) then getChildren prev parent
     else getChildren prev parent ++ [child])%list.
Proof.
  intros _ _ updated. unfold updated. repeat split.
  - intros k Hk. rewrite getParent_addSpawn. rewrite bool_decide_eq_false_2 by exact Hk.
    reflexivity.
  - intros k Hk. rewrite getChildren_addSpawn. rewrite bool_decide_eq_false_2 by tauto.
    reflexivity.
  - intros k. rewrite getChildren_addSpawn. case_bool_decide.
    + exists [child]. reflexivity.
    + exists []. rewrite app_nil_r. reflexivity.
  - rewrite getChildren_addSpawn. case_bool_decide as H1; case_bool_decide as H2;
      try reflexivity; tauto.
Qed.

(** X21: moving a child to another parent leaves it in the list of the old
    one.  For ordinary ids, after [addSpawn p c] and then [addSpawn q c]
    the child records [q] as its parent and is listed under both [p] and
    [q]. *)
Theorem addSpawn_reparenting_keeps_old_listing
    (p q child : string) (lbl lbl' : option string) (prev : gmap string Entry) :
  ordinary p = true -> ordinary q = true -> ordinary child = true ->
  p <> q ->
  let moved := addSpawn q child lbl' (addSpawn p child lbl prev) in
  getParent moved child = Some q /\
  child ∈ getChildren moved q /\
  child ∈ getChildren moved p.
Proof.
  intros _ _ _ Hpq moved. unfold moved. repeat split.
  - rewrite getParent_addSpawn. rewrite bool_decide_eq_true_2 by reflexivity. reflexivity.
  - rewrite getChildren_addSpawn. case_bool_decide as H.
    + apply elem_of_app. right. apply list_elem_of_singleton. reflexivity.
    + destruct (decide (child ∈ getChildren (addSpawn p child lbl prev) q)) as [Hin | Hout];
        [exact Hin | tauto].
  - rewrite getChildren_addSpawn. rewrite bool_decide_eq_false_2 by tauto.
    rewrite getChildren_addSpawn. case_bool_decide as H.
    + apply elem_of_app. right. apply list_elem_of_singleton. reflexivity.
    + destruct (decide (child ∈ getChildren prev p)) as [Hin | Hout]; [exact Hin | tauto].
Qed.

(** The mappings in which every recorded parent lists its child and no
    list names a session twice. *)
Lemma addSpawn_consistent (parent child : string) (lbl : option string)
    (prev : gmap string Entry) :
  (forall c p, getParent prev c = Some p -> c ∈ getChildren prev p) ->
  (forall k, NoDup (getChildren prev k)) ->
  (forall c p, getParent (addSpawn parent child lbl prev) c = Some p ->
               c ∈ getChildren (addSpawn parent child lbl prev) p) /\
  (forall k, NoDup (getChildren (addSpawn parent child lbl prev) k)).
Proof.
  intros Hpar Hnd. split.
  - intros c p. rewrite getParent_addSpawn, getChildren_addSpawn.
    case_bool_decide as Hc.
    + intros [= <-]. subst c. case_bool_decide as H.
      * apply elem_of_app. right. apply list_elem_of_singleton. reflexivity.
      * destruct (decide (child ∈ getChildren prev parent)); [assumption | tauto].
    + intros Hp. apply Hpar in Hp. case_bool_decide; [| exact Hp].
      apply elem_of_app. left. exact Hp.
  - intros k. rewrite getChildren_addSpawn. case_bool_decide as H; [| apply Hnd].
    destruct H as [-> Hout]. apply NoDup_app. split; [apply Hnd |]. split.
    + intros x Hx Hx'. apply list_elem_of_singleton in Hx'. subst x. contradiction.
    + apply NoDup_singleton.
Qed.

(** X22: in a mapping built by [addSpawn] alone, from the empty mapping
    and with ordinary ids, the session a child records as its parent lists
    that child, and no child list names a session twice. *)
Theorem hierarchy_parent_lists_child (calls : list Call) :
  ordinaryCalls calls ->
  let mapping := after calls ∅ in
  (forall c p, getParent mapping c = Some p -> c ∈ getChildren mapping p) /\
  (forall k, NoDup (getChildren mapping k)).
Proof.
  intros _ mapping. unfold mapping, after.
  assert (Hgen : forall start : gmap string Entry,
    (forall c p, getParent start c = Some p -> c ∈ getChildren start p) ->
    (forall k, NoDup (getChildren start k)) ->
    (forall c p, getParent (after calls start) c = Some p ->
                 c ∈ getChildren (after calls start) p) /\
    (forall k, NoDup (getChildren (after calls start) k))).
  { induction calls as [| [[p c] l] rest IH]; intros start H1 H2.
    - split; assumption.
    - unfold after. simpl. destruct (addSpawn_consistent p c l start H1 H2) as [G1 G2].
      exact (IH _ G1 G2). }
  apply Hgen.
  - intros c p. unfold getParent. rewrite lookup_empty. discriminate.
  - intros k. unfold getChildren. rewrite lookup_empty. apply NoDup_nil_2.
Qed.

End HierarchyInvariants.

(** ** The connection state machine: invariants *)

Section Invariants.

Import Js Connection Schedule.
Local Open Scope string_scope.

#[local] Arguments Nat.leb : simpl never.
#[local] Arguments maxReconnectAttempts : simpl never.

Variable backoff : nat -> Q -> Z.

Hypothesis backoff_within : forall (k : nat) (r : Q),
  (k < maxReconnectAttempts)%nat -> (0 <= r)%Q -> (r < 1)%Q -> within (S k) (backoff k r).

Lemma within_range (k : nat) (d : Z) :
  (1 <= k <= maxReconnectAttempts)%nat -> within k d -> (750 <= d <= 20000)%Z.
Proof.
  unfold within, maxReconnectAttempts. intros Hk H.
  assert (Hc : k = 1%nat \/ k = 2%nat \/ k = 3%nat \/ k = 4%nat \/ k = 5%nat) by lia.
  destruct Hc as [-> | [-> | [-> | [-> | ->]]]]; simpl in H; lia.
Qed.

Lemma Forall_withoutTimeout (P : TimerId * Z -> Prop) (id : TimerId) (l : list (TimerId * Z)) :
  Forall P l -> Forall P (withoutTimeout id l).
Proof.
  unfold withoutTimeout. induction 1 as [| x l Hx Hl IH]; simpl; [constructor |].
  match goal with |- context [if ?c then _ else _] => destruct c end;
    [constructor; assumption | assumption].
Qed.

Lemma Forall_snoc {A : Type} (P : A -> Prop) (l : list A) (x : A) :
  Forall P l -> P x -> Forall P (l ++ [x]).
Proof. intros Hl Hx. apply Forall_app. split; [exact Hl | constructor; [exact Hx | constructor]]. Qed.

Lemma attemptReconnect_bounded (o : Oracle) (rt : Runtime) :
  (0 <= random o)%Q -> (random o < 1)%Q ->
  bounded rt -> bounded (attemptReconnect backoff o rt).
Proof.
  intros H0 H1 (Hra & Hto & Hem). unfold attemptReconnect.
  destruct (isManualDisconnect (client rt)); [repeat split; assumption |].
  destruct (Nat.leb maxReconnectAttempts (reconnectAttempts (client rt))) eqn:Hleb.
  - repeat split; cbn; try assumption. apply Forall_snoc; [exact Hem | exact I].
  - apply Nat.leb_gt in Hleb.
    pose proof (backoff_within _ _ Hleb H0 H1) as Hw.
    cbn. repeat split; cbn.
    + lia.
    + apply Forall_snoc; [exact Hto |]. cbn.
      apply (within_range (S (reconnectAttempts (client rt)))); [lia | exact Hw].
    + apply Forall_snoc; [exact Hem |]. cbn. split; [lia |]. split; [reflexivity | exact Hw].
Qed.

Lemma stopHeartbeat_same (rt : Runtime) :
  reconnectAttempts (client (stopHeartbeat rt)) = reconnectAttempts (client rt) /\
  timeouts (stopHeartbeat rt) = timeouts rt /\
  emitted (stopHeartbeat rt) = emitted rt /\
  isManualDisconnect (client (stopHeartbeat rt)) = isManualDisconnect (client rt) /\
  reconnectTimer (client (stopHeartbeat rt)) = reconnectTimer (client rt).
Proof. unfold stopHeartbeat. destruct (heartbeatTimer (client rt)); repeat split. Qed.

Lemma bounded_same (rt rt' : Runtime) :
  reconnectAttempts (client rt') = reconnectAttempts (client rt) ->
  timeouts rt' = timeouts rt -> emitted rt' = emitted rt ->
  bounded rt -> bounded rt'.
Proof. unfold bounded. intros -> -> ->. exact (fun H => H). Qed.

Lemma stopHeartbeat_bounded (rt : Runtime) : bounded rt -> bounded (stopHeartbeat rt).
Proof.
  destruct (stopHeartbeat_same rt) as (H1 & H2 & H3 & _). apply bounded_same; assumption.
Qed.

Lemma startHeartbeat_bounded (rt : Runtime) : bounded rt -> bounded (startHeartbeat rt).
Proof.
  intros H. apply stopHeartbeat_bounded in H. unfold startHeartbeat. cbn. exact H.
Qed.

(** A step that resets the attempts, cancels the held timer, or emits an
    event other than [reconnecting] keeps the bounds. *)
Lemma bounded_reset (rt : Runtime) : bounded rt -> bounded (update (set_reconnectAttempts 0) rt).
Proof. intros (_ & H2 & H3). repeat split; cbn; [lia | exact H2 | exact H3]. Qed.

Lemma bounded_update (f : GatewayClient -> GatewayClient) (rt : Runtime) :
  (forall c, reconnectAttempts (f c) = reconnectAttempts c) ->
  bounded rt -> bounded (update f rt).
Proof. intros Hf (H1 & H2 & H3). repeat split; cbn; [rewrite Hf; exact H1 | exact H2 | exact H3]. Qed.

Lemma bounded_emit (e : Emitted) (rt : Runtime) :
  announcedWithin e -> bounded rt -> bounded (emit e rt).
Proof.
  intros He (H1 & H2 & H3). repeat split; cbn; [exact H1 | exact H2 |].
  apply Forall_snoc; assumption.
Qed.

Lemma bounded_clearTimeout (id : TimerId) (rt : Runtime) :
  bounded rt -> bounded (clearTimeout id rt).
Proof.
  intros (H1 & H2 & H3). repeat split; cbn; [exact H1 | | exact H3].
  apply Forall_withoutTimeout. exact H2.
Qed.

Lemma bounded_inFlight (n m : nat) (rt : Runtime) :
  bounded rt -> bounded (set_probesInFlight m (set_connectsInFlight n rt)).
Proof. exact (fun H => H). Qed.

Lemma connect_catch_bounded (message : string) (o : Oracle) (rt : Runtime) :
  (0 <= random o)%Q -> (random o < 1)%Q ->
  bounded rt -> bounded (connect_catch backoff message o rt).
Proof.
  intros H0 H1 H. unfold connect_catch.
  match goal with
  | |- bounded (if _ then attemptReconnect backoff o ?r else ?r) =>
      assert (Hr : bounded r)
  end.
  { apply bounded_emit; [exact I |]. repeat (apply bounded_update; [reflexivity |]). exact H. }
  destruct (negb _); [apply attemptReconnect_bounded; assumption | exact Hr].
Qed.

Lemma connect_bounded (o : Oracle) (rt : Runtime) :
  (0 <= random o)%Q -> (random o < 1)%Q ->
  bounded rt -> bounded (connect backoff o rt).
Proof.
  intros H0 H1 H. unfold connect.
  match goal with
  | |- bounded (if _ then set_connectsInFlight _ ?r else _) => assert (Hr : bounded r)
  end.
  { apply bounded_emit; [exact I |]. repeat (apply bounded_update; [reflexivity |]).
    destruct (reconnectTimer (client rt)); [| exact H].
    apply bounded_update; [reflexivity |]. apply bounded_clearTimeout. exact H. }
  destruct (ipc o); [exact Hr | apply connect_catch_bounded; assumption].
Qed.

Lemma connect_await_bounded (sts : Outcome Value) (o : Oracle) (rt : Runtime) :
  (0 <= random o)%Q -> (random o < 1)%Q ->
  bounded rt -> bounded (connect_await backoff sts o rt).
Proof.
  intros H0 H1 H. unfold connect_await.
  destruct sts as [st | message]; [| apply connect_catch_bounded; assumption].
  destruct (truthy (member "running" st)); [| apply connect_catch_bounded; assumption].
  apply startHeartbeat_bounded. apply bounded_emit; [exact I |].
  apply bounded_reset. repeat (apply bounded_update; [reflexivity |]). exact H.
Qed.

Lemma disconnect_bounded (rt : Runtime) : bounded rt -> bounded (disconnect rt).
Proof.
  intros H. unfold disconnect.
  assert (Hd : bounded
    (emit EvDisconnected (update (set_state disconnected)
      (emit EvDisconnecting (update (set_state disconnecting)
        (let rt := stopHeartbeat (update (set_isManualDisconnect true) rt) in
         match reconnectTimer (client rt) with
         | Some id => update (set_reconnectTimer None) (clearTimeout id rt)
         | None => rt
         end)))))).
  { apply bounded_emit; [exact I |]. apply bounded_update; [reflexivity |].
    apply bounded_emit; [exact I |]. apply bounded_update; [reflexivity |].
    assert (Hs : bounded (stopHeartbeat (update (set_isManualDisconnect true) rt))).
    { apply stopHeartbeat_bounded. apply bounded_update; [reflexivity | exact H]. }
    cbv zeta. destruct (reconnectTimer _); [| exact Hs].
    apply bounded_update; [reflexivity |]. apply bounded_clearTimeout. exact Hs. }
  destruct (state (client rt)); first [exact H | exact Hd].
Qed.

Lemma heartbeat_await_bounded (sts : Outcome Value) (o : Oracle) (rt : Runtime) :
  (0 <= random o)%Q -> (random o < 1)%Q ->
  bounded rt -> bounded (heartbeat_await backoff sts o rt).
Proof.
  intros H0 H1 H. unfold heartbeat_await.
  assert (Hf : forall message,
    bounded (attemptReconnect backoff o (stopHeartbeat
      (update (set_state disconnected) (update (set_lastDisconnectTime (Some (now o)))
         (update (set_lastError (Some message)) rt)))))).
  { intros message. apply attemptReconnect_bounded; try assumption.
    apply stopHeartbeat_bounded. repeat (apply bounded_update; [reflexivity |]). exact H. }
  destruct sts as [st | message]; [| apply Hf].
  destruct (truthy (member "running" st)); [exact H | apply Hf].
Qed.

Lemma step_bounded (a : Action) (o : Oracle) (rt rt' : Runtime) :
  (0 <= random o)%Q -> (random o < 1)%Q ->
  bounded rt -> step backoff a o rt = Some rt' -> bounded rt'.
Proof.
  intros H0 H1 H Hstep.
  destruct a as [| | | id | sts | id | sts]; cbn [step] in Hstep.
  - injection Hstep as <-. apply connect_bounded; assumption.
  - injection Hstep as <-. apply disconnect_bounded; assumption.
  - injection Hstep as <-. unfold reconnect. apply connect_bounded; try assumption.
    repeat (apply bounded_update; [reflexivity |]). apply bounded_reset. exact H.
  - destruct (hasTimeout id rt); [| discriminate]. injection Hstep as <-.
    apply connect_bounded; try assumption. apply bounded_clearTimeout. exact H.
  - destruct (connectsInFlight rt) as [| n]; [discriminate |]. injection Hstep as <-.
    apply connect_await_bounded; assumption.
  - destruct (hasInterval id rt); [| discriminate]. injection Hstep as <-. exact H.
  - destruct (probesInFlight rt) as [| n]; [discriminate |]. injection Hstep as <-.
    apply heartbeat_await_bounded; assumption.
Qed.

Lemma run_bounded (trace : list (Action * Oracle)) :
  forall rt rt', drawsInRange trace -> bounded rt ->
  run backoff trace rt = Some rt' -> bounded rt'.
Proof.
  induction trace as [| [a o] tr IH]; intros rt rt' Hd H Hrun; cbn [run] in Hrun.
  - injection Hrun as <-. exact H.
  - inversion Hd as [| ? ? [Ha0 Ha1] Htr]; subst. cbn in Ha0, Ha1.
    destruct (step backoff a o rt) as [r1 |] eqn:Hs; [| discriminate].
    eapply IH; [exact Htr | | exact Hrun].
    eapply step_bounded; eassumption.
Qed.

End Invariants.

Section ScheduledDelays.

Import Js Connection Schedule.

Variable fl : Q -> Q.
Hypothesis Hfl : Backoff.rounding fl.

Lemma getBackoffDelay_within (k : nat) (r : Q) :
  (k < maxReconnectAttempts)%nat -> (0 <= r)%Q -> (r < 1)%Q ->
  within (S k) (Backoff.getBackoffDelay fl k r).
Proof.
  unfold maxReconnectAttempts, within. intros Hk H0 H1.
  assert (Hc : k = 0%nat \/ k = 1%nat \/ k = 2%nat \/ k = 3%nat \/ k = 4%nat) by lia.
  destruct Hc as [-> | [-> | [-> | [-> | ->]]]].
  - apply (backoff_core fl Hfl 250 0 r); [lia | reflexivity | assumption..].
  - apply (backoff_core fl Hfl 500 1 r); [lia | reflexivity | assumption..].
  - apply (backoff_core fl Hfl 1000 2 r); [lia | reflexivity | assumption..].
  - apply (backoff_core fl Hfl 2000 3 r); [lia | reflexivity | assumption..].
  - apply (backoff_core fl Hfl 4000 4 r); [lia | reflexivity | assumption..].
Qed.

(** X23: whatever is called and whatever fires or settles, in any order,
    the client never counts more than five reconnect attempts, every
    [reconnecting] event numbers an attempt from 1 to 5 out of 5 and
    announces a delay within 25% of [1000 * 2^(attempt-1)] ms, and every
    pending reconnect timer waits between 750 and 20000 ms. *)
Theorem reconnect_schedule_stays_bounded (trace : list (Action * Oracle)) (rt : Runtime) :
  drawsInRange trace ->
  run (Backoff.getBackoffDelay fl) trace initial = Some rt ->
  (reconnectAttempts (client rt) <= 5)%nat /\
  (forall id delay, In (id, delay) (timeouts rt) -> 750 <= delay <= 20000) /\
  (forall attempt delay maxAttempts,
     In (EvReconnecting attempt delay maxAttempts) (emitted rt) ->
     (1 <= attempt <= 5)%nat /\ maxAttempts = 5%nat /\ within attempt delay).
Proof.
  intros Hd Hrun.
  assert (Hb : bounded rt).
  { apply (run_bounded (Backoff.getBackoffDelay fl) getBackoffDelay_within trace initial rt Hd);
      [| exact Hrun].
    repeat split; cbn; [unfold maxReconnectAttempts; lia | constructor | constructor]. }
  destruct Hb as (H1 & H2 & H3). split; [exact H1 |]. split.
  - intros id delay Hin. rewrite List.Forall_forall in H2. exact (H2 _ Hin).
  - intros attempt delay maxAttempts Hin. rewrite List.Forall_forall in H3. exact (H3 _ Hin).
Qed.

End ScheduledDelays.

Section Timers.

Import Js Connection.
Local Open Scope string_scope.

#[local] Arguments Nat.leb : simpl never.

Variable backoff : nat -> Q -> Z.

(** X24: at most one heartbeat interval is live at any time, and it is the
    one whose handle the client holds: starting the heartbeat clears the
    previous interval, whatever the order of calls, timers and replies. *)
Theorem heartbeat_interval_is_unique (rt : Runtime) :
  reachable backoff rt ->
  (length (intervals rt) <= 1)%nat /\
  forall id, In id (intervals rt) -> heartbeatTimer (client rt) = Some id.
Proof.
  intros H. apply (reachable_heartbeat_ok backoff) in H. unfold heartbeat_ok in H.
  destruct (intervals rt) as [| id [| id' l]].
  - split; [simpl; lia | intros id []].
  - split; [simpl; lia |]. intros i [<- | []]. exact H.
  - contradiction.
Qed.

Lemma halted_step (a : Action) (o : Oracle) (rt rt' : Runtime) :
  Schedule.halted rt -> explicit a = false -> step backoff a o rt = Some rt' ->
  Schedule.halted rt' /\ emitted rt' = emitted rt.
Proof.
  destruct rt as [[st le ld ra rtm htm flag] tos ivs nt cf pf em].
  unfold Schedule.halted. cbn [client state isManualDisconnect heartbeatTimer timeouts
                               intervals connectsInFlight emitted].
  intros (-> & -> & -> & -> & -> & ->) Hexp Hstep.
  destruct a as [| | | id | sts | id | sts]; try discriminate Hexp; cbn in Hstep;
    try discriminate Hstep.
  destruct pf as [| n]; [discriminate |]. injection Hstep as <-.
  unfold heartbeat_await, attemptReconnect, stopHeartbeat.
  destruct sts as [s | message]; [destruct (truthy (member "running" s)) |];
    cbn; repeat split.
Qed.

Lemma halted_run (trace : list (Action * Oracle)) : forall rt rt',
  Schedule.halted rt -> automatic trace -> run backoff trace rt = Some rt' ->
  Schedule.halted rt' /\ emitted rt' = emitted rt.
Proof.
  induction trace as [| [a o] tr IH]; intros rt rt' Hh Hauto Hrun; cbn [run] in Hrun.
  - injection Hrun as <-. split; [exact Hh | reflexivity].
  - inversion Hauto as [| ? ? Ha Htr]; subst. cbn in Ha.
    destruct (step backoff a o rt) as [r1 |] eqn:Hs; [| discriminate].
    destruct (halted_step a o rt r1 Hh Ha Hs) as [H1 E1].
    destruct (IH r1 rt' H1 Htr Hrun) as [H2 E2].
    split; [exact H2 | rewrite E2; exact E1].
Qed.

Lemma withoutInterval_held (id : TimerId) (l : list TimerId) :
  (forall i, In i l -> Some id = Some i) -> withoutInterval id l = [].
Proof.
  unfold withoutInterval. induction l as [| t l IH]; intros H; [reflexivity |].
  cbn [List.filter]. assert (Ht : Some id = Some t) by (apply H; left; reflexivity).
  injection Ht as ->. rewrite Pos.eqb_refl. cbn [negb].
  apply IH. intros i Hi. apply H. right. exact Hi.
Qed.

Lemma withoutTimeout_held (id : TimerId) (l : list (TimerId * Z)) :
  (forall i d, In (i, d) l -> Some id = Some i) -> withoutTimeout id l = [].
Proof.
  unfold withoutTimeout. induction l as [| [t d] l IH]; intros H; [reflexivity |].
  cbn [List.filter fst]. assert (Ht : Some id = Some t) by (apply (H t d); left; reflexivity).
  injection Ht as ->. rewrite Pos.eqb_refl. cbn [negb].
  apply IH. intros i d' Hi. apply (H i d'). right. exact Hi.
Qed.

Lemma disconnect_halted (rt : Runtime) :
  (forall id delay, In (id, delay) (timeouts rt) -> reconnectTimer (client rt) = Some id) ->
  (forall id, In id (intervals rt) -> heartbeatTimer (client rt) = Some id) ->
  connectsInFlight rt = 0%nat ->
  state (client rt) <> disconnected ->
  Schedule.halted (disconnect rt).
Proof.
  destruct rt as [[st le ld ra rtm htm flag] tos ivs nt cf pf em].
  cbn [client timeouts intervals reconnectTimer heartbeatTimer connectsInFlight state].
  intros Hheld Hbeat -> Hst.
  assert (Htos : match rtm with
                 | Some id => withoutTimeout id tos = []
                 | None => tos = []
                 end).
  { destruct rtm as [id |]; [apply withoutTimeout_held; exact Hheld |].
    destruct tos as [| [t d] l]; [reflexivity |].
    specialize (Hheld t d (or_introl eq_refl)). discriminate. }
  assert (Hivs : match htm with
                 | Some id => withoutInterval id ivs = []
                 | None => ivs = []
                 end).
  { destruct htm as [id |]; [apply withoutInterval_held; exact Hbeat |].
    destruct ivs as [| t l]; [reflexivity |].
    specialize (Hbeat t (or_introl eq_refl)). discriminate. }
  unfold disconnect, Schedule.halted.
  destruct st; try contradiction; destruct htm, rtm; cbn; subst; cbn;
    repeat split; first [exact Htos | exact Hivs].
Qed.

(** X25: [disconnect] and the timers the client holds.  When every pending
    reconnect timer is the one held in [reconnectTimer], [disconnect]
    cancels it, and whatever timers fire and whatever replies arrive
    afterwards, no reconnect timer is pending and no [connecting] or
    [reconnecting] event is emitted, until [connect] or [reconnect] is
    called.  When moreover no [connect] is suspended at its [await] and
    every live heartbeat interval is the one held, the client stays
    [disconnected] with no interval live and emits nothing more. *)
Theorem disconnect_stops_held_timer
    (rt : Runtime) (trace : list (Action * Oracle)) (rt' : Runtime) :
  (forall id delay, In (id, delay) (timeouts rt) -> reconnectTimer (client rt) = Some id) ->
  state (client rt) <> disconnected ->
  automatic trace -> run backoff trace (disconnect rt) = Some rt' ->
  (timeouts rt' = [] /\
   exists more, emitted rt' = (emitted (disconnect rt) ++ more)%list /\
                forallb (fun e => negb (announcesAttempt e)) more = true) /\
  (connectsInFlight rt = 0%nat ->
   (forall id, In id (intervals rt) -> heartbeatTimer (client rt) = Some id) ->
   state (client rt') = disconnected /\ timeouts rt' = [] /\ intervals rt' = [] /\
   connectsInFlight rt' = 0%nat /\ emitted rt' = emitted (disconnect rt)).
Proof.
  intros Hheld Hst Hauto Hrun. split.
  - destruct (disconnect_idle rt Hheld Hst) as [Hidle _].
    destruct (idle_run backoff trace (disconnect rt) rt' Hidle Hauto Hrun)
      as [[Hto _] Hquiet].
    split; [exact Hto | exact Hquiet].
  - intros Hcf Hbeat.
    pose proof (disconnect_halted rt Hheld Hbeat Hcf Hst) as Hh.
    destruct (halted_run trace (disconnect rt) rt' Hh Hauto Hrun)
      as [(H1 & _ & _ & H4 & H5 & H6) He].
    repeat split; assumption.
Qed.

(** X26: after the client has given up, [reconnect] starts the back-off
    over.  If the gateway is still down, the failed probe schedules attempt
    1 of 5 with the delay of the first attempt, and the client is
    [reconnecting] with that one timer pending. *)
Theorem reconnect_after_giving_up_starts_over
    (rt : Runtime) (sts : Outcome Value) (o1 o2 : Oracle) :
  exhausted rt -> ipc o1 = true -> probeFails sts = true ->
  exists rt',
    run backoff [(CallReconnect, o1); (ConnectSettles sts, o2)] rt = Some rt' /\
    state (client rt') = reconnecting /\
    armed 1 rt' /\
    exists before,
      emitted rt' = (before ++ [EvReconnecting 1 (backoff 0 (random o2)) maxReconnectAttempts])%list.
Proof.
  intros (Hst & Hra & Htm & Hto & Hcf & _) Hipc Hfail.
  destruct rt as [[st le ld ra rtm htm flag] tos ivs nt cf pf em].
  cbn [client state reconnectAttempts reconnectTimer timeouts connectsInFlight] in *.
  subst st ra rtm tos cf.
  cbn [run step]. unfold reconnect, connect. cbn. rewrite Hipc. cbn.
  unfold connect_await.
  assert (Hcatch : forall message,
    exists rt',
      Some (connect_catch backoff message o2
              {| client := {| state := connecting; lastError := None; lastDisconnectTime := ld;
                              reconnectAttempts := 0; reconnectTimer := None;
                              heartbeatTimer := htm; isManualDisconnect := false |};
                 timeouts := []; intervals := ivs; nextTimer := nt; connectsInFlight := 0;
                 probesInFlight := pf; emitted := (em ++ [EvConnecting])%list |}) = Some rt' /\
      state (client rt') = reconnecting /\ armed 1 rt' /\
      exists before,
        emitted rt'
        = (before ++ [EvReconnecting 1 (backoff 0 (random o2)) maxReconnectAttempts])%list).
  { intros message. eexists. split; [reflexivity |].
    unfold connect_catch, attemptReconnect, armed. cbn. split; [reflexivity |].
    split; [| eexists; reflexivity].
    split; [reflexivity |]. split; [reflexivity |]. eexists _, _. split; reflexivity. }
  destruct sts as [s | message]; [| apply Hcatch].
  cbn [probeFails] in Hfail. apply negb_true_iff in Hfail. rewrite Hfail. apply Hcatch.
Qed.

End Timers.

(** ** The push socket client *)

Section PushSocket.

Import Js Socket.
Local Open Scope string_scope.

#[local] Arguments Nat.leb : simpl never.
#[local] Arguments maxReconnectAttempts : simpl never.
#[local] Arguments Z.pow : simpl never.
#[local] Arguments Z.mul : simpl never.

Variable refused : string -> option string.
Variable JSON_parse : string -> Outcome Value.
Variable toISOString : nat -> string.

Lemma paced_same (rt rt' : Runtime) :
  reconnectAttempts (client rt') = reconnectAttempts (client rt) ->
  timers rt' = timers rt -> paced rt -> paced rt'.
Proof. unfold paced. intros -> ->. exact (fun H => H). Qed.

Lemma close_same (s : nat) (rt : Runtime) :
  client (close s rt) = client rt /\ timers (close s rt) = timers rt /\
  frames (close s rt) = frames rt /\ emitted (close s rt) = emitted rt /\
  nextTimer (close s rt) = nextTimer rt /\
  length (sockets (close s rt)) = length (sockets rt).
Proof.
  unfold close. destruct (readyStateOf s rt) as [[| | |] |]; repeat split;
    cbn; apply length_alter.
Qed.

Lemma disconnect_paced (rt : Runtime) : paced rt -> paced (disconnect rt).
Proof.
  unfold disconnect. destruct (socket (client rt)) as [s |]; [| exact (fun H => H)].
  destruct (close_same s rt) as (Hc & Ht & _). apply paced_same; cbn; [rewrite Hc | rewrite Ht];
    reflexivity.
Qed.

Lemma connect_paced (rt : Runtime) : paced rt -> paced (connect refused rt).
Proof.
  intros H. unfold connect. destruct (socket (client rt)); [exact H |].
  apply disconnect_paced in H. destruct (refused _); exact H.
Qed.

Lemma attemptReconnection_paced (rt : Runtime) : paced rt -> paced (attemptReconnection rt).
Proof.
  intros [H1 H2]. unfold attemptReconnection.
  destruct (Nat.leb maxReconnectAttempts (reconnectAttempts (client rt))) eqn:E;
    [split; assumption |].
  apply Nat.leb_gt in E. split; cbn.
  - lia.
  - apply Forall_app. split; [exact H2 |]. constructor; [| constructor]. cbn.
    exists (reconnectAttempts (client rt)). split; [exact E |].
    unfold reconnectDelay. f_equal. f_equal. lia.
Qed.

Lemma send_paced (s : nat) (v : Value) (rt rt' : Runtime) :
  send s v rt = Returns rt' -> paced rt -> paced rt'.
Proof.
  unfold send. destruct (readyStateOf s rt) as [[| | |] |]; intros [= <-]; exact (fun H => H).
Qed.

Lemma onmessage_paced (text : string) (now : nat) (rt : Runtime) :
  paced rt -> paced (onmessage JSON_parse text now rt).
Proof.
  intros H. unfold onmessage.
  destruct (JSON_parse text) as [data |]; [| exact H].
  destruct data; try exact H;
    repeat match goal with |- context [if ?c then _ else _] => destruct c end; exact H.
Qed.

Lemma step_paced (a : Action) (now : nat) (rt rt' : Runtime) :
  paced rt -> step refused JSON_parse toISOString a now rt = Some rt' -> paced rt'.
Proof.
  intros H Hstep. destruct a; cbn [step] in Hstep.
  - injection Hstep as <-. apply connect_paced; exact H.
  - injection Hstep as <-. apply disconnect_paced; exact H.
  - injection Hstep as <-. unfold configure.
    assert (Hc : paced (set_config (replaceFirst "http" "ws" url) key rt)) by exact H.
    destruct (isConnected _); [| exact Hc].
    apply connect_paced, disconnect_paced. exact Hc.
  - injection Hstep as <-. unfold sendMessage.
    destruct (socket (client rt)) as [s |]; [| exact H].
    destruct (isConnected (client rt)); [| exact H].
    destruct (send s _ rt) as [r |] eqn:E; [| exact H]. exact (send_paced _ _ _ _ E H).
  - injection Hstep as <-. unfold spawnAgent.
    destruct (socket (client rt)) as [s |]; [| exact H].
    destruct (isConnected (client rt)); [| exact H].
    destruct (send s _ rt) as [r |] eqn:E; [| exact H]. exact (send_paced _ _ _ _ E H).
  - unfold stopAgent in Hstep.
    destruct (socket (client rt)) as [s |]; [| injection Hstep as <-; exact H].
    destruct (isConnected (client rt)); [| injection Hstep as <-; exact H].
    destruct (send s _ rt) as [r |] eqn:E; injection Hstep as <-;
      [exact (send_paced _ _ _ _ E H) | exact H].
  - destruct (readyStateOf s rt) as [[| | |] |]; try discriminate.
    injection Hstep as <-. destruct H as [_ H2]. split; cbn; [lia | exact H2].
  - assert (Hc : paced (onclose (set_readyState s CLOSED rt))).
    { unfold onclose. apply attemptReconnection_paced. exact H. }
    destruct (readyStateOf s rt) as [[| | |] |]; try discriminate;
      injection Hstep as <-; exact Hc.
  - destruct (readyStateOf s rt) as [[| | |] |]; try discriminate;
      injection Hstep as <-; exact H.
  - destruct (readyStateOf s rt) as [[| | |] |]; try discriminate;
      injection Hstep as <-; apply onmessage_paced; exact H.
  - destruct (hasTimer id rt); [| discriminate]. injection Hstep as <-.
    assert (Hw : paced (withoutTimer id rt)).
    { destruct H as [H1 H2]. split; [exact H1 |]. cbn.
      induction H2 as [| x l Hx Hl IH]; cbn; [constructor |].
      match goal with |- context [if ?c then _ else _] => destruct c end;
        [constructor; assumption | assumption]. }
    unfold timerFired. destruct (negb _); [apply connect_paced; exact Hw | exact Hw].
Qed.

(** X27: the push socket client never counts more than five reconnection
    attempts, and every reconnection timer it sets waits [1000 * 2^j] ms
    for some [j] from 0 to 4, whatever is called and whatever the sockets
    do, from the client as constructed with any address and key. *)
Theorem socket_reconnection_delays_double
    (url key : string) (trace : list (Action * nat)) (rt : Runtime) :
  run refused JSON_parse toISOString trace (set_config url key initial) = Some rt ->
  (reconnectAttempts (client rt) <= 5)%nat /\
  forall id delay, In (id, delay) (timers rt) -> doubling delay.
Proof.
  intros Hrun.
  assert (Hgen : forall tr r0, paced r0 ->
            run refused JSON_parse toISOString tr r0 = Some rt -> paced rt).
  { induction tr as [| [a now] tr IH]; intros r0 H0 Hr; cbn [run] in Hr.
    - injection Hr as <-. exact H0.
    - destruct (step refused JSON_parse toISOString a now r0) as [r1 |] eqn:Hs; [| discriminate].
      eapply IH; [| exact Hr]. eapply step_paced; eassumption. }
  assert (Hinit : paced (set_config url key initial)).
  { split; cbn; [apply Nat.le_0_l | constructor]. }
  destruct (Hgen trace _ Hinit Hrun) as [H1 H2].
  split; [exact H1 |]. intros id delay Hin.
  rewrite List.Forall_forall in H2. exact (H2 _ Hin).
Qed.

Lemma readyStateOf_set_same (s : nat) (r : ReadyState) (rt : Runtime) :
  (s < length (sockets rt))%nat -> readyStateOf s (set_readyState s r rt) = Some r.
Proof.
  intros H. unfold readyStateOf, set_readyState. cbn.
  rewrite list_lookup_alter_eq.
  destruct (lookup_lt_is_Some_2 _ _ H) as [w Hw]. rewrite Hw. reflexivity.
Qed.

Lemma readyStateOf_bound (s : nat) (r : ReadyState) (rt : Runtime) :
  readyStateOf s rt = Some r -> (s < length (sockets rt))%nat.
Proof.
  unfold readyStateOf. destruct (sockets rt !! s) as [w |] eqn:E; [| discriminate].
  intros _. eapply lookup_lt_Some. exact E.
Qed.

Lemma readyStateOf_set_other (s s' : nat) (r : ReadyState) (rt : Runtime) :
  s <> s' -> readyStateOf s' (set_readyState s r rt) = readyStateOf s' rt.
Proof.
  intros H. unfold readyStateOf, set_readyState. cbn.
  rewrite list_lookup_alter_ne by exact H. reflexivity.
Qed.

Lemma hasTimer_new (id : nat) (delay : Z) (l : list (nat * Z)) :
  existsb (fun p => Nat.eqb (fst p) id) (l ++ [(id, delay)]) = true.
Proof. rewrite existsb_app. cbn. rewrite Nat.eqb_refl. apply orb_true_r. Qed.

(** X28: [disconnect] on the push socket does not last.  The close event
    of the socket it closed runs the reconnection: with attempts left, a
    timer is set, and when it fires the client opens a new socket to the
    gateway, although nothing called [connect]. *)
Theorem socket_disconnect_is_followed_by_reconnection
    (rt : Runtime) (s t0 t1 t2 : nat) :
  socket (client rt) = Some s ->
  (readyStateOf s rt = Some CONNECTING \/ readyStateOf s rt = Some OPEN) ->
  (reconnectAttempts (client rt) < maxReconnectAttempts)%nat ->
  refused (gatewayUrl (client rt)) = None ->
  exists rt',
    run refused JSON_parse toISOString
      [(CallDisconnect, t0); (Closes s, t1); (TimerFires (nextTimer rt), t2)] rt = Some rt' /\
    socket (client rt') = Some (length (sockets rt)) /\
    readyStateOf (length (sockets rt)) rt' = Some CONNECTING /\
    readyStateOf s rt' = Some CLOSED /\
    emitted rt' = (emitted rt ++ [EvDisconnected])%list.
Proof.
  intros Hs Hopen Hra Hok.
  pose proof Hra as Hleb. apply Nat.leb_gt in Hleb.
  assert (Hlt : (s < length (sockets rt))%nat).
  { destruct Hopen as [H | H]; exact (readyStateOf_bound _ _ _ H). }
  destruct rt as [[sock conn gw key ra] socks frs tms nt em].
  cbn [client socket reconnectAttempts gatewayUrl sockets nextTimer emitted] in *. subst sock.
  cbn [run step].
  (* disconnect *)
  assert (Hd : disconnect
             {| client := {| socket := Some s; isConnected := conn; gatewayUrl := gw;
                             apiKey := key; reconnectAttempts := ra |};
                sockets := socks; frames := frs; timers := tms; nextTimer := nt;
                emitted := em |}
           = {| client := {| socket := None; isConnected := false; gatewayUrl := gw;
                             apiKey := key; reconnectAttempts := ra |};
                sockets := alter (fun w => {| address := address w; token := token w;
                                              readyState := CLOSING |}) s socks;
                frames := frs; timers := tms; nextTimer := nt; emitted := em |}).
  { unfold disconnect, close. cbn [client socket].
    destruct Hopen as [-> | ->]; reflexivity. }
  rewrite Hd. clear Hd.
  set (r1 := {| client := _; sockets := alter _ s socks |}).
  assert (H1 : readyStateOf s r1 = Some CLOSING).
  { apply (readyStateOf_set_same s CLOSING
             {| client := {| socket := None; isConnected := false; gatewayUrl := gw;
                             apiKey := key; reconnectAttempts := ra |};
                sockets := socks; frames := frs; timers := tms; nextTimer := nt;
                emitted := em |}). exact Hlt. }
  rewrite H1.
  (* the close event *)
  unfold onclose, attemptReconnection. cbn [client reconnectAttempts set_socket emit
    set_isConnected with_client set_readyState]. unfold r1. cbn [client reconnectAttempts].
  rewrite Hleb. unfold hasTimer. cbn [setTimeout set_reconnectAttempts set_socket emit
    set_isConnected set_readyState with_client client timers nextTimer
    sockets frames emitted reconnectAttempts socket isConnected gatewayUrl apiKey].
  rewrite hasTimer_new.
  (* the timer *)
  unfold timerFired, withoutTimer, connect, disconnect. cbn.
  rewrite Hok. eexists. split; [reflexivity |].
  cbn [client socket set_socket with_client sockets emitted].
  rewrite !length_alter. split; [reflexivity |]. split; [| split; [| reflexivity]].
  - unfold readyStateOf. cbn [sockets set_socket with_client].
    rewrite lookup_app_r by (rewrite !length_alter; lia).
    rewrite !length_alter, Nat.sub_diag. reflexivity.
  - unfold readyStateOf. cbn [sockets set_socket with_client].
    rewrite lookup_app_l by (rewrite !length_alter; lia).
    rewrite list_lookup_alter_eq.
    destruct (lookup_lt_is_Some_2 _ _ Hlt) as [w Hw].
    rewrite list_lookup_alter_eq, Hw. reflexivity.
Qed.

(** X29: reconfiguring the push socket while it is connected loses the
    new socket.  [configure] closes the old socket and creates a new one;
    when the close event of the old socket arrives, its handler clears the
    client's [socket] field, which by then holds the new socket.  Once the
    new socket has opened, the client reports that it is connected, yet
    [sendMessage] rejects every message, and [disconnect] no longer closes
    the socket. *)
Theorem socket_configure_loses_new_socket
    (rt : Runtime) (s1 : nat) (url key : string) (t0 t1 t2 : nat) :
  socket (client rt) = Some s1 ->
  isConnected (client rt) = true ->
  readyStateOf s1 rt = Some OPEN ->
  refused (replaceFirst "http" "ws" url) = None ->
  let s2 := length (sockets rt) in
  exists rt',
    run refused JSON_parse toISOString
      [(CallConfigure url key, t0); (Closes s1, t1); (Opens s2, t2)] rt = Some rt' /\
    isConnected (client rt') = true /\
    socket (client rt') = None /\
    readyStateOf s2 rt' = Some OPEN /\
    (forall message sessionId now,
       sendMessage toISOString message sessionId now rt' = (rt', Throws "Not connected")) /\
    readyStateOf s2 (disconnect rt') = Some OPEN.
Proof.
  intros Hs Hconn Hopen Hok s2.
  assert (Hlt : (s1 < length (sockets rt))%nat) by exact (readyStateOf_bound _ _ _ Hopen).
  destruct rt as [[sock conn gw k0 ra] socks frs tms nt em].
  cbn [client socket isConnected sockets] in *. subst sock conn s2.
  destruct (lookup_lt_is_Some_2 _ _ Hlt) as [w Hw].
  assert (Hst : readyState w = OPEN).
  { unfold readyStateOf in Hopen. cbn [sockets] in Hopen. rewrite Hw in Hopen.
    injection Hopen as ->. reflexivity. }
  clear Hopen.
  assert (Hold : forall (f : WebSocket -> WebSocket) (l : list WebSocket),
    (alter f s1 socks ++ l)%list !! s1 = Some (f w)).
  { intros f l. rewrite lookup_app_l by (rewrite length_alter; exact Hlt).
    rewrite list_lookup_alter_eq, Hw. reflexivity. }
  assert (Hnew : forall (f g : WebSocket -> WebSocket) (x : WebSocket),
    (alter f s1 (alter g s1 socks ++ [x])%list) !! length socks = Some x).
  { intros f g x. rewrite list_lookup_alter_ne by lia.
    rewrite lookup_app_r by (rewrite length_alter; lia).
    rewrite length_alter, Nat.sub_diag. reflexivity. }
  cbn [run step]. unfold configure, connect, disconnect, close, readyStateOf.
  cbn. rewrite Hw, Hst. cbn. rewrite Hok. cbn.
  rewrite Hold. cbn.
  unfold onclose, attemptReconnection. cbn.
  rewrite length_alter.
  destruct (Nat.leb maxReconnectAttempts ra); cbn.
  - rewrite Hnew. cbn. eexists. split; [reflexivity |]. cbn.
    rewrite list_lookup_alter_eq, Hnew. cbn. repeat split.
  - rewrite Hnew. cbn. eexists. split; [reflexivity |]. cbn.
    rewrite list_lookup_alter_eq, Hnew. cbn. repeat split.
Qed.

Lemma disconnect_config (rt : Runtime) :
  gatewayUrl (client (disconnect rt)) = gatewayUrl (client rt) /\
  apiKey (client (disconnect rt)) = apiKey (client rt).
Proof.
  unfold disconnect. destruct (socket (client rt)) as [s |]; [| split; reflexivity].
  destruct (close_same s rt) as (Hc & _). cbn. rewrite Hc. split; reflexivity.
Qed.

Lemma connect_config (rt : Runtime) :
  gatewayUrl (client (connect refused rt)) = gatewayUrl (client rt) /\
  apiKey (client (connect refused rt)) = apiKey (client rt).
Proof.
  unfold connect. destruct (socket (client rt)) as [s |] eqn:E; [split; reflexivity |].
  destruct (disconnect_config rt) as [H1 H2].
  destruct (refused _); cbn; split; assumption.
Qed.

Lemma configure_config (url key : string) (rt : Runtime) :
  gatewayUrl (client (configure refused url key rt)) = replaceFirst "http" "ws" url /\
  apiKey (client (configure refused url key rt)) = key.
Proof.
  unfold configure. destruct (isConnected _); [| split; reflexivity].
  destruct (connect_config (disconnect (set_config (replaceFirst "http" "ws" url) key rt)))
    as [H1 H2].
  destruct (disconnect_config (set_config (replaceFirst "http" "ws" url) key rt)) as [G1 G2].
  rewrite H1, H2, G1, G2. split; reflexivity.
Qed.

Lemma substring_prefix (p s : string) : substring (String.length p) (p ++ s) = s.
Proof. induction p as [| c p IH]; [reflexivity | exact IH]. Qed.

Lemma replaceFirst_prefix (needle by_ rest : string) :
  replaceFirst needle by_ (needle ++ rest) = by_ ++ rest.
Proof.
  destruct (needle ++ rest) as [| c t] eqn:E; cbn [replaceFirst]; rewrite <- E;
    rewrite startsWith_app, substring_prefix; reflexivity.
Qed.

Lemma length_append (a b : string) :
  String.length (a ++ b) = (String.length a + String.length b)%nat.
Proof.
  induction a as [| c a IH]; [reflexivity |].
  change (S (String.length (a ++ b)) = S (String.length a + String.length b)).
  rewrite IH. reflexivity.
Qed.

Lemma startsWith_length (s p : string) :
  startsWith s p = true ->
  String.length s = (String.length p + String.length (substring (String.length p) s))%nat.
Proof.
  revert s; induction p as [| c p IH]; intros s H; [reflexivity |].
  destruct s as [| d s]; [discriminate |]. simpl in H.
  apply andb_true_iff in H as [_ H]. simpl. rewrite (IH s H). reflexivity.
Qed.

Lemma replaceFirst_absent (needle by_ s : string) :
  includes s needle = false -> replaceFirst needle by_ s = s.
Proof.
  induction s as [| c t IH]; cbn [includes replaceFirst]; intros H;
    apply orb_false_iff in H as [H1 H2]; rewrite H1; [reflexivity |].
  rewrite (IH H2). reflexivity.
Qed.

Lemma replaceFirst_length (needle by_ s : string) :
  includes s needle = true ->
  (String.length (replaceFirst needle by_ s) + String.length needle
   = String.length s + String.length by_)%nat.
Proof.
  induction s as [| c t IH]; cbn [includes replaceFirst]; intros H.
  - rewrite orb_false_r in H. rewrite H. rewrite length_append.
    rewrite (startsWith_length _ _ H). lia.
  - destruct (startsWith (String c t) needle) eqn:E.
    + rewrite length_append. rewrite (startsWith_length _ _ E). lia.
    + simpl in H. specialize (IH H). cbn [String.length]. lia.
Qed.

(** X30: [configure] rewrites the first [http] of the address, wherever
    it stands.  An address that begins with [http] gets [ws] in its place
    ([https] becomes [wss]) and is stored as it was given; an address
    without [http] is kept; any other address, such as a [ws://] address
    with [http] in its host or path, is connected to with two characters
    fewer than given. *)
Theorem socket_configure_rewrites_first_http (url key : string) (rt : Runtime) :
  let configured := configure refused url key rt in
  (forall rest, url = "http" ++ rest ->
     gatewayUrl (client configured) = "ws" ++ rest /\ savedUrl configured = url) /\
  (includes url "http" = false -> gatewayUrl (client configured) = url) /\
  (includes url "http" = true ->
     (String.length (gatewayUrl (client configured)) + 2 = String.length url)%nat).
Proof.
  intros configured. unfold configured, savedUrl.
  destruct (configure_config url key rt) as [-> _]. repeat split.
  - subst url. apply replaceFirst_prefix.
  - subst url. rewrite replaceFirst_prefix. apply (replaceFirst_prefix "ws" "http").
  - intros H. apply replaceFirst_absent. exact H.
  - intros H. pose proof (replaceFirst_length "http" "ws" url H) as Hl.
    cbn [String.length] in Hl. lia.
Qed.

End PushSocket.

(** ** The theorems above on sample inputs *)

Lemma emit_calls_all_in_order_witness :
  forallb Emitter.isPlain (Emitter.listeners "error" Examples.twoListeners) = true /\
  Emitter.calls (Emitter.emit "error" Examples.twoListeners) = [1; 2]%nat /\
  Emitter.eventListeners (Emitter.emit "error" Examples.twoListeners)
    = Emitter.eventListeners Examples.twoListeners.
Proof.
  split; [reflexivity |].
  exact (emit_calls_all_in_order "error" Examples.twoListeners eq_refl).
Defined.

Lemma off_removes_first_registration_witness :
  Emitter.listeners "error" Examples.registeredTwice
    = ([Emitter.Plain 1 true] ++ Emitter.Plain 2 false
         :: [Emitter.Plain 1 true; Emitter.Plain 2 false])%list /\
  Emitter.listeners "error" (Emitter.off "error" (Emitter.Plain 2 false) Examples.registeredTwice)
    = [Emitter.Plain 1 true; Emitter.Plain 1 true; Emitter.Plain 2 false].
Proof.
  split; [reflexivity |].
  refine (proj1 (off_removes_first_registration "error" (Emitter.Plain 2 false)
                   [Emitter.Plain 1 true] [Emitter.Plain 1 true; Emitter.Plain 2 false]
                   Examples.registeredTwice eq_refl _)).
  intros [H | []]. discriminate H.
Defined.

Lemma off_undoes_on_witness :
  Emitter.off "error" (Emitter.Plain 3 false) Examples.twoListeners = Examples.twoListeners /\
  forall f,
    Emitter.listeners f
      (Emitter.off "error" (Emitter.Plain 3 false)
         (Emitter.on "error" (Emitter.Plain 3 false) Examples.twoListeners))
    = Emitter.listeners f Examples.twoListeners.
Proof.
  apply (off_undoes_on "error" (Emitter.Plain 3 false) Examples.twoListeners).
  intros [H | [H | []]]; discriminate H.
Defined.

Lemma on_twice_calls_twice_witness :
  Emitter.calls
    (Emitter.emit "error"
       (Emitter.on "error" (Emitter.Plain 3 false)
          (Emitter.on "error" (Emitter.Plain 3 false) Examples.twoListeners)))
  = [1; 2; 3; 3]%nat.
Proof.
  exact (on_twice_calls_twice "error" 3 false Examples.twoListeners eq_refl).
Defined.

Lemma once_handler_called_once_witness :
  Emitter.calls
    (Emitter.emit "error"
       (Emitter.emit "error" (Emitter.once "error" (Emitter.Plain 3 false) Examples.twoListeners)))
  = [1; 2; 3; 1; 2]%nat /\
  Emitter.listeners "error"
    (Emitter.emit "error" (Emitter.once "error" (Emitter.Plain 3 false) Examples.twoListeners))
  = Emitter.listeners "error" Examples.twoListeners.
Proof.
  exact (once_handler_called_once "error" 3 Examples.twoListeners eq_refl).
Defined.

Lemma once_skips_next_listener_witness :
  Emitter.calls (Emitter.emit "connected" Examples.onceBetween) = [1; 2]%nat /\
  Emitter.listeners "connected" (Emitter.emit "connected" Examples.onceBetween)
    = [Emitter.Plain 1 false; Emitter.Plain 3 false].
Proof.
  exact (once_skips_next_listener "connected" 0 2 (Emitter.Plain 3 false)
           [Emitter.Plain 1 false] [] Examples.onceBetween eq_refl eq_refl eq_refl).
Defined.

Lemma once_handler_that_throws_stays_witness :
  Emitter.listeners "error"
    (Emitter.emit "error" (Emitter.once "error" (Emitter.Plain 3 true) Examples.twoListeners))
  = Emitter.listeners "error" (Emitter.once "error" (Emitter.Plain 3 true) Examples.twoListeners) /\
  Emitter.calls
    (Emitter.emit "error"
       (Emitter.emit "error" (Emitter.once "error" (Emitter.Plain 3 true) Examples.twoListeners)))
  = [1; 2; 3; 1; 2; 3]%nat.
Proof.
  exact (once_handler_that_throws_stays "error" 3 Examples.twoListeners eq_refl).
Defined.

(** White space of more than one byte is trimmed like the rest, and a
    line separator keeps [(default)] from being cut off the name. *)
Lemma parseAgents_unicode_white_space :
  Main.parseAgents Examples.unicodeListing
  = [Js.VObj [("id", Js.VStr ("a (default)" ++ Examples.lineSeparator ++ "x"));
              ("name", Js.VStr ("a (default)" ++ Examples.lineSeparator ++ "x"));
              ("isDefault", Js.VBool true); ("workspace", Js.VStr "");
              ("model", Js.VStr "")];
     Js.VObj [("id", Js.VStr "b"); ("name", Js.VStr "b"); ("isDefault", Js.VBool true);
              ("workspace", Js.VStr "/w"); ("model", Js.VStr "")]].
Proof. vm_compute. reflexivity. Qed.

Lemma gateway_logs_whole_file_witness :
  Handlers.gateway_logs (Some 0) (Handlers.ReadData Examples.logFile)
    = Js.VObj [("logs", Js.VStr Examples.logFile)].
Proof.
  apply (gateway_logs_whole_file 0 Examples.logFile). left. reflexivity.
Defined.

Lemma gateway_logs_last_lines_witness :
  0 < 2 /\
  exists logs,
    Handlers.gateway_logs (Some 2) (Handlers.ReadData Examples.logFile)
      = Js.VObj [("logs", Js.VStr logs)] /\
    Js.split_newline logs = ["two"; "three"]%string.
Proof.
  split; [reflexivity |].
  exact (gateway_logs_last_lines 2 Examples.logFile eq_refl).
Defined.

Lemma spawned_session_is_never_recorded_witness :
  Requests.spawnSession Examples.toString
    (Handlers.agent_spawn (Requests.spawnRequest "head" "tidy up" Js.VUndefined Js.VUndefined)
       (Handlers.Spawned (Some 4242%positive)))
  = Js.Returns (Js.VObj [("sessionId", Js.VStr "4242"); ("sessionKey", Js.VUndefined)]) /\
  Js.member "sessionKey"
    (Js.VObj [("sessionId", Js.VStr "4242"); ("sessionKey", Js.VUndefined)]) = Js.VUndefined /\
  forall call,
    MissionControl.recordedSpawn Examples.threeSessions
      (Js.VObj [("sessionId", Js.VStr "4242"); ("sessionKey", Js.VUndefined)]) "L"
    <> Js.Returns (Some call).
Proof.
  split; [reflexivity |].
  exact (spawned_session_is_never_recorded Examples.toString
           (Requests.spawnRequest "head" "tidy up" Js.VUndefined Js.VUndefined)
           (Handlers.Spawned (Some 4242%positive)) _ Examples.threeSessions "L" eq_refl).
Defined.

Lemma sessionsByAgent_groups_by_agent_witness :
  MissionControl.sessionsByAgent Examples.threeSessions = Js.Returns Examples.grouped /\
  Examples.grouped !! "main"%string
    = Some [Examples.session "agent:main:1"; Examples.session "agent:main:3"].
Proof.
  assert (H : MissionControl.sessionsByAgent Examples.threeSessions
              = Js.Returns Examples.grouped) by (vm_compute; reflexivity).
  split; [exact H |].
  exact (sessionsByAgent_groups_by_agent Examples.threeSessions Examples.grouped "main" H).
Defined.

Lemma reconnect_schedule_stays_bounded_witness :
  Backoff.rounding Backoff.exact /\
  Schedule.drawsInRange Samples.doubleReconnect /\
  Connection.run (Backoff.getBackoffDelay Backoff.exact) Samples.doubleReconnect
    Connection.initial = Some Examples.afterDoubleReconnect /\
  (Connection.reconnectAttempts (Connection.client Examples.afterDoubleReconnect) <= 5)%nat /\
  (forall id delay, In (id, delay) (Connection.timeouts Examples.afterDoubleReconnect) ->
     750 <= delay <= 20000) /\
  (forall attempt delay maxAttempts,
     In (Connection.EvReconnecting attempt delay maxAttempts)
        (Connection.emitted Examples.afterDoubleReconnect) ->
     (1 <= attempt <= 5)%nat /\ maxAttempts = 5%nat /\ Schedule.within attempt delay).
Proof.
  assert (Hd : Schedule.drawsInRange Samples.doubleReconnect).
  { repeat constructor; discriminate. }
  assert (Hr : Connection.run (Backoff.getBackoffDelay Backoff.exact) Samples.doubleReconnect
                 Connection.initial = Some Examples.afterDoubleReconnect)
    by (vm_compute; reflexivity).
  split; [exact exact_rounding |]. split; [exact Hd |]. split; [exact Hr |].
  exact (reconnect_schedule_stays_bounded Backoff.exact exact_rounding
           Samples.doubleReconnect Examples.afterDoubleReconnect Hd Hr).
Defined.

Lemma heartbeat_interval_is_unique_witness :
  Connection.reachable Samples.exactBackoff Examples.afterConnects /\
  (length (Connection.intervals Examples.afterConnects) <= 1)%nat /\
  forall id, In id (Connection.intervals Examples.afterConnects) ->
    Connection.heartbeatTimer (Connection.client Examples.afterConnects) = Some id.
Proof.
  assert (H : Connection.reachable Samples.exactBackoff Examples.afterConnects).
  { exists Examples.connects. vm_compute. reflexivity. }
  split; [exact H |].
  exact (heartbeat_interval_is_unique Samples.exactBackoff Examples.afterConnects H).
Defined.

Lemma disconnect_stops_held_timer_witness :
  Connection.timeouts Examples.probingWhileReconnecting = [(2%positive, 1000)] /\
  Connection.reconnectTimer (Connection.client Examples.probingWhileReconnecting)
    = Some 2%positive /\
  Connection.state (Connection.client Examples.probingWhileReconnecting)
    = Connection.reconnecting /\
  Connection.connectsInFlight Examples.probingWhileReconnecting = 0%nat /\
  Connection.intervals Examples.probingWhileReconnecting = [] /\
  Connection.probesInFlight Examples.probingWhileReconnecting = 1%nat /\
  Connection.automatic Examples.lateProbe /\
  Connection.run Samples.exactBackoff Examples.lateProbe
    (Connection.disconnect Examples.probingWhileReconnecting) = Some Examples.afterLateProbe /\
  (Connection.timeouts Examples.afterLateProbe = [] /\
   exists more,
     Connection.emitted Examples.afterLateProbe
       = (Connection.emitted (Connection.disconnect Examples.probingWhileReconnecting)
            ++ more)%list /\
     forallb (fun e => negb (Connection.announcesAttempt e)) more = true) /\
  Connection.state (Connection.client Examples.afterLateProbe) = Connection.disconnected /\
  Connection.timeouts Examples.afterLateProbe = [] /\
  Connection.intervals Examples.afterLateProbe = [] /\
  Connection.connectsInFlight Examples.afterLateProbe = 0%nat /\
  Connection.emitted Examples.afterLateProbe
    = Connection.emitted (Connection.disconnect Examples.probingWhileReconnecting).
Proof.
  assert (Ht : Connection.timeouts Examples.probingWhileReconnecting = [(2%positive, 1000)])
    by (vm_compute; reflexivity).
  assert (Hh : Connection.reconnectTimer (Connection.client Examples.probingWhileReconnecting)
               = Some 2%positive) by (vm_compute; reflexivity).
  assert (Hs : Connection.state (Connection.client Examples.probingWhileReconnecting)
               = Connection.reconnecting) by (vm_compute; reflexivity).
  assert (Hc : Connection.connectsInFlight Examples.probingWhileReconnecting = 0%nat)
    by (vm_compute; reflexivity).
  assert (Hi : Connection.intervals Examples.probingWhileReconnecting = [])
    by (vm_compute; reflexivity).
  assert (Ha : Connection.automatic Examples.lateProbe) by (repeat constructor).
  assert (Hr : Connection.run Samples.exactBackoff Examples.lateProbe
                 (Connection.disconnect Examples.probingWhileReconnecting)
               = Some Examples.afterLateProbe) by (vm_compute; reflexivity).
  split; [exact Ht |]. split; [exact Hh |]. split; [exact Hs |]. split; [exact Hc |].
  split; [exact Hi |]. split; [vm_compute; reflexivity |]. split; [exact Ha |].
  split; [exact Hr |].
  assert (Hheld : forall id delay,
            In (id, delay) (Connection.timeouts Examples.probingWhileReconnecting) ->
            Connection.reconnectTimer (Connection.client Examples.probingWhileReconnecting)
            = Some id).
  { intros id delay Hin. rewrite Ht in Hin. destruct Hin as [Hin | []].
    injection Hin as <- _. exact Hh. }
  assert (Hst : Connection.state (Connection.client Examples.probingWhileReconnecting)
                <> Connection.disconnected) by (rewrite Hs; discriminate).
  destruct (disconnect_stops_held_timer Samples.exactBackoff Examples.probingWhileReconnecting
              Examples.lateProbe Examples.afterLateProbe Hheld Hst Ha Hr) as [Hquiet Hrest].
  split; [exact Hquiet |]. apply Hrest; [exact Hc |].
  intros id Hin. rewrite Hi in Hin. destruct Hin.
Defined.

Lemma reconnect_after_giving_up_starts_over_witness :
  Connection.exhausted Examples.givenUp /\
  Connection.probeFails Samples.down = true /\
  exists rt',
    Connection.run Samples.exactBackoff
      [(Connection.CallReconnect, Samples.answering 0);
       (Connection.ConnectSettles Samples.down, Samples.answering (1 # 2))]
      Examples.givenUp = Some rt' /\
    Connection.state (Connection.client rt') = Connection.reconnecting /\
    Connection.armed 1 rt' /\
    exists before,
      Connection.emitted rt'
      = (before ++ [Connection.EvReconnecting 1 1000 Connection.maxReconnectAttempts])%list.
Proof.
  assert (H : Connection.exhausted Examples.givenUp).
  { unfold Connection.exhausted.
    repeat (split; [vm_compute; reflexivity |]).
    exists (removelast (Connection.emitted Examples.givenUp)). vm_compute. reflexivity. }
  split; [exact H |]. split; [reflexivity |].
  exact (reconnect_after_giving_up_starts_over Samples.exactBackoff Examples.givenUp
           Samples.down (Samples.answering 0) (Samples.answering (1 # 2)) H eq_refl eq_refl).
Defined.

Lemma addSpawn_changes_only_child_and_parent_witness :
  SessionContext.ordinary "a" = true /\ SessionContext.ordinary "c" = true /\
  (forall k, k <> "c"%string ->
     SessionContext.getParent (SessionContext.addSpawn "a" "c" None Examples.family) k
     = SessionContext.getParent Examples.family k) /\
  (forall k, k <> "a"%string ->
     SessionContext.getChildren (SessionContext.addSpawn "a" "c" None Examples.family) k
     = SessionContext.getChildren Examples.family k) /\
  SessionContext.getChildren (SessionContext.addSpawn "a" "c" None Examples.family) "a"
  = ["b"; "c"]%string.
Proof.
  split; [reflexivity |]. split; [reflexivity |].
  destruct (addSpawn_changes_only_child_and_parent "a" "c" None Examples.family
              eq_refl eq_refl) as (H1 & H2 & _ & H4).
  split; [exact H1 |]. split; [exact H2 |]. exact H4.
Defined.

Lemma addSpawn_reparenting_keeps_old_listing_witness :
  SessionContext.ordinary "a" = true /\ SessionContext.ordinary "b" = true /\
  SessionContext.ordinary "c" = true /\
  "a"%string <> "b"%string /\
  SessionContext.getParent
    (SessionContext.addSpawn "b" "c" None (SessionContext.addSpawn "a" "c" None ∅)) "c"
    = Some "b"%string /\
  "c"%string ∈ SessionContext.getChildren
    (SessionContext.addSpawn "b" "c" None (SessionContext.addSpawn "a" "c" None ∅)) "b" /\
  "c"%string ∈ SessionContext.getChildren
    (SessionContext.addSpawn "b" "c" None (SessionContext.addSpawn "a" "c" None ∅)) "a".
Proof.
  assert (H : "a"%string <> "b"%string) by discriminate.
  split; [reflexivity |]. split; [reflexivity |]. split; [reflexivity |].
  split; [exact H |].
  exact (addSpawn_reparenting_keeps_old_listing "a" "b" "c" None None ∅
           eq_refl eq_refl eq_refl H).
Defined.

Lemma hierarchy_parent_lists_child_witness :
  Hierarchy.ordinaryCalls Examples.spawns /\
  (forall c p,
     SessionContext.getParent (Hierarchy.after Examples.spawns ∅) c = Some p ->
     c ∈ SessionContext.getChildren (Hierarchy.after Examples.spawns ∅) p) /\
  (forall k, NoDup (SessionContext.getChildren (Hierarchy.after Examples.spawns ∅) k)).
Proof.
  assert (H : Hierarchy.ordinaryCalls Examples.spawns).
  { repeat constructor. }
  split; [exact H |].
  exact (hierarchy_parent_lists_child Examples.spawns H).
Defined.

Lemma listSessions_accepts_two_shapes_witness :
  Json.parse "{}" = Js.Returns (Js.VObj []) /\
  exists message,
    Client.listSessions (Main.sessions_list Json.parse (Main.ChildExit "")) = Js.Throws message.
Proof.
  assert (H : Json.parse "{}" = Js.Returns (Js.VObj [])) by (vm_compute; reflexivity).
  split; [exact H |].
  exact (proj2 (proj2 (listSessions_accepts_two_shapes Json.parse "" (Js.VObj []) H))
           [] eq_refl eq_refl).
Defined.

Lemma socket_reconnection_delays_double_witness :
  Socket.run Examples.accepting Json.parse Examples.isoString Examples.opensAndCloses
    (Socket.set_config "ws://localhost:18789" "" Socket.initial)
    = Some Examples.afterOpensAndCloses /\
  (Socket.reconnectAttempts (Socket.client Examples.afterOpensAndCloses) <= 5)%nat /\
  forall id delay, In (id, delay) (Socket.timers Examples.afterOpensAndCloses) ->
    Socket.doubling delay.
Proof.
  assert (H : Socket.run Examples.accepting Json.parse Examples.isoString Examples.opensAndCloses
                (Socket.set_config "ws://localhost:18789" "" Socket.initial)
              = Some Examples.afterOpensAndCloses) by (vm_compute; reflexivity).
  split; [exact H |].
  exact (socket_reconnection_delays_double Examples.accepting Json.parse Examples.isoString
           "ws://localhost:18789" "" Examples.opensAndCloses Examples.afterOpensAndCloses H).
Defined.

Lemma socket_disconnect_is_followed_by_reconnection_witness :
  Socket.socket (Socket.client Examples.socketOpen) = Some 0%nat /\
  Socket.readyStateOf 0 Examples.socketOpen = Some Socket.OPEN /\
  exists rt',
    Socket.run Examples.accepting Json.parse Examples.isoString
      [(Socket.CallDisconnect, 2%nat); (Socket.Closes 0, 3%nat);
       (Socket.TimerFires (Socket.nextTimer Examples.socketOpen), 4%nat)]
      Examples.socketOpen = Some rt' /\
    Socket.socket (Socket.client rt') = Some (length (Socket.sockets Examples.socketOpen)) /\
    Socket.readyStateOf (length (Socket.sockets Examples.socketOpen)) rt'
      = Some Socket.CONNECTING /\
    Socket.readyStateOf 0 rt' = Some Socket.CLOSED /\
    Socket.emitted rt' = (Socket.emitted Examples.socketOpen ++ [Socket.EvDisconnected])%list.
Proof.
  split; [reflexivity |]. split; [reflexivity |].
  refine (socket_disconnect_is_followed_by_reconnection Examples.accepting Json.parse
            Examples.isoString Examples.socketOpen 0 2 3 4 eq_refl (or_intror eq_refl) _ eq_refl).
  vm_compute. lia.
Defined.

Lemma socket_configure_loses_new_socket_witness :
  Socket.isConnected (Socket.client Examples.socketOpen) = true /\
  exists rt',
    Socket.run Examples.accepting Json.parse Examples.isoString
      [(Socket.CallConfigure "http://gateway:18789" "key", 2%nat); (Socket.Closes 0, 3%nat);
       (Socket.Opens (length (Socket.sockets Examples.socketOpen)), 4%nat)]
      Examples.socketOpen = Some rt' /\
    Socket.isConnected (Socket.client rt') = true /\
    Socket.socket (Socket.client rt') = None /\
    Socket.readyStateOf (length (Socket.sockets Examples.socketOpen)) rt' = Some Socket.OPEN /\
    (forall message sessionId now,
       Socket.sendMessage Examples.isoString message sessionId now rt'
       = (rt', Js.Throws "Not connected")) /\
    Socket.readyStateOf (length (Socket.sockets Examples.socketOpen)) (Socket.disconnect rt')
      = Some Socket.OPEN.
Proof.
  split; [reflexivity |].
  exact (socket_configure_loses_new_socket Examples.accepting Json.parse Examples.isoString
           Examples.socketOpen 0 "http://gateway:18789" "key" 2 3 4
           eq_refl eq_refl eq_refl eq_refl).
Defined.
